(** * Batch malware-scan router: a shallow embedding of [handler.py]

    The development follows the source file top to bottom:

    - [PyStr]: the Python [str] methods the handler relies on
      ([endswith], [split], [replace], [strip], slicing,
      [os.path.dirname] and [os.path.basename]);
    - [PyDict]: insertion-ordered dictionaries with in-place overwrite;
    - the tag merger ([update_tags]), the report parser ([run_scan]),
      the router ([move_and_tag_files]) and the scan-mode branch of
      [handler], written in a small monad that threads the outside world,
      records every external call (with its outcome) in a trace and
      propagates Python exceptions.

    Characters are code points below 256. *)

From Stdlib Require Import String Ascii List ZArith Lia Bool Arith DecimalString.
Import ListNotations.
Local Open Scope string_scope.
Local Open Scope list_scope.

(** ** Python strings *)

Module PyStr.

(** [s.startswith(p)] *)
Fixpoint startswith (s p : string) {struct p} : bool :=
  match p with
  | EmptyString => true
  | String a p' =>
      match s with
      | EmptyString => false
      | String b s' => Ascii.eqb a b && startswith s' p'
      end
  end.

(** [s.endswith(suf)]: some suffix of [s] is [suf]. *)
Fixpoint endswith (s suf : string) : bool :=
  String.eqb s suf ||
  match s with
  | EmptyString => false
  | String _ s' => endswith s' suf
  end.

(** [sub in s] *)
Fixpoint contains (s sub : string) : bool :=
  startswith s sub ||
  match s with
  | EmptyString => false
  | String _ s' => contains s' sub
  end.

(** [s.split(sep)] for a non-empty [sep]: leftmost non-overlapping
    occurrences.  [skip] counts the characters of a matched separator
    still to be dropped. *)
Fixpoint split_from (sep : string) (skip : nat) (s : string) : list string :=
  match s with
  | EmptyString => [EmptyString]
  | String c s' =>
      match skip with
      | S k => split_from sep k s'
      | O =>
          if startswith s sep
          then EmptyString :: split_from sep (String.length sep - 1) s'
          else match split_from sep 0 s' with
               | [] => [String c EmptyString]
               | h :: t => String c h :: t
               end
      end
  end.

Definition split (s sep : string) : list string := split_from sep 0 s.

(** [s.replace(old, new)] for a non-empty [old]. *)
Fixpoint replace_from (old new : string) (skip : nat) (s : string) : string :=
  match s with
  | EmptyString => EmptyString
  | String c s' =>
      match skip with
      | S k => replace_from old new k s'
      | O =>
          if startswith s old
          then new ++ replace_from old new (String.length old - 1) s'
          else String c (replace_from old new 0 s')
      end
  end.

Definition replace (s old new : string) : string := replace_from old new 0 s.

(** [str.isspace] on one character (code points below 256). *)
Definition is_space (c : ascii) : bool :=
  let n := nat_of_ascii c in
  (((9 <=? n) && (n <=? 13)) || ((28 <=? n) && (n <=? 32))
   || (n =? 133) || (n =? 160))%nat.

Fixpoint lstrip (s : string) : string :=
  match s with
  | EmptyString => EmptyString
  | String c s' => if is_space c then lstrip s' else s
  end.

Fixpoint rstrip (s : string) : string :=
  match s with
  | EmptyString => EmptyString
  | String c s' =>
      match rstrip s' with
      | EmptyString => if is_space c then EmptyString else String c EmptyString
      | r => String c r
      end
  end.

(** [s.strip()] *)
Definition strip (s : string) : string := rstrip (lstrip s).

(** [s[:n]] *)
Fixpoint take (n : nat) (s : string) : string :=
  match n, s with
  | S k, String c s' => String c (take k s')
  | _, _ => EmptyString
  end.

(** Membership of a character. *)
Fixpoint has_char (c : ascii) (s : string) : bool :=
  match s with
  | EmptyString => false
  | String d s' => Ascii.eqb c d || has_char c s'
  end.

(** [s[s.rfind('/') + 1:]], which is [os.path.basename(s)]. *)
Fixpoint basename (s : string) : string :=
  match s with
  | EmptyString => EmptyString
  | String c s' =>
      if has_char "/" s' then basename s'
      else if Ascii.eqb c "/" then s' else s
  end.

(** [s[:s.rfind('/') + 1]]: the head kept by [os.path.dirname]. *)
Fixpoint head_upto_slash (s : string) : string :=
  match s with
  | EmptyString => EmptyString
  | String c s' =>
      if has_char "/" s' then String c (head_upto_slash s')
      else if Ascii.eqb c "/" then String c EmptyString else EmptyString
  end.

Fixpoint all_slashes (s : string) : bool :=
  match s with
  | EmptyString => true
  | String c s' => Ascii.eqb c "/" && all_slashes s'
  end.

(** [head.rstrip('/')] *)
Fixpoint rstrip_slash (s : string) : string :=
  match s with
  | EmptyString => EmptyString
  | String c s' =>
      match rstrip_slash s' with
      | EmptyString => if Ascii.eqb c "/" then EmptyString else String c EmptyString
      | r => String c r
      end
  end.

(** [os.path.dirname] (posixpath). *)
Definition dirname (p : string) : string :=
  let head := head_upto_slash p in
  if negb (String.eqb head EmptyString) && negb (all_slashes head)
  then rstrip_slash head else head.

Definition LF : string := String (ascii_of_nat 10) EmptyString.
Definition CR : string := String (ascii_of_nat 13) EmptyString.

End PyStr.

Import PyStr.


(** Decimal rendering of a Python [int] inside an f-string. *)
Definition str_of_Z (z : Z) : string :=
  DecimalString.NilZero.string_of_int (Z.to_int z).

Definition DQUOTE : string := String (ascii_of_nat 34) EmptyString.

(** ** Python dictionaries

    A [dict] keeps its keys in insertion order and [d[k] = v] overwrites the
    value of an existing key in place. *)

Module PyDict.

Definition dict (V : Type) : Type := list (string * V).

Fixpoint set {V} (d : dict V) (k : string) (v : V) : dict V :=
  match d with
  | [] => [(k, v)]
  | (k', v') :: d' =>
      if String.eqb k' k then (k', v) :: d' else (k', v') :: set d' k v
  end.

Fixpoint get {V} (d : dict V) (k : string) : option V :=
  match d with
  | [] => None
  | (k', v') :: d' => if String.eqb k' k then Some v' else get d' k
  end.

Definition keys {V} (d : dict V) : list string := map fst d.

(** [k in d] *)
Definition mem {V} (k : string) (d : dict V) : bool :=
  existsb (String.eqb k) (keys d).

End PyDict.

Import PyDict.

(** ** Verdicts, tags and the process environment *)

(** The three status strings ["clean"], ["infected"] and ["error"]. *)
Inductive Status : Type := Clean | Infected | Error.

Definition status_str (s : Status) : string :=
  match s with
  | Clean => "clean"
  | Infected => "infected"
  | Error => "error"
  end.

Definition status_eqb (a b : Status) : bool :=
  match a, b with
  | Clean, Clean | Infected, Infected | Error, Error => true
  | _, _ => false
  end.

(** A scan result is the pair [(status, detail)]; [detail] may be [None]. *)
Definition Verdict : Type := (Status * option string)%type.

(** Python truthiness of [detail]: [None] and the empty string are false. *)
Definition truthy (detail : option string) : bool :=
  match detail with
  | Some d => negb (String.eqb d EmptyString)
  | None => false
  end.

(** One element [{"Key": k, "Value": v}] of a [TagSet]. *)
Definition Tag : Type := (string * string)%type.
Definition TagSet : Type := list Tag.

(** Python exceptions, as far as the handler tells them apart:
    [botocore.exceptions.ClientError] with its
    [response['Error']['Code']], and everything else.  [msg] is [str(e)]. *)
Inductive exn : Type :=
| ClientError (code : string) (msg : string)
| OtherError (msg : string).

Definition str_exn (e : exn) : string :=
  match e with
  | ClientError _ m => m
  | OtherError m => m
  end.

Definition is_client_error (e : exn) : bool :=
  match e with
  | ClientError _ _ => true
  | OtherError _ => false
  end.

(** What [os.environ.get(name)] returns: the value of the variable, or
    Python's [None] when it is unset.  The storage calls receive it as it
    is, whichever it is. *)
Definition Bucket : Type := option string.

(** The process environment as far as the scan path reads it, each
    variable with its value or [None] when unset, and the module-level
    [scan_time]. *)
Record Env : Type := {
  LANDING_BUCKET_NAME : Bucket;
  PROCESSED_BUCKET_NAME : Bucket;
  QUARANTINE_BUCKET_NAME : Bucket;
  CLAMAV_DEFINITON_BUCKET_NAME : option string;
  scan_time : string
}.

Definition FIVE_GB : Z := 5 * 1024 * 1024 * 1024.

(** ** The tag merger, pure part of [update_tags] *)

(** The sanitised ["scan-error"] value. *)
Definition safe_error (detail : string) : string :=
  take 250 (replace (replace detail LF " ") CR " ").

(** The [additional_tags] dictionary, in insertion order. *)
Definition additional_tags (env : Env) (status : Status) (detail : option string)
  : dict string :=
  let base := [("scan-result", status_str status); ("scan-time", scan_time env)] in
  match detail with
  | Some d =>
      if status_eqb status Infected && truthy detail
      then set base "virus-name" d
      else if status_eqb status Error && truthy detail
      then set base "scan-error" (safe_error d)
      else base
  | None => base
  end.

(** [tags_to_keep] after the [extend]: the tag set that is written back. *)
Definition merge_tags (env : Env) (tags : TagSet) (status : Status)
  (detail : option string) : TagSet :=
  let add := additional_tags env status detail in
  filter (fun t => negb (mem (fst t) add)) tags ++ add.

(** ** The report parser, pure part of [run_scan] *)

(** The [for line in stdout.split('\n')] loop. An [IndexError] from
    [line.split(': ')[1]] is swallowed and the loop goes on. *)
Fixpoint virus_name_of_lines (lines : list string) : string :=
  match lines with
  | [] => "Unknown"
  | line :: rest =>
      if endswith (strip line) " FOUND"
      then match nth_error (split line ": ") 1 with
           | Some piece => strip (replace piece " FOUND" "")
           | None => virus_name_of_lines rest
           end
      else virus_name_of_lines rest
  end.

Definition virus_name (stdout : string) : string :=
  virus_name_of_lines (split stdout LF).

Definition scan_error_message (exit_code : Z) (stderr : string) : string :=
  "ClamAV scan error. Exit code: " ++ str_of_Z exit_code ++ ". STDERR: " ++ stderr.

(** What [run_scan] does with the triple returned by [run_command]:
    a verdict, or the exception it raises. *)
Definition scan_outcome (exit_code : Z) (stdout stderr : string) : exn + Verdict :=
  if (exit_code =? 0)%Z then inr (Clean, None)
  else if (exit_code =? 1)%Z then inr (Infected, Some (virus_name stdout))
  else inl (OtherError (scan_error_message exit_code stderr)).

(** ** The outside world

    Every call that leaves the process (storage, scanner, local files) is a
    field of [Sys]: it takes the world, returns the next world and either a
    result or the exception raised. *)

(** One listed object: key and size in bytes. *)
Definition S3Object : Type := (string * Z)%type.

(** One page of [list_objects_v2]; [None] when the page has no ["Contents"]. *)
Definition Page : Type := option (list S3Object).

Record Sys (W : Type) : Type := {
  (** [run_command(command)]: [(returncode, stdout, stderr)] *)
  sys_run_command : string -> W -> W * (exn + (Z * string * string));
  (** [os.makedirs(path, exist_ok=True)] *)
  sys_makedirs : string -> W -> W * option exn;
  (** [os.remove(path)] *)
  sys_remove : string -> W -> W * option exn;
  (** [s3_client.download_file(bucket, key, path)] *)
  sys_download_file : Bucket -> string -> string -> W -> W * option exn;
  (** the paginator over [list_objects_v2(Bucket, Prefix)]: the pages
      delivered, and the exception that ended the iteration, if any *)
  sys_list_objects : Bucket -> string -> W -> W * (list Page * option exn);
  (** [s3_client.copy_object(Bucket=dst, CopySource={Bucket: src, Key: key}, Key=key)] *)
  sys_copy_object : Bucket -> Bucket -> string -> W -> W * option exn;
  (** [s3_client.delete_object(Bucket, Key)] *)
  sys_delete_object : Bucket -> string -> W -> W * option exn;
  (** [s3_client.get_object_tagging(Bucket, Key)]: the ["TagSet"] entry of
      the response, if present *)
  sys_get_object_tagging : Bucket -> string -> W -> W * (exn + option TagSet);
  (** [s3_client.put_object_tagging(Bucket, Key, Tagging={"TagSet": tags})] *)
  sys_put_object_tagging : Bucket -> string -> TagSet -> W -> W * option exn
}.

Arguments sys_run_command {W}.
Arguments sys_makedirs {W}.
Arguments sys_remove {W}.
Arguments sys_download_file {W}.
Arguments sys_list_objects {W}.
Arguments sys_copy_object {W}.
Arguments sys_delete_object {W}.
Arguments sys_get_object_tagging {W}.
Arguments sys_put_object_tagging {W}.

(** The [print] statements of the scan path, one constructor each. *)
Inductive Log : Type :=
| LogScanStdout (stdout : string)
| LogScanStderr (stderr : string)
| LogGetTagsFailed (key : string) (e : exn)
| LogMoving (key : string) (dest : Bucket) (status : Status)
| LogAlreadyProcessed (key : string)
| LogFatal (key : string) (e : exn)
| LogDefinitionsDownloaded
| LogDefinitionsExtracted
| LogScanMode
| LogInvalidEvent
| LogIgnoredTrigger (key : string)
| LogNoDataFiles (prefix : string)
| LogDeletingFolder (key : string)
| LogFolderDeleteFailed (key : string) (e : exn)
| LogProcessingBatch (prefix : string) (keys : list string)
| LogScanning (key : string)
| LogInfected (key : string) (detail : option string)
| LogErrorStatus (key : string) (detail : option string)
| LogClean (key : string)
| LogErrorProcessing (key : string) (e : exn)
| LogOversize (key : string) (size : Z)
| LogQuarantineBatch
| LogMovingFolder (key : string)
| LogFolderMoveFailed (key : string) (e : exn)
| LogProcessedBatch
| LogSystemError (e : exn)
| LogQuarantineSystemError
| LogMovingErrorFolder (key : string).

(** The observable behaviour: each external call with its arguments and
    outcome, and each log line, in program order.  [EvKeyError name] marks
    the [KeyError] of [os.environ[name]] for a variable that is unset, an
    exception that no call accounts for. *)
Inductive Ev : Type :=
| EvRun (command : string) (r : exn + (Z * string * string))
| EvMakedirs (path : string) (r : option exn)
| EvRemove (path : string) (r : option exn)
| EvDownload (bucket : Bucket) (key path : string) (r : option exn)
| EvList (bucket : Bucket) (prefix : string) (pages : list Page) (r : option exn)
| EvCopy (dst src : Bucket) (key : string) (r : option exn)
| EvDelete (bucket : Bucket) (key : string) (r : option exn)
| EvGetTags (bucket : Bucket) (key : string) (r : exn + option TagSet)
| EvPutTags (bucket : Bucket) (key : string) (tags : TagSet) (r : option exn)
| EvPrint (l : Log)
| EvKeyError (name : string).

(** The result of a computation: a value, or a raised exception. *)
Inductive Res (A : Type) : Type :=
| Ok (a : A)
| Raise (e : exn).

Arguments Ok {A}.
Arguments Raise {A}.

(** The handler's return value. *)
Record Response : Type := {
  statusCode : Z;
  message : string
}.

(** The trigger event, by what lines 207-215 make of it:
    - [MalformedEvent]: the shape test evaluates to true (a level of
      [Records[0].s3.object.key] is missing, or [Records] is not a
      non-empty list);
    - [S3Event key]: the test evaluates to false and
      [event["Records"][0]["s3"]["object"]["key"]] is the [str] [key];
    - [BrokenEvent e trigger_key]: the test itself, or the call of
      [endswith] on a key that is not a [str], raises [e] (the event
      [{"Records": [None]}] makes ["s3" not in None] raise a [TypeError]);
      [trigger_key] is what the chain of [get] of line 317 then recovers
      from the event, if it recovers anything that can be a dictionary key
      (a key that is not a [str] is shown as its [str()]). *)
Inductive Event : Type :=
| MalformedEvent
| S3Event (key : string)
| BrokenEvent (e : exn) (trigger_key : option string).

Section Handler.

Context {W : Type}.
Variable sys : Sys W.
Variable env : Env.

(** Computations: world in, world out, the events emitted and the result. *)
Definition M (A : Type) : Type := W -> W * list Ev * Res A.

Definition ret {A} (a : A) : M A := fun w => (w, [], Ok a).

Definition bind {A B} (m : M A) (f : A -> M B) : M B :=
  fun w =>
    match m w with
    | (w1, t1, Ok a) =>
        match f a w1 with
        | (w2, t2, r) => (w2, t1 ++ t2, r)
        end
    | (w1, t1, Raise e) => (w1, t1, Raise e)
    end.

Definition raise {A} (e : exn) : M A := fun w => (w, [], Raise e).

(** [try: m except Exception as e: h e] *)
Definition catch {A} (m : M A) (h : exn -> M A) : M A :=
  fun w =>
    match m w with
    | (w1, t1, Ok a) => (w1, t1, Ok a)
    | (w1, t1, Raise e) =>
        match h e w1 with
        | (w2, t2, r) => (w2, t1 ++ t2, r)
        end
    end.

Definition print (l : Log) : M unit := fun w => (w, [EvPrint l], Ok tt).

Definition of_option (r : option exn) : Res unit :=
  match r with
  | None => Ok tt
  | Some e => Raise e
  end.

Definition of_sum {A} (r : exn + A) : Res A :=
  match r with
  | inl e => Raise e
  | inr a => Ok a
  end.

Notation "x <- m ;; k" := (bind m (fun x => k))
  (at level 61, m at next level, right associativity).
Notation "m ;; k" := (bind m (fun _ => k))
  (at level 61, right associativity).

(** [for x in l: body x], stopping at the first exception that escapes. *)
Fixpoint for_each {A} (l : list A) (body : A -> M unit) : M unit :=
  match l with
  | [] => ret tt
  | x :: l' => body x ;; for_each l' body
  end.

(** A [for] loop whose body updates local variables [S]. *)
Fixpoint for_fold {A S} (l : list A) (s : S) (body : A -> S -> M S) : M S :=
  match l with
  | [] => ret s
  | x :: l' => s' <- body x s ;; for_fold l' s' body
  end.

(** *** External calls *)

Definition run_command (command : string) : M (Z * string * string) :=
  fun w => let (w', r) := sys_run_command sys command w in
           (w', [EvRun command r], of_sum r).

Definition makedirs (path : string) : M unit :=
  fun w => let (w', r) := sys_makedirs sys path w in
           (w', [EvMakedirs path r], of_option r).

Definition os_remove (path : string) : M unit :=
  fun w => let (w', r) := sys_remove sys path w in
           (w', [EvRemove path r], of_option r).

Definition download_file (bucket : Bucket) (key path : string) : M unit :=
  fun w => let (w', r) := sys_download_file sys bucket key path w in
           (w', [EvDownload bucket key path r], of_option r).

Definition copy_object (dst src : Bucket) (key : string) : M unit :=
  fun w => let (w', r) := sys_copy_object sys dst src key w in
           (w', [EvCopy dst src key r], of_option r).

Definition delete_object (bucket : Bucket) (key : string) : M unit :=
  fun w => let (w', r) := sys_delete_object sys bucket key w in
           (w', [EvDelete bucket key r], of_option r).

Definition get_object_tagging (bucket : Bucket) (key : string) : M (option TagSet) :=
  fun w => let (w', r) := sys_get_object_tagging sys bucket key w in
           (w', [EvGetTags bucket key r], of_sum r).

Definition put_object_tagging (bucket : Bucket) (key : string) (tags : TagSet) : M unit :=
  fun w => let (w', r) := sys_put_object_tagging sys bucket key tags w in
           (w', [EvPutTags bucket key tags r], of_option r).

(** *** [definition_download] *)

Definition definition_download : M unit :=
  makedirs "/tmp/clamav/database" ;;
  match CLAMAV_DEFINITON_BUCKET_NAME env with
  | Some bucket_name =>
      if String.eqb bucket_name EmptyString
      then raise (OtherError "CLAMAV_DEFINITON_BUCKET_NAME environment variable not set.")
      else
        download_file (Some bucket_name) "clamav.tar.gz" "/tmp/clamav/clamav.tar.gz" ;;
        print LogDefinitionsDownloaded ;;
        _ <- run_command
          "tar --extract --gzip --verbose --file=/tmp/clamav/clamav.tar.gz -C /tmp/clamav/database" ;;
        print LogDefinitionsExtracted
  | None => raise (OtherError "CLAMAV_DEFINITON_BUCKET_NAME environment variable not set.")
  end.

(** *** [run_scan] *)

Definition clamscan_command (file_path : string) : string :=
  "clamscan --database=/tmp/clamav/database " ++ DQUOTE ++ file_path ++ DQUOTE.

Definition run_scan (file_path : string) : M Verdict :=
  r <- run_command (clamscan_command file_path) ;;
  let '(exit_code, stdout, stderr) := r in
  print (LogScanStdout stdout) ;;
  (if String.eqb stderr EmptyString then ret tt else print (LogScanStderr stderr)) ;;
  match scan_outcome exit_code stdout stderr with
  | inr v => ret v
  | inl e => raise e
  end.

(** *** [update_tags] *)

Definition update_tags (bucket_name : Bucket) (object_key : string) (status : Status)
  (detail : option string) : M unit :=
  tags <- catch
            (response <- get_object_tagging bucket_name object_key ;;
             ret (match response with Some ts => ts | None => [] end))
            (fun e =>
               match e with
               | ClientError code _ =>
                   if String.eqb code "NoSuchTaggingSet" then ret []
                   else print (LogGetTagsFailed object_key e) ;; ret []
               | OtherError _ => raise e
               end) ;;
  put_object_tagging bucket_name object_key (merge_tags env tags status detail).

(** *** [move_and_tag_files] *)

(** [e.response['Error']['Code'] in ['404', 'NoSuchKey']] *)
Definition not_found_code (code : string) : bool :=
  String.eqb code "404" || String.eqb code "NoSuchKey".

(** [str(KeyError(name))] *)
Definition key_error (name : string) : exn := OtherError ("'" ++ name ++ "'").

(** [landing_bucket_name = os.environ["LANDING_BUCKET_NAME"]]: the value
    of the variable, a [KeyError] when it is unset. *)
Definition environ_landing_bucket_name : M string :=
  match LANDING_BUCKET_NAME env with
  | Some value => ret value
  | None =>
      fun w => (w, [EvKeyError "LANDING_BUCKET_NAME"],
                Raise (key_error "LANDING_BUCKET_NAME"))
  end.

(** The body of the router's loop for one entry of the map. *)
Definition move_one (destination_bucket : Bucket) (landing_bucket_name : string)
  (entry : string * Verdict) : M unit :=
  let '(object_key, (status, detail)) := entry in
  catch
    (print (LogMoving object_key destination_bucket status) ;;
     copy_object destination_bucket (Some landing_bucket_name) object_key ;;
     delete_object (Some landing_bucket_name) object_key ;;
     update_tags destination_bucket object_key status detail)
    (fun e =>
       match e with
       | ClientError code _ =>
           if not_found_code code then print (LogAlreadyProcessed object_key)
           else print (LogFatal object_key e)
       | OtherError _ => raise e
       end).

Definition move_and_tag_files (destination_bucket : Bucket)
  (scan_results_map : dict Verdict) : M unit :=
  landing_bucket_name <- environ_landing_bucket_name ;;
  for_each scan_results_map (move_one destination_bucket landing_bucket_name).

(** *** [handler], scan mode *)

(** The listing loop: a key ending in ["/"] is a folder placeholder, any
    other key is a file whose size is recorded. *)
Definition collect_object (st : dict Z * list string) (obj : S3Object)
  : dict Z * list string :=
  let '(files_to_process, folder_keys_to_move) := st in
  let '(key, size) := obj in
  if negb (endswith key "/")
  then (set files_to_process key size, folder_keys_to_move)
  else (files_to_process, folder_keys_to_move ++ [key]).

Definition collect_page (st : dict Z * list string) (page : Page)
  : dict Z * list string :=
  match page with
  | Some contents => fold_left collect_object contents st
  | None => st
  end.

Definition collect_pages (pages : list Page) : dict Z * list string :=
  fold_left collect_page pages ([], []).

(** Runs the paginator and fills [files_to_process] and
    [folder_keys_to_move]; an exception of the paginator is returned next to
    what was collected before it, since both variables outlive the [try]. *)
Definition list_batch (prefix : string) : M (dict Z * list string * option exn) :=
  fun w =>
    let '(w', (pages, r)) :=
      sys_list_objects sys (LANDING_BUCKET_NAME env) prefix w in
    (w', [EvList (LANDING_BUCKET_NAME env) prefix pages r], Ok (collect_pages pages, r)).

Definition local_file_path (object_key : string) : string :=
  "/tmp/clamav/scan/" ++ basename object_key.

(** The [try] body of the scan loop for one key; it yields the verdict that
    is stored in [scan_results_map]. *)
Definition scan_file (object_key : string) : M Verdict :=
  if endswith object_key "_commit.json" then ret (Clean, None)
  else
    print (LogScanning object_key) ;;
    download_file (LANDING_BUCKET_NAME env) object_key (local_file_path object_key) ;;
    v <- run_scan (local_file_path object_key) ;;
    match fst v with
    | Infected => print (LogInfected object_key (snd v))
    | Error => print (LogErrorStatus object_key (snd v))
    | Clean => print (LogClean object_key)
    end ;;
    os_remove (local_file_path object_key) ;;
    ret v.

(** Whether a status sets [is_batch_infected_or_error]. *)
Definition flags_batch (s : Status) : bool :=
  match s with
  | Clean => false
  | Infected | Error => true
  end.

(** One iteration of the scan loop on the locals
    [(scan_results_map, is_batch_infected_or_error)].  Whatever the body
    assigned before an exception is overwritten by the handler (same key,
    flag set), so the handler starts from the locals as they were before
    the body. *)
Definition scan_step (object_key : string) (st : dict Verdict * bool)
  : M (dict Verdict * bool) :=
  let '(scan_results_map, flag) := st in
  catch
    (v <- scan_file object_key ;;
     ret (set scan_results_map object_key v, flag || flags_batch (fst v)))
    (fun e =>
       print (LogErrorProcessing object_key e) ;;
       ret (set scan_results_map object_key (Error, Some (str_exn e)), true)).

Definition scan_loop (files_to_process : dict Z) : M (dict Verdict * bool) :=
  for_fold (keys files_to_process) ([], false) scan_step.

Definition oversize_verdict : Verdict := (Error, Some "File exceeds 5GB copy limit").

Definition sweep_step (item : string * Z) (st : dict Verdict * bool)
  : M (dict Verdict * bool) :=
  let '(object_key, size) := item in
  let '(scan_results_map, flag) := st in
  if (size >? FIVE_GB)%Z
  then print (LogOversize object_key size) ;;
       ret (set scan_results_map object_key oversize_verdict, true)
  else ret st.

(** The size sweep, entered only when the flag is still unset. *)
Definition size_sweep (files_to_process : dict Z) (st : dict Verdict * bool)
  : M (dict Verdict * bool) :=
  if snd st then ret st else for_fold files_to_process st sweep_step.

Definition quarantine_folders (line : string -> Log) (folder_keys_to_move : list string)
  : M unit :=
  for_each folder_keys_to_move (fun key =>
    print (line key) ;;
    catch
      (copy_object (QUARANTINE_BUCKET_NAME env) (LANDING_BUCKET_NAME env) key ;;
       delete_object (LANDING_BUCKET_NAME env) key)
      (fun folder_e => print (LogFolderMoveFailed key folder_e))).

Definition delete_folders (folder_keys_to_move : list string) : M unit :=
  for_each folder_keys_to_move (fun key =>
    print (LogDeletingFolder key) ;;
    catch
      (delete_object (LANDING_BUCKET_NAME env) key)
      (fun folder_e => print (LogFolderDeleteFailed key folder_e))).

(** The bucket the batch is sent to. *)
Definition destination (flag : bool) : Bucket :=
  if flag then QUARANTINE_BUCKET_NAME env else PROCESSED_BUCKET_NAME env.

(** The [if is_batch_infected_or_error: ... else: ...] that ends the [try]. *)
Definition route_batch (folder_keys_to_move : list string) (st : dict Verdict * bool)
  : M unit :=
  let '(scan_results_map, flag) := st in
  if flag
  then print LogQuarantineBatch ;;
       move_and_tag_files (QUARANTINE_BUCKET_NAME env) scan_results_map ;;
       quarantine_folders LogMovingFolder folder_keys_to_move
  else print LogProcessedBatch ;;
       move_and_tag_files (PROCESSED_BUCKET_NAME env) scan_results_map ;;
       delete_folders folder_keys_to_move.

(** Size sweep and routing of a scanned batch. *)
Definition decide_and_route (files_to_process : dict Z) (folder_keys_to_move : list string)
  (st : dict Verdict * bool) : M unit :=
  st' <- size_sweep files_to_process st ;;
  route_batch folder_keys_to_move st'.

Definition response (code : Z) (msg : string) : Response :=
  {| statusCode := code; message := msg |}.

(** The [try] body once the listing has succeeded. *)
Definition process_batch (triggering_object_key prefix : string)
  (files_to_process : dict Z) (folder_keys_to_move : list string) : M Response :=
  match files_to_process with
  | [] =>
      print (LogNoDataFiles prefix) ;;
      move_and_tag_files (PROCESSED_BUCKET_NAME env)
        (set [] triggering_object_key (Clean, None)) ;;
      delete_folders folder_keys_to_move ;;
      ret (response 200 "Empty batch processed successfully")
  | _ :: _ =>
      print (LogProcessingBatch prefix (keys files_to_process)) ;;
      makedirs "/tmp/clamav/scan" ;;
      definition_download ;;
      st <- scan_loop files_to_process ;;
      decide_and_route files_to_process folder_keys_to_move st ;;
      ret (response 200 "Batch processed successfully")
  end.

Definition error_results_map (files_to_process : dict Z) (e : exn) : dict Verdict :=
  fold_left
    (fun m key => if mem key m then m else set m key (Error, Some (str_exn e)))
    (keys files_to_process) [].

(** The outer [except Exception as e] handler; [trigger_key] is what
    line 317 recovers from the event, [None] when its [try] fails. *)
Definition system_error_from (trigger_key : option string) (files_to_process : dict Z)
  (folder_keys_to_move : list string) (e : exn) : M Response :=
  print (LogSystemError e) ;;
  let m := error_results_map files_to_process e in
  let m := match m, trigger_key with
           | [], Some key => set m key (Error, Some (str_exn e))
           | _, _ => m
           end in
  print LogQuarantineSystemError ;;
  move_and_tag_files (QUARANTINE_BUCKET_NAME env) m ;;
  quarantine_folders LogMovingErrorFolder folder_keys_to_move ;;
  ret (response 500 ("An error occurred: " ++ str_exn e)).

(** The same for an event whose key is [trigger_key]. *)
Definition system_error (trigger_key : string) (files_to_process : dict Z)
  (folder_keys_to_move : list string) (e : exn) : M Response :=
  system_error_from (Some trigger_key) files_to_process folder_keys_to_move e.

(** [prefix = directory + "/" if directory else ""] *)
Definition batch_prefix (triggering_object_key : string) : string :=
  let directory := dirname triggering_object_key in
  if String.eqb directory EmptyString then EmptyString else directory ++ "/".

(** [handler(event, context)] with [MODE] unset or ["scan"]. *)
Definition handler (event : Event) : M Response :=
  print LogScanMode ;;
  match event with
  | MalformedEvent =>
      print LogInvalidEvent ;;
      ret (response 200 "Event ignored, invalid structure.")
  | S3Event triggering_object_key =>
      if negb (endswith triggering_object_key "_commit.json")
      then print (LogIgnoredTrigger triggering_object_key) ;;
           ret (response 200 "Trigger ignored.")
      else
        let prefix := batch_prefix triggering_object_key in
        listed <- list_batch prefix ;;
        let '(files_to_process, folder_keys_to_move, failure) := listed in
        catch
          match failure with
          | Some e => raise e
          | None => process_batch triggering_object_key prefix
                      files_to_process folder_keys_to_move
          end
          (system_error triggering_object_key files_to_process folder_keys_to_move)
  | BrokenEvent e trigger_key =>
      catch (raise e) (system_error_from trigger_key [] [])
  end.

End Handler.

Arguments M W A : clear implicits.

(** ** An in-memory world

    A small executable [Sys]: a landing bucket, the copies made, the tag
    sets stored on objects, the local scratch files, scripted scanner
    reports and scripted failures of the tag read. *)

Record MemWorld : Type := {
  mw_landing : dict Z;
  mw_copies : list (string * string);
  mw_tags : list (string * string * TagSet);
  mw_scratch : list string;
  mw_reports : dict (Z * string * string);
  mw_tag_faults : dict exn;
  mw_copy_faults : dict exn;
  mw_definitions : bool
}.

Definition mem_env : Env := {|
  LANDING_BUCKET_NAME := Some "landing";
  PROCESSED_BUCKET_NAME := Some "processed";
  QUARANTINE_BUCKET_NAME := Some "quarantine";
  CLAMAV_DEFINITON_BUCKET_NAME := Some "definitions";
  scan_time := "2024-05-01T10:00:00.000000"
|}.

Definition no_such_key : exn :=
  ClientError "NoSuchKey" "An error occurred (NoSuchKey): The specified key does not exist.".

Definition not_found_404 : exn :=
  ClientError "404" "An error occurred (404) when calling the HeadObject operation: Not Found".

Definition with_landing (landing : dict Z) (w : MemWorld) : MemWorld := {|
  mw_landing := landing; mw_copies := mw_copies w; mw_tags := mw_tags w;
  mw_scratch := mw_scratch w; mw_reports := mw_reports w;
  mw_tag_faults := mw_tag_faults w; mw_copy_faults := mw_copy_faults w;
  mw_definitions := mw_definitions w
|}.

Definition with_copies (copied : list (string * string)) (w : MemWorld) : MemWorld := {|
  mw_landing := mw_landing w; mw_copies := copied; mw_tags := mw_tags w;
  mw_scratch := mw_scratch w; mw_reports := mw_reports w;
  mw_tag_faults := mw_tag_faults w; mw_copy_faults := mw_copy_faults w;
  mw_definitions := mw_definitions w
|}.

Definition with_tags (tags : list (string * string * TagSet)) (w : MemWorld) : MemWorld := {|
  mw_landing := mw_landing w; mw_copies := mw_copies w; mw_tags := tags;
  mw_scratch := mw_scratch w; mw_reports := mw_reports w;
  mw_tag_faults := mw_tag_faults w; mw_copy_faults := mw_copy_faults w;
  mw_definitions := mw_definitions w
|}.

Definition with_scratch (scratch : list string) (w : MemWorld) : MemWorld := {|
  mw_landing := mw_landing w; mw_copies := mw_copies w; mw_tags := mw_tags w;
  mw_scratch := scratch; mw_reports := mw_reports w;
  mw_tag_faults := mw_tag_faults w; mw_copy_faults := mw_copy_faults w;
  mw_definitions := mw_definitions w
|}.

Definition with_copy_faults (faults : dict exn) (w : MemWorld) : MemWorld := {|
  mw_landing := mw_landing w; mw_copies := mw_copies w; mw_tags := mw_tags w;
  mw_scratch := mw_scratch w; mw_reports := mw_reports w;
  mw_tag_faults := mw_tag_faults w; mw_copy_faults := faults;
  mw_definitions := mw_definitions w
|}.

Definition remove_key {V} (k : string) (d : dict V) : dict V :=
  filter (fun kv => negb (String.eqb (fst kv) k)) d.

Definition same_object (bucket key : string) (entry : string * string * TagSet) : bool :=
  String.eqb (fst (fst entry)) bucket && String.eqb (snd (fst entry)) key.

Definition mem_run_command (command : string) (w : MemWorld)
  : MemWorld * (exn + (Z * string * string)) :=
  match find (fun pr => String.eqb (clamscan_command (fst pr)) command) (mw_reports w) with
  | Some (_, report) => (w, inr report)
  | None => (w, inr (0%Z, EmptyString, EmptyString))
  end.

Definition mem_remove (path : string) (w : MemWorld) : MemWorld * option exn :=
  if existsb (String.eqb path) (mw_scratch w)
  then (with_scratch (filter (fun p => negb (String.eqb p path)) (mw_scratch w)) w, None)
  else (w, Some (OtherError "[Errno 2] No such file or directory")).

(** What the in-memory store answers to a call without a bucket name. *)
Definition no_bucket : exn :=
  OtherError "Parameter validation failed: Invalid type for parameter Bucket, value: None".

Definition mem_download_file (bucket : Bucket) (key path : string) (w : MemWorld)
  : MemWorld * option exn :=
  match bucket with
  | Some name =>
      let present :=
        if String.eqb name "definitions" then mw_definitions w
        else mem key (mw_landing w) in
      if present then (with_scratch (mw_scratch w ++ [path]) w, None)
      else (w, Some not_found_404)
  | None => (w, Some no_bucket)
  end.

Definition mem_list_objects (bucket : Bucket) (prefix : string) (w : MemWorld)
  : MemWorld * (list Page * option exn) :=
  match bucket with
  | Some _ =>
      match filter (fun obj => startswith (fst obj) prefix) (mw_landing w) with
      | [] => (w, ([None], None))
      | contents => (w, ([Some contents], None))
      end
  | None => (w, ([], Some no_bucket))
  end.

(** A scripted copy fault fires once. *)
Definition mem_copy_object (dst src : Bucket) (key : string) (w : MemWorld)
  : MemWorld * option exn :=
  match dst, src with
  | Some dst_name, Some _ =>
      match get (mw_copy_faults w) key with
      | Some e => (with_copy_faults (remove_key key (mw_copy_faults w)) w, Some e)
      | None =>
          if mem key (mw_landing w)
          then (with_copies (mw_copies w ++ [(dst_name, key)]) w, None)
          else (w, Some no_such_key)
      end
  | _, _ => (w, Some no_bucket)
  end.

Definition mem_delete_object (bucket : Bucket) (key : string) (w : MemWorld)
  : MemWorld * option exn :=
  match bucket with
  | Some _ => (with_landing (remove_key key (mw_landing w)) w, None)
  | None => (w, Some no_bucket)
  end.

Definition mem_get_object_tagging (bucket : Bucket) (key : string) (w : MemWorld)
  : MemWorld * (exn + option TagSet) :=
  match bucket with
  | Some name =>
      match get (mw_tag_faults w) key with
      | Some e => (w, inl e)
      | None =>
          match find (same_object name key) (mw_tags w) with
          | Some (_, ts) => (w, inr (Some ts))
          | None => (w, inr (Some []))
          end
      end
  | None => (w, inl no_bucket)
  end.

(** Writing a tag set replaces the one stored on the object. *)
Definition mem_put_object_tagging (bucket : Bucket) (key : string) (tags : TagSet)
  (w : MemWorld) : MemWorld * option exn :=
  match bucket with
  | Some name =>
      (with_tags
         (filter (fun entry => negb (same_object name key entry)) (mw_tags w)
          ++ [(name, key, tags)]) w,
       None)
  | None => (w, Some no_bucket)
  end.

Definition mem_sys : Sys MemWorld := {|
  sys_run_command := mem_run_command;
  sys_makedirs := fun _ w => (w, None);
  sys_remove := mem_remove;
  sys_download_file := mem_download_file;
  sys_list_objects := mem_list_objects;
  sys_copy_object := mem_copy_object;
  sys_delete_object := mem_delete_object;
  sys_get_object_tagging := mem_get_object_tagging;
  sys_put_object_tagging := mem_put_object_tagging
|}.

(** A world holding [landing], with every scan clean unless scripted. *)
Definition mem_world (landing : dict Z) (reports : dict (Z * string * string))
  (definitions : bool) : MemWorld := {|
  mw_landing := landing;
  mw_copies := [];
  mw_tags := [];
  mw_scratch := [];
  mw_reports := reports;
  mw_tag_faults := [];
  mw_copy_faults := [];
  mw_definitions := definitions
|}.

(** The status code of the response, when the handler returned one. *)
Definition statusCode_of (r : Res Response) : option Z :=
  match r with
  | Ok resp => Some (statusCode resp)
  | Raise _ => None
  end.

(** Projections of a run. *)
Definition trace_of {W A} (r : W * list Ev * Res A) : list Ev := snd (fst r).
Definition result_of {W A} (r : W * list Ev * Res A) : Res A := snd r.
Definition world_of {W A} (r : W * list Ev * Res A) : W := fst (fst r).

(** ** Reading a run *)

(** The copies attempted in a trace: [(destination, source, key)]. *)
Fixpoint copies (t : list Ev) : list (Bucket * Bucket * string) :=
  match t with
  | [] => []
  | EvCopy dst src key _ :: t' => (dst, src, key) :: copies t'
  | _ :: t' => copies t'
  end.

(** The deletions attempted in a trace: [(bucket, key)]. *)
Fixpoint deletes (t : list Ev) : list (Bucket * string) :=
  match t with
  | [] => []
  | EvDelete bucket key _ :: t' => (bucket, key) :: deletes t'
  | _ :: t' => deletes t'
  end.

(** The local files created by a download and those removed, in a trace. *)
Fixpoint downloads (t : list Ev) : list string :=
  match t with
  | [] => []
  | EvDownload _ _ path None :: t' => path :: downloads t'
  | _ :: t' => downloads t'
  end.

Fixpoint removals (t : list Ev) : list string :=
  match t with
  | [] => []
  | EvRemove path _ :: t' => path :: removals t'
  | _ :: t' => removals t'
  end.

Definition other_error (r : option exn) : bool :=
  match r with
  | Some (OtherError _) => true
  | _ => false
  end.

Definition other_error_sum {A} (r : exn + A) : bool :=
  match r with
  | inl (OtherError _) => true
  | _ => false
  end.

(** Whether an event records that something other than a storage
    [ClientError] was raised: by a call, or by the lookup of an unset
    variable in the environment. *)
Definition raises_other (ev : Ev) : bool :=
  match ev with
  | EvRun _ r => other_error_sum r
  | EvGetTags _ _ r => other_error_sum r
  | EvMakedirs _ r | EvRemove _ r | EvDownload _ _ _ r | EvList _ _ _ r
  | EvCopy _ _ _ r | EvDelete _ _ r | EvPutTags _ _ _ r => other_error r
  | EvPrint _ => false
  | EvKeyError _ => true
  end.

(** The line the router is to log for a storage error on [key]: with the
    code ["404"] or ["NoSuchKey"] the source object was not found, another
    invocation has already moved it; any other code is fatal for that
    key. *)
Definition move_log (key : string) (e : exn) : Log :=
  match e with
  | ClientError code _ =>
      if String.eqb code "404" then LogAlreadyProcessed key
      else if String.eqb code "NoSuchKey" then LogAlreadyProcessed key
      else LogFatal key e
  | OtherError _ => LogFatal key e
  end.

Definition failure_log (key : string) (r : option exn) : list Ev :=
  match r with
  | Some e => [EvPrint (move_log key e)]
  | None => []
  end.

(** The tag set [update_tags] starts from, and what it logs, for each
    outcome of the read. *)
Definition tags_read (r : exn + option TagSet) : TagSet :=
  match r with
  | inr (Some ts) => ts
  | _ => []
  end.

Definition read_log (key : string) (r : exn + option TagSet) : list Ev :=
  match r with
  | inl (ClientError code msg) =>
      if String.eqb code "NoSuchTaggingSet" then []
      else [EvPrint (LogGetTagsFailed key (ClientError code msg))]
  | _ => []
  end.

(** The ways the router can deal with one entry when every failure is a
    storage error: the copy fails, the delete fails, or both succeed and the
    object is tagged.  Each failure is logged for that key and nothing is
    raised. *)
Inductive key_routed (env : Env) (dest : Bucket) (landing : string)
  : string * Verdict -> list Ev -> Prop :=
| routed_copy_failed key status detail e :
    is_client_error e = true ->
    key_routed env dest landing (key, (status, detail))
      [EvPrint (LogMoving key dest status);
       EvCopy dest (Some landing) key (Some e);
       EvPrint (move_log key e)]
| routed_delete_failed key status detail e :
    is_client_error e = true ->
    key_routed env dest landing (key, (status, detail))
      [EvPrint (LogMoving key dest status);
       EvCopy dest (Some landing) key None;
       EvDelete (Some landing) key (Some e);
       EvPrint (move_log key e)]
| routed_tagged key status detail read written :
    other_error_sum read = false ->
    other_error written = false ->
    key_routed env dest landing (key, (status, detail))
      ([EvPrint (LogMoving key dest status);
        EvCopy dest (Some landing) key None;
        EvDelete (Some landing) key None;
        EvGetTags dest key read]
       ++ read_log key read
       ++ [EvPutTags dest key (merge_tags env (tags_read read) status detail) written]
       ++ failure_log key written).

Section Verdicts.

Context {W : Type}.
Variable sys : Sys W.
Variable env : Env.

(** The verdict a key ends with: what its own [try] body returned, or the
    error made of the exception that body raised. *)
Definition key_verdict (key : string) (w : W) : Verdict :=
  match result_of (scan_file sys env key w) with
  | Ok v => v
  | Raise e => (Error, Some (str_exn e))
  end.

(** The world once the loop is done with [key]. *)
Definition after_key (key : string) (w : W) : W :=
  world_of (scan_step sys env key ([], false) w).

(** The verdicts of the keys scanned one after the other from [w]. *)
Fixpoint key_verdicts (ks : list string) (w : W) : dict Verdict :=
  match ks with
  | [] => []
  | k :: ks' => (k, key_verdict k w) :: key_verdicts ks' (after_key k w)
  end.

Fixpoint after_keys (ks : list string) (w : W) : W :=
  match ks with
  | [] => w
  | k :: ks' => after_keys ks' (after_key k w)
  end.

End Verdicts.

(** Whether a recorded verdict forces quarantine, and whether a listed file
    is above the copy limit. *)
Definition bad_verdict (entry : string * Verdict) : bool :=
  flags_batch (fst (snd entry)).

Definition oversize (item : string * Z) : bool := (snd item >? FIVE_GB)%Z.

(** The map the size sweep leaves when it runs: every oversize file is set
    to the size-limit error. *)
Definition swept (files : dict Z) (m : dict Verdict) : dict Verdict :=
  fold_left
    (fun m item => if oversize item then set m (fst item) oversize_verdict else m)
    files m.

(** ** Sample inputs *)

(** An error message of more than 250 characters with line breaks. *)
Definition sample_long_detail : string :=
  "Traceback (most recent call last):" ++ LF ++ "  File handler.py, line 258" ++ CR ++ LF
  ++ string_of_list_ascii (List.repeat "x"%char 300).

(** The scanner's report for an infected file. *)
Definition sample_report : string :=
  "/tmp/clamav/scan/a.txt: Win.Test.EICAR_HDB-1 FOUND" ++ LF ++ LF
  ++ "----------- SCAN SUMMARY -----------" ++ LF ++ "Infected files: 1" ++ LF.

(** The report for a file whose name holds a colon-space. *)
Definition sample_report_colon : string :=
  "/tmp/clamav/scan/report: final.pdf: Eicar-Test-Signature FOUND".

(** A batch whose infected file has a colon-space in its name. *)
Definition sample_colon_world : MemWorld :=
  mem_world
    [("b/report: final.pdf", 120%Z); ("b/_commit.json", 2%Z)]
    [("/tmp/clamav/scan/report: final.pdf", (1%Z, sample_report_colon, EmptyString))]
    true.

(** A batch with one infected file, one clean file and the marker. *)
Definition sample_infected_world : MemWorld :=
  mem_world
    [("2024/05/batchA/a.txt", 120%Z); ("2024/05/batchA/b.txt", 68%Z);
     ("2024/05/batchA/_commit.json", 2%Z)]
    [("/tmp/clamav/scan/a.txt", (1%Z, sample_report, EmptyString))]
    true.

(** A clean batch: one file, one folder placeholder and the marker. *)
Definition sample_clean_listing : dict Z :=
  [("b/a.txt", 10%Z); ("b/sub/", 0%Z); ("b/_commit.json", 2%Z)].

Definition sample_clean_world : MemWorld := mem_world sample_clean_listing [] true.

(** A batch made of the commit marker and a folder placeholder, in a
    deployment whose definitions archive has not been uploaded yet. *)
Definition sample_marker_only_world : MemWorld :=
  mem_world [("b/sub/", 0%Z); ("b/_commit.json", 2%Z)] [] false.

(** A batch whose file makes the scanner exit with status 2. *)
Definition sample_scan_error_world : MemWorld :=
  mem_world [("b/a.txt", 10%Z); ("b/_commit.json", 2%Z)]
    [("/tmp/clamav/scan/a.txt", (2%Z, EmptyString, "LibClamAV Error: cli_loaddbdir"))]
    true.

(** A file map with a commit marker above the copy limit. *)
Definition sample_big_marker : dict Z :=
  [("b/a.txt", 10%Z); ("b/_commit.json", (FIVE_GB + 1)%Z)].

(** A listed file that is gone from the landing bucket by the time it is
    downloaded, next to an infected file and the marker. *)
Definition sample_gone_files : dict Z :=
  [("2024/05/batchA/gone.txt", 7%Z); ("2024/05/batchA/a.txt", 120%Z);
   ("2024/05/batchA/_commit.json", 2%Z)].

(** A scan-result map whose first key was already moved by another
    invocation. *)
Definition sample_rerun_map : dict Verdict :=
  [("2024/05/batchA/gone.txt", (Clean, None));
   ("2024/05/batchA/a.txt", (Infected, Some "Win.Test.EICAR_HDB-1"))].

Definition access_denied : exn :=
  ClientError "AccessDenied"
    "An error occurred (AccessDenied) when calling the GetObjectTagging operation: Access Denied".



(** A world in which [b/a.txt] already sits in the processed bucket with a
    tag of its owner, and reading its tags is denied. *)
Definition sample_denied_world : MemWorld := {|
  mw_landing := sample_clean_listing;
  mw_copies := [];
  mw_tags := [("processed", "b/a.txt", [("owner", "etl")])];
  mw_scratch := [];
  mw_reports := [];
  mw_tag_faults := [("b/a.txt", access_denied)];
  mw_copy_faults := [];
  mw_definitions := true
|}.

(** A clean batch of two files in which the copy of the second file is cut
    by a connection error, which is not a storage [ClientError]. *)
Definition sample_cut_world : MemWorld :=
  with_copy_faults
    [("b/b.txt", OtherError "Could not connect to the endpoint URL")]
    (mem_world [("b/a.txt", 10%Z); ("b/b.txt", 20%Z); ("b/_commit.json", 2%Z)] [] true).

(** The keys a scan can write. *)
Definition scan_tag_keys : list string :=
  ["scan-result"; "scan-time"; "virus-name"; "scan-error"].

(** What the listing loop maintains: the file map has no repeated key, no
    file key ends in a slash and every folder key does. *)
Definition listing_ok (st : dict Z * list string) : Prop :=
  NoDup (keys (fst st))
  /\ (forall k, In k (keys (fst st)) -> endswith k "/" = false)
  /\ (forall k, In k (snd st) -> endswith k "/" = true).

(** A report line the parsing loop passes over: it fails the line test, or
    it holds no colon-space (the [IndexError] case). *)
Definition passed_over (line : string) : Prop :=
  endswith (strip line) " FOUND" = true -> contains line ": " = false.

(** The two tags every scan writes. *)
Definition base_tags (env : Env) (status : Status) : dict string :=
  [("scan-result", status_str status); ("scan-time", scan_time env)].

(** ** Statements compared with the code

    Properties worded after the documentation; each is held against the
    definitions above. *)

(** The signature name is the text between the first colon-space of the
    report line and its closing marker (up to surrounding blanks). *)
Definition name_between_colon_and_marker : Prop :=
  forall path mid rest stdout stderr,
    split stdout LF = (path ++ ": " ++ mid ++ " FOUND")%string :: rest ->
    contains path ": " = false ->
    scan_outcome 1 stdout stderr = inr (Infected, Some (strip mid)).

(** The size sweep never touches the verdict of a commit marker. *)
Definition marker_exempt_from_sweep : Prop :=
  forall (W : Type) (files : dict Z) (m m' : dict Verdict) (flag q : bool) (w : W) key,
    endswith key "_commit.json" = true ->
    get m key = Some (Clean, None) ->
    result_of (size_sweep files (m, flag) w) = Ok (m', q) ->
    get m' key = Some (Clean, None).

(** When the routing step returns, every member of the batch, folder
    placeholders included, has been copied to the destination of the
    decision. *)
Definition every_member_copied_to_destination : Prop :=
  forall (W : Type) (sys : Sys W) (env : Env) (pages : list Page) (w0 : W),
    let files := fst (collect_pages pages) in
    let folders := snd (collect_pages pages) in
    let m := key_verdicts sys env (keys files) w0 in
    let w := after_keys sys env (keys files) w0 in
    let quarantine := existsb bad_verdict m || existsb oversize files in
    let run := decide_and_route sys env files folders (m, existsb bad_verdict m) w in
    result_of run = Ok tt ->
    forall key, In key (keys files ++ folders) ->
      In (destination env quarantine, LANDING_BUCKET_NAME env, key) (copies (trace_of run)).

(** ** The rest of the handler

    Readings of a trace used for the scan path as a whole, and the
    definition-upload mode with the dispatch on [MODE]. *)

(** The keys whose copy succeeded, and the deletions that succeeded. *)
Fixpoint copied_ok (t : list Ev) : list string :=
  match t with
  | [] => []
  | EvCopy _ _ key None :: t' => key :: copied_ok t'
  | _ :: t' => copied_ok t'
  end.

Fixpoint deleted_ok (t : list Ev) : list (Bucket * string) :=
  match t with
  | [] => []
  | EvDelete bucket key None :: t' => (bucket, key) :: deleted_ok t'
  | _ :: t' => deleted_ok t'
  end.

(** The tag sets written: [(bucket, key, tags)]. *)
Fixpoint tag_writes (t : list Ev) : list (Bucket * string * TagSet) :=
  match t with
  | [] => []
  | EvPutTags bucket key tags _ :: t' => (bucket, key, tags) :: tag_writes t'
  | _ :: t' => tag_writes t'
  end.

(** The downloads attempted: [(bucket, key, path)]. *)
Fixpoint download_attempts (t : list Ev) : list (Bucket * string * string) :=
  match t with
  | [] => []
  | EvDownload bucket key path _ :: t' => (bucket, key, path) :: download_attempts t'
  | _ :: t' => download_attempts t'
  end.

(** The commands run and the listings made. *)
Fixpoint commands (t : list Ev) : list string :=
  match t with
  | [] => []
  | EvRun command _ :: t' => command :: commands t'
  | _ :: t' => commands t'
  end.

Fixpoint listings (t : list Ev) : list (Bucket * string) :=
  match t with
  | [] => []
  | EvList bucket prefix _ _ :: t' => (bucket, prefix) :: listings t'
  | _ :: t' => listings t'
  end.

(** An event that records a call to the outside. *)
Definition is_call (ev : Ev) : bool :=
  match ev with
  | EvPrint _ | EvKeyError _ => false
  | _ => true
  end.

(** Whether the routing raised something that is not a storage
    [ClientError]: in a copy, delete or tagging call, or in the router's
    lookup of the landing bucket variable. *)
Definition routing_raises_other (ev : Ev) : bool :=
  match ev with
  | EvGetTags _ _ r => other_error_sum r
  | EvCopy _ _ _ r | EvDelete _ _ r | EvPutTags _ _ _ r => other_error r
  | EvKeyError _ => true
  | _ => false
  end.

(** Whether a tag has the given key. *)
Definition has_key (key : string) (t : Tag) : bool := String.eqb (fst t) key.

(** The deletions of a trace are those of the keys whose copy succeeded. *)
Definition deletes_follow_copies (env : Env) (t : list Ev) : Prop :=
  deletes t = map (fun key => (LANDING_BUCKET_NAME env, key)) (copied_ok t).

(** Every tag write of a trace is on [dest], for an entry of [m] that was
    copied and deleted, with the status of that entry. *)
Definition tagged_after_move (env : Env) (dest : Bucket) (m : dict Verdict)
  (t : list Ev) : Prop :=
  forall bucket key tags,
    In (bucket, key, tags) (tag_writes t) ->
    bucket = dest
    /\ In key (copied_ok t)
    /\ In (LANDING_BUCKET_NAME env, key) (deleted_ok t)
    /\ exists status detail,
         In (key, (status, detail)) m
         /\ In ("scan-result", status_str status) tags.

(** The objects of a listing, page after page. *)
Definition listed (pages : list Page) : list S3Object :=
  flat_map (fun page : Page => match page with Some contents => contents | None => [] end)
    pages.

Definition is_folder (obj : S3Object) : bool := endswith (fst obj) "/".

Definition is_marker (key : string) : bool := endswith key "_commit.json".

(** *** Definition-upload mode and the dispatch on [MODE] *)

(** [os.environ.get("MODE")] and [os.environ.get("LAMBDA_TASK_ROOT")]. *)
Record ModeEnv : Type := {
  MODE : option string;
  LAMBDA_TASK_ROOT : option string
}.

(** The [print] statements of [definition_upload] and of the dispatch. *)
Inductive UploadLog : Type :=
| LogDownloadingDefinitions
| LogFreshclamStdout (out : string)
| LogFreshclamStderr (err : string)
| LogArchiving
| LogUploading (bucket : string)
| LogUploaded
| LogUploadS3Error (e : exn)
| LogUploadError (e : exn)
| LogReceivedEvent (event : Event)
| LogUploadMode
| LogUploadFailed (e : exn)
| LogTraceback (e : exn)
| LogInvalidMode (mode : string).

(** Events of the whole entry point: those of the scan path, the upload of
    the archive, and the log lines above. *)
Inductive TopEv : Type :=
| InScan (ev : Ev)
| TopUpload (path bucket key : string) (r : option exn)
| TopPrint (l : UploadLog).

Fixpoint uploads (t : list TopEv) : list (string * string * string) :=
  match t with
  | [] => []
  | TopUpload path bucket key _ :: t' => (path, bucket, key) :: uploads t'
  | _ :: t' => uploads t'
  end.

Fixpoint top_commands (t : list TopEv) : list string :=
  match t with
  | [] => []
  | InScan (EvRun command _) :: t' => command :: top_commands t'
  | _ :: t' => top_commands t'
  end.

Definition top_is_call (ev : TopEv) : bool :=
  match ev with
  | InScan ev' => is_call ev'
  | TopUpload _ _ _ _ => true
  | TopPrint _ => false
  end.

Definition top_trace_of {W A} (r : W * list TopEv * Res A) : list TopEv := snd (fst r).
Definition top_result_of {W A} (r : W * list TopEv * Res A) : Res A := snd r.
Definition top_world_of {W A} (r : W * list TopEv * Res A) : W := fst (fst r).

(** The [freshclam] configuration file and the archiving command. *)
Definition clamav_config (menv : ModeEnv) : string :=
  (match LAMBDA_TASK_ROOT menv with
   | Some root => root
   | None => "/var/task"
   end ++ "/freshclam.conf")%string.

Definition tar_create : string :=
  "tar --create --gzip --verbose --file=/tmp/clamav/clamav.tar.gz -C /tmp/clamav/database .".

Section Dispatch.

Context {W : Type}.
Variable sys : Sys W.
(** [s3_client.upload_file(path, bucket, key)] *)
Variable sys_upload_file : string -> string -> string -> W -> W * option exn.
Variable env : Env.
Variable menv : ModeEnv.

Definition T (A : Type) : Type := W -> W * list TopEv * Res A.

Definition tret {A} (a : A) : T A := fun w => (w, [], Ok a).

Definition tbind {A B} (m : T A) (f : A -> T B) : T B :=
  fun w =>
    match m w with
    | (w1, t1, Ok a) =>
        match f a w1 with
        | (w2, t2, r) => (w2, t1 ++ t2, r)
        end
    | (w1, t1, Raise e) => (w1, t1, Raise e)
    end.

Definition traise {A} (e : exn) : T A := fun w => (w, [], Raise e).

Definition tcatch {A} (m : T A) (h : exn -> T A) : T A :=
  fun w =>
    match m w with
    | (w1, t1, Ok a) => (w1, t1, Ok a)
    | (w1, t1, Raise e) =>
        match h e w1 with
        | (w2, t2, r) => (w2, t1 ++ t2, r)
        end
    end.

(** A computation of the scan path, run at the entry point. *)
Definition lift {A} (m : M W A) : T A :=
  fun w => match m w with (w1, t1, r) => (w1, map InScan t1, r) end.

Definition tprint (l : UploadLog) : T unit := fun w => (w, [TopPrint l], Ok tt).

Definition upload_file (path bucket key : string) : T unit :=
  fun w => let (w', r) := sys_upload_file path bucket key w in
           (w', [TopUpload path bucket key r], of_option r).

Notation "x <- m ;; k" := (tbind m (fun x => k))
  (at level 61, m at next level, right associativity).
Notation "m ;; k" := (tbind m (fun _ => k))
  (at level 61, right associativity).

Definition freshclam_command (user_id clamav_config : string) : string :=
  "freshclam --verbose --user " ++ user_id ++ " --config-file="
  ++ DQUOTE ++ clamav_config ++ DQUOTE.

Definition freshclam_failed (code : Z) : exn :=
  OtherError ("Freshclam failed with exit code " ++ str_of_Z code).

Definition bucket_not_set : exn :=
  OtherError "CLAMAV_DEFINITON_BUCKET_NAME environment variable not set.".

(** The [try] body of [definition_upload]. *)
Definition definition_upload_body : T unit :=
  lift (makedirs sys "/tmp/clamav/database") ;;
  tprint LogDownloadingDefinitions ;;
  id_result <- lift (run_command sys "id --user") ;;
  let user_id := strip (snd (fst id_result)) in
  r <- lift (run_command sys (freshclam_command user_id (clamav_config menv))) ;;
  let '(code, out, err) := r in
  tprint (LogFreshclamStdout out) ;;
  (if String.eqb err EmptyString then tret tt else tprint (LogFreshclamStderr err)) ;;
  if negb (code =? 0)%Z then traise (freshclam_failed code)
  else
    tprint LogArchiving ;;
    _ <- lift (run_command sys tar_create) ;;
    match CLAMAV_DEFINITON_BUCKET_NAME env with
    | Some bucket_name =>
        if String.eqb bucket_name EmptyString then traise bucket_not_set
        else
          tprint (LogUploading bucket_name) ;;
          upload_file "/tmp/clamav/clamav.tar.gz" bucket_name "clamav.tar.gz" ;;
          tprint LogUploaded
    | None => traise bucket_not_set
    end.

(** [definition_upload]: both [except] clauses log and re-raise. *)
Definition definition_upload : T unit :=
  tcatch definition_upload_body
    (fun e =>
       match e with
       | ClientError _ _ => tprint (LogUploadS3Error e) ;; traise e
       | OtherError _ => tprint (LogUploadError e) ;; traise e
       end).

(** [handler(event, context)], with the check of [MODE] that comes first.
    [traceback.print_exc()] is a line of the log like the prints. *)
Definition handler_by_mode (event : Event) : T Response :=
  tprint (LogReceivedEvent event) ;;
  let mode := match MODE menv with Some m => m | None => "scan" end in
  if String.eqb mode "definition-upload" then
    tprint LogUploadMode ;;
    tcatch
      (definition_upload ;;
       tret (response 200 "Definition upload successful."))
      (fun e =>
         tprint (LogUploadFailed e) ;;
         tprint (LogTraceback e) ;;
         tret (response 500 ("Definition upload failed: " ++ str_exn e)))
  else if String.eqb mode "scan" then lift (handler sys env event)
  else
    tprint (LogInvalidMode mode) ;;
    tret (response 400 ("Invalid MODE: " ++ mode)).

End Dispatch.

Arguments T W A : clear implicits.

(** An upload into the in-memory world leaves it as it is. *)
Definition mem_upload_file (path bucket key : string) (w : MemWorld)
  : MemWorld * option exn := (w, None).

Definition upload_menv : ModeEnv :=
  {| MODE := Some "definition-upload"; LAMBDA_TASK_ROOT := None |}.

(** The process environment without a definitions bucket. *)
Definition unset_env : Env := {|
  LANDING_BUCKET_NAME := Some "landing";
  PROCESSED_BUCKET_NAME := Some "processed";
  QUARANTINE_BUCKET_NAME := Some "quarantine";
  CLAMAV_DEFINITON_BUCKET_NAME := None;
  scan_time := "2024-05-01T10:00:00.000000"
|}.

(** The [TypeError] of ["s3" not in None], raised by the shape test on the
    event [{"Records": [None]}]. *)
Definition none_not_iterable : exn :=
  OtherError "argument of type 'NoneType' is not iterable".

(** The process environment without a landing bucket. *)
Definition no_landing_env : Env := {|
  LANDING_BUCKET_NAME := None;
  PROCESSED_BUCKET_NAME := Some "processed";
  QUARANTINE_BUCKET_NAME := Some "quarantine";
  CLAMAV_DEFINITON_BUCKET_NAME := Some "definitions";
  scan_time := "2024-05-01T10:00:00.000000"
|}.

(** The in-memory system with a [tar] that exits with status 2. *)
Definition failing_tar_sys : Sys MemWorld := {|
  sys_run_command := fun command w =>
    if startswith command "tar"
    then (w, inr (2%Z, EmptyString, "tar: Unexpected EOF in archive"))
    else mem_run_command command w;
  sys_makedirs := sys_makedirs mem_sys;
  sys_remove := sys_remove mem_sys;
  sys_download_file := sys_download_file mem_sys;
  sys_list_objects := sys_list_objects mem_sys;
  sys_copy_object := sys_copy_object mem_sys;
  sys_delete_object := sys_delete_object mem_sys;
  sys_get_object_tagging := sys_get_object_tagging mem_sys;
  sys_put_object_tagging := sys_put_object_tagging mem_sys
|}.

(** The in-memory system with a [freshclam] that exits with [code]. *)
Definition freshclam_sys (code : Z) : Sys MemWorld := {|
  sys_run_command := fun command w =>
    if startswith command "freshclam"
    then (w, inr (code, "ClamAV update process started", EmptyString))
    else mem_run_command command w;
  sys_makedirs := sys_makedirs mem_sys;
  sys_remove := sys_remove mem_sys;
  sys_download_file := sys_download_file mem_sys;
  sys_list_objects := sys_list_objects mem_sys;
  sys_copy_object := sys_copy_object mem_sys;
  sys_delete_object := sys_delete_object mem_sys;
  sys_get_object_tagging := sys_get_object_tagging mem_sys;
  sys_put_object_tagging := sys_put_object_tagging mem_sys
|}.

(** * Properties *)

Example FIVE_GB_bytes : FIVE_GB = (5 * 1024 ^ 3)%Z.
Proof. reflexivity. Qed.

(** ** Strings *)

Section StringFacts.

Lemma append_assoc (a b c : string) : ((a ++ b) ++ c = a ++ (b ++ c))%string.
Proof. induction a as [|x a IH]; simpl; [reflexivity | now rewrite IH]. Qed.

Lemma has_char_append c (a b : string) :
  has_char c (a ++ b) = has_char c a || has_char c b.
Proof.
  induction a as [|x a IH]; simpl; [reflexivity|].
  rewrite IH. now rewrite orb_assoc.
Qed.

Lemma take_length n s : String.length (take n s) <= n.
Proof.
  revert s. induction n as [|n IH]; intros [|c s]; simpl; try lia.
  specialize (IH s). lia.
Qed.

Lemma has_char_take c n s : has_char c s = false -> has_char c (take n s) = false.
Proof.
  revert s. induction n as [|n IH]; intros [|d s]; simpl; try reflexivity.
  intros H. apply orb_false_iff in H as [H1 H2].
  rewrite H1. simpl. now apply IH.
Qed.

(** Replacing a one-character pattern removes that character, provided the
    replacement does not bring it back. *)
Lemma replace_removes_char c new s :
  has_char c new = false ->
  has_char c (replace s (String c EmptyString) new) = false.
Proof.
  intros Hnew. unfold replace.
  induction s as [|d s IH]; simpl; [reflexivity|].
  rewrite andb_true_r.
  destruct (Ascii.eqb c d) eqn:E.
  - rewrite has_char_append, Hnew. exact IH.
  - simpl. rewrite E. exact IH.
Qed.

(** A replacement only outputs characters of its input and of [new]. *)
Lemma replace_keeps_absent c old new s k :
  has_char c s = false -> has_char c new = false ->
  has_char c (replace_from old new k s) = false.
Proof.
  intros Hs Hnew. revert k.
  induction s as [|d s IH]; intros k; simpl; [reflexivity|].
  simpl in Hs. apply orb_false_iff in Hs as [Hd Hs].
  destruct k as [|k]; [|now apply IH].
  destruct (startswith (String d s) old).
  - rewrite has_char_append, Hnew. now apply IH.
  - simpl. rewrite Hd. now apply IH.
Qed.

Lemma safe_error_spec detail :
  String.length (safe_error detail) <= 250
  /\ has_char (ascii_of_nat 10) (safe_error detail) = false
  /\ has_char (ascii_of_nat 13) (safe_error detail) = false.
Proof.
  unfold safe_error. split; [apply take_length|]. split.
  - apply has_char_take. unfold replace at 1.
    apply replace_keeps_absent; [|reflexivity].
    apply replace_removes_char. reflexivity.
  - apply has_char_take. apply replace_removes_char. reflexivity.
Qed.

End StringFacts.

(** ** Dictionaries *)

Section DictFacts.

Context {V : Type}.

Lemma mem_In (k : string) (d : dict V) : mem k d = true <-> In k (keys d).
Proof.
  unfold mem. rewrite existsb_exists. split.
  - intros [x [Hin Heq]]. apply String.eqb_eq in Heq. now subst.
  - intros Hin. exists k. split; [exact Hin | apply String.eqb_refl].
Qed.

Lemma mem_false_In (k : string) (d : dict V) : mem k d = false <-> ~ In k (keys d).
Proof.
  rewrite <- mem_In. destruct (mem k d); split; intros H; congruence.
Qed.

Lemma keys_set_fresh (d : dict V) k v :
  ~ In k (keys d) -> set d k v = d ++ [(k, v)].
Proof.
  induction d as [|[k' v'] d IH]; simpl; intros H; [reflexivity|].
  destruct (String.eqb_spec k' k) as [->|Hne].
  - exfalso. apply H. now left.
  - rewrite IH; [reflexivity|]. intros Hin. apply H. now right.
Qed.

Lemma keys_set_present (d : dict V) k v :
  In k (keys d) -> keys (set d k v) = keys d.
Proof.
  induction d as [|[k' v'] d IH]; simpl; intros H; [contradiction|].
  destruct (String.eqb_spec k' k) as [->|Hne]; simpl; [reflexivity|].
  f_equal. apply IH. destruct H as [H|H]; [contradiction | exact H].
Qed.

Lemma keys_set (d : dict V) k v :
  keys (set d k v) = if mem k d then keys d else keys d ++ [k].
Proof.
  destruct (mem k d) eqn:E.
  - apply keys_set_present. now apply mem_In.
  - rewrite keys_set_fresh by now apply mem_false_In.
    unfold keys. now rewrite map_app.
Qed.

Lemma get_set_same (d : dict V) k v : get (set d k v) k = Some v.
Proof.
  induction d as [|[k' v'] d IH]; simpl.
  - now rewrite String.eqb_refl.
  - destruct (String.eqb_spec k' k) as [->|Hne]; simpl.
    + now rewrite String.eqb_refl.
    + destruct (String.eqb_spec k' k); [contradiction | exact IH].
Qed.

Lemma get_set_other (d : dict V) k k' v : k' <> k -> get (set d k v) k' = get d k'.
Proof.
  intros Hne. induction d as [|[k0 v0] d IH]; simpl.
  - destruct (String.eqb_spec k k'); [congruence | reflexivity].
  - destruct (String.eqb_spec k0 k) as [->|Hne0]; simpl.
    + destruct (String.eqb_spec k k'); [congruence | reflexivity].
    + destruct (String.eqb_spec k0 k'); [reflexivity | exact IH].
Qed.

Lemma NoDup_keys_set (d : dict V) k v : NoDup (keys d) -> NoDup (keys (set d k v)).
Proof.
  intros H. rewrite keys_set. destruct (mem k d) eqn:E; [exact H|].
  apply mem_false_In in E.
  apply NoDup_app; [exact H | repeat constructor; simpl; tauto |].
  intros x Hx [<-|[]]. contradiction.
Qed.

End DictFacts.

(** ** The tag merger *)

Section TagMerger.

Variable env : Env.

(** The two-to-three entries of [additional_tags], case by case. *)
Lemma additional_tags_cases status detail :
  additional_tags env status detail =
  base_tags env status ++
  match status, detail with
  | Infected, Some d => if String.eqb d EmptyString then [] else [("virus-name", d)]
  | Error, Some d => if String.eqb d EmptyString then [] else [("scan-error", safe_error d)]
  | _, _ => []
  end.
Proof.
  unfold additional_tags, base_tags.
  destruct detail as [d|]; [|destruct status; reflexivity].
  destruct status; simpl; destruct (String.eqb d EmptyString); reflexivity.
Qed.

Lemma additional_tags_NoDup status detail :
  NoDup (keys (additional_tags env status detail)).
Proof.
  rewrite additional_tags_cases.
  destruct status, detail as [d|]; simpl;
    try destruct (String.eqb d EmptyString); simpl;
    repeat (constructor; [simpl; intuition discriminate|]); constructor.
Qed.

Lemma filter_twice {A} (f : A -> bool) (l : list A) :
  filter f (filter f l) = filter f l.
Proof.
  induction l as [|x l IH]; simpl; [reflexivity|].
  destruct (f x) eqn:E; simpl; [rewrite E, IH; reflexivity | exact IH].
Qed.

Lemma filter_none {A} (f : A -> bool) (l : list A) :
  (forall x, In x l -> f x = false) -> filter f l = [].
Proof.
  induction l as [|x l IH]; simpl; intros H; [reflexivity|].
  rewrite (H x) by now left. apply IH. intros y Hy. apply H. now right.
Qed.

Lemma NoDup_keys_filter {V} (f : string * V -> bool) (d : dict V) :
  NoDup (keys d) -> NoDup (keys (filter f d)).
Proof.
  induction d as [|[k v] d IH]; simpl; intros H; [constructor|].
  inversion H as [|? ? Hnotin Hnd]; subst.
  destruct (f (k, v)); simpl; [|now apply IH].
  constructor; [|now apply IH].
  intros Hin. apply Hnotin. unfold keys in *.
  apply in_map_iff in Hin as [[k' v'] [Hk Hin]]. simpl in Hk. subst k'.
  apply filter_In in Hin as [Hin _]. apply (in_map fst) in Hin. exact Hin.
Qed.

Lemma merge_tags_In tags status detail k v :
  In (k, v) (merge_tags env tags status detail) <->
  (In (k, v) tags /\ mem k (additional_tags env status detail) = false)
  \/ In (k, v) (additional_tags env status detail).
Proof.
  unfold merge_tags. rewrite in_app_iff, filter_In. simpl.
  rewrite negb_true_iff. tauto.
Qed.

(** C7. The tag merge is idempotent, keeps tag keys unique, preserves the
    pre-existing tags whose key is not a scan tag key, lets the new scan
    tags overwrite the tags with the same key, and adds nothing else. *)
Theorem merge_tags_idempotent_preserving tags status detail :
  let merged := merge_tags env tags status detail in
  let added := additional_tags env status detail in
  merge_tags env merged status detail = merged
  /\ (NoDup (keys tags) -> NoDup (keys merged))
  /\ (forall k v, In (k, v) tags -> mem k added = false -> In (k, v) merged)
  /\ (forall k v, mem k added = true -> (In (k, v) merged <-> In (k, v) added))
  /\ (forall k v, In (k, v) merged -> In (k, v) tags \/ In (k, v) added).
Proof.
  intros merged added.
  split; [|split; [|split; [|split]]].
  - unfold merged, merge_tags. fold added.
    rewrite filter_app, filter_twice.
    rewrite (filter_none _ added); [now rewrite app_nil_r|].
    intros [k v] Hin. simpl. apply negb_false_iff. apply mem_In.
    apply (in_map fst) in Hin. exact Hin.
  - intros Hnd. unfold merged, merge_tags. fold added.
    unfold keys. rewrite map_app. apply NoDup_app.
    + now apply NoDup_keys_filter.
    + apply additional_tags_NoDup.
    + intros k Hin Hin'.
      apply in_map_iff in Hin as [[k' v'] [Hk Hin]]. simpl in Hk. subst k'.
      apply filter_In in Hin as [_ Hf]. simpl in Hf.
      apply negb_true_iff, mem_false_In in Hf. now apply Hf.
  - intros k v Hin Hm. apply merge_tags_In. now left.
  - intros k v Hm. unfold added in Hm. split.
    + intros Hin. apply merge_tags_In in Hin as [[_ Hm']|Hin]; [congruence | exact Hin].
    + intros Hin. apply merge_tags_In. now right.
  - intros k v Hin. apply merge_tags_In in Hin. tauto.
Qed.

(** C8. Whatever the error detail, the merged tag set carries exactly one
    ["scan-error"] value, and that value is at most 250 characters long and
    free of line feeds and carriage returns. *)
Theorem scan_error_tag_sanitised tags detail :
  detail <> EmptyString ->
  (forall v, In ("scan-error", v) (merge_tags env tags Error (Some detail))
             <-> v = safe_error detail)
  /\ String.length (safe_error detail) <= 250
  /\ has_char (ascii_of_nat 10) (safe_error detail) = false
  /\ has_char (ascii_of_nat 13) (safe_error detail) = false.
Proof.
  intros Hne. split; [|apply safe_error_spec].
  intros v. rewrite merge_tags_In, additional_tags_cases.
  apply String.eqb_neq in Hne. rewrite Hne. simpl. split.
  - intros [[_ Hm]|Hin].
    + cbv in Hm. discriminate.
    + destruct Hin as [H|[H|[H|[]]]]; inversion H. reflexivity.
  - intros ->. right. right. right. now left.
Qed.

End TagMerger.

(** The hypothesis of the uniqueness part, discharged on a tag set that
    already carries a stale scan result next to an unrelated tag. *)
Lemma merge_tags_idempotent_preserving_witness :
  NoDup (keys [("owner", "etl"); ("scan-result", "infected")])
  /\ NoDup (keys (merge_tags mem_env [("owner", "etl"); ("scan-result", "infected")]
                    Clean None)).
Proof.
  assert (H : NoDup (keys [("owner", "etl"); ("scan-result", "infected")])).
  { repeat (constructor; [simpl; intuition discriminate|]). constructor. }
  split; [exact H|].
  exact (proj1 (proj2 (merge_tags_idempotent_preserving mem_env
                         [("owner", "etl"); ("scan-result", "infected")] Clean None)) H).
Defined.

(** A 300-character detail with both kinds of line break is cut and
    cleaned. *)
Lemma scan_error_tag_sanitised_witness :
  sample_long_detail <> EmptyString
  /\ 250 < String.length sample_long_detail
  /\ (forall v, In ("scan-error", v)
                  (merge_tags mem_env [("scan-error", "stale")] Error (Some sample_long_detail))
                <-> v = safe_error sample_long_detail)
  /\ String.length (safe_error sample_long_detail) <= 250
  /\ has_char (ascii_of_nat 10) (safe_error sample_long_detail) = false
  /\ has_char (ascii_of_nat 13) (safe_error sample_long_detail) = false.
Proof.
  assert (H : sample_long_detail <> EmptyString) by (intros H; discriminate H).
  split; [exact H|]. split; [vm_compute; lia|].
  exact (scan_error_tag_sanitised mem_env [("scan-error", "stale")] sample_long_detail H).
Defined.

(** ** The report parser *)

Section ReportParser.

Lemma contains_cons c s sub :
  contains (String c s) sub = false ->
  startswith (String c s) sub = false /\ contains s sub = false.
Proof. simpl. intros H. now apply orb_false_iff in H. Qed.

(** Without an occurrence of the separator, [split] returns the string
    itself. *)
Lemma split_no_separator s sep : contains s sep = false -> split s sep = [s].
Proof.
  unfold split. induction s as [|c s IH]; intros H; [reflexivity|].
  apply contains_cons in H as [H1 H2].
  cbn [split_from]. rewrite H1, (IH H2). reflexivity.
Qed.

(** The first piece of a split at colon-space is what precedes the first
    colon-space. *)
Lemma split_first_colon_space path rest :
  contains path ": " = false ->
  split (path ++ ": " ++ rest) ": " = path :: split rest ": ".
Proof.
  unfold split. induction path as [|c p IH]; intros H.
  - reflexivity.
  - apply contains_cons in H as [H1 H2].
    change ((String c p ++ ": " ++ rest)%string)
      with (String c (p ++ ": " ++ rest)).
    cbn [split_from].
    assert (Hs : startswith (String c (p ++ ": " ++ rest)) ": " = false).
    { destruct p as [|b p]; cbn [startswith append] in *.
      - destruct (Ascii.eqb ":" c); reflexivity.
      - exact H1. }
    rewrite Hs, (IH H2). reflexivity.
Qed.

(** An occurrence of the marker that starts inside [s] lies inside [s]:
    the marker cannot overlap a copy of itself. *)
Lemma found_marker_no_overlap c s :
  startswith (String c (s ++ " FOUND")) " FOUND" = true ->
  startswith (String c s) " FOUND" = true.
Proof.
  destruct s as [|c2 [|c3 [|c4 [|c5 [|c6 s]]]]]; cbn [startswith append];
    repeat match goal with
           | |- context [Ascii.eqb ?a ?b] =>
               lazymatch b with
               | Ascii _ _ _ _ _ _ _ _ => fail
               | _ => destruct (Ascii.eqb_spec a b); subst; cbn [andb]
               end
           end;
    intros H; try discriminate H; try reflexivity; vm_compute in H; discriminate H.
Qed.

(** Deleting the marker from [name ++ " FOUND"] gives [name] back when
    [name] itself is free of it. *)
Lemma replace_trailing_marker name :
  contains name " FOUND" = false ->
  replace (name ++ " FOUND") " FOUND" "" = name.
Proof.
  unfold replace. induction name as [|c n IH]; intros H.
  - reflexivity.
  - apply contains_cons in H as [H1 H2].
    change ((String c n ++ " FOUND")%string) with (String c (n ++ " FOUND")).
    cbn [replace_from].
    destruct (startswith (String c (n ++ " FOUND")) " FOUND") eqn:E.
    + apply found_marker_no_overlap in E. congruence.
    + now rewrite (IH H2).
Qed.

(** Nothing is deleted from a string that is free of [old]. *)
Lemma replace_absent s old new :
  contains s old = false -> replace s old new = s.
Proof.
  unfold replace. induction s as [|c s IH]; intros H; [reflexivity|].
  apply contains_cons in H as [H1 H2].
  cbn [replace_from]. rewrite H1. now rewrite (IH H2).
Qed.

Lemma lstrip_before_colon path rest :
  exists u, lstrip (path ++ String ":" rest) = (u ++ String ":" rest)%string.
Proof.
  induction path as [|c p [u IH]]; simpl.
  - exists EmptyString. reflexivity.
  - destruct (is_space c).
    + exists u. exact IH.
    + exists (String c p). reflexivity.
Qed.

Lemma rstrip_ends_nonspace s c :
  is_space c = false ->
  rstrip (s ++ String c EmptyString) = (s ++ String c EmptyString)%string.
Proof.
  intros Hc. induction s as [|a s IH]; simpl.
  - now rewrite Hc.
  - rewrite IH. destruct s; reflexivity.
Qed.

Lemma endswith_append s suf : endswith (s ++ suf) suf = true.
Proof.
  induction s as [|a s IH]; simpl.
  - destruct suf; simpl; [reflexivity|].
    now rewrite Ascii.eqb_refl, String.eqb_refl.
  - rewrite IH. apply orb_true_r.
Qed.

(** A report line [path: name FOUND] passes the line test. *)
Lemma report_line_selected path name :
  endswith (strip (path ++ ": " ++ name ++ " FOUND")) " FOUND" = true.
Proof.
  unfold strip.
  destruct (lstrip_before_colon path (" " ++ name ++ " FOUND")) as [u Hu].
  change ((path ++ ": " ++ name ++ " FOUND")%string)
    with ((path ++ String ":" (" " ++ name ++ " FOUND"))%string).
  rewrite Hu.
  replace ((u ++ String ":" (" " ++ name ++ " FOUND"))%string)
    with (((u ++ ": " ++ name ++ " FOUN") ++ "D")%string).
  - rewrite rstrip_ends_nonspace by reflexivity.
    replace (((u ++ ": " ++ name ++ " FOUN") ++ "D")%string)
      with (((u ++ ": " ++ name) ++ " FOUND")%string).
    + apply endswith_append.
    + rewrite !append_assoc. reflexivity.
  - rewrite !append_assoc. reflexivity.
Qed.

(** On a well-formed report line the loop stops with the signature name. *)
Lemma virus_name_of_report_line path name rest :
  contains path ": " = false ->
  contains (name ++ " FOUND") ": " = false ->
  contains name " FOUND" = false ->
  virus_name_of_lines ((path ++ ": " ++ name ++ " FOUND")%string :: rest) = strip name.
Proof.
  intros Hpath Hname Hfound. cbn [virus_name_of_lines].
  rewrite report_line_selected.
  rewrite (split_first_colon_space path _ Hpath).
  rewrite (split_no_separator _ _ Hname). cbn [nth_error].
  now rewrite (replace_trailing_marker _ Hfound).
Qed.

(** Lines that fail the test or hold no colon-space are passed over. *)
Lemma virus_name_skips before lines :
  Forall passed_over before ->
  virus_name_of_lines (before ++ lines) = virus_name_of_lines lines.
Proof.
  induction 1 as [|line rest Hline _ IH]; [reflexivity|].
  cbn [virus_name_of_lines app].
  destruct (endswith (strip line) " FOUND") eqn:E; [|exact IH].
  rewrite (split_no_separator line ": ") by (apply Hline; exact E).
  exact IH.
Qed.

Lemma virus_name_unknown lines :
  Forall passed_over lines -> virus_name_of_lines lines = "Unknown".
Proof.
  intros H. rewrite <- (app_nil_r lines). now rewrite virus_name_skips.
Qed.

End ReportParser.

(** The result of [run_scan] once the scanner has returned. *)
Lemma run_scan_result {W} (sys : Sys W) path w w1 exit_code stdout stderr :
  sys_run_command sys (clamscan_command path) w = (w1, inr (exit_code, stdout, stderr)) ->
  result_of (run_scan sys path w) =
  match scan_outcome exit_code stdout stderr with
  | inr v => Ok v
  | inl e => Raise e
  end.
Proof.
  intros H. unfold run_scan, bind, run_command, print, result_of. rewrite H. simpl.
  destruct (String.eqb stderr EmptyString); simpl;
    destruct (scan_outcome exit_code stdout stderr); reflexivity.
Qed.

(** The reading "the text between the first colon-space and the marker"
    fails on a report line with a second colon-space: the name stops
    there. *)
Lemma name_stops_at_second_colon : ~ name_between_colon_and_marker.
Proof.
  intros H.
  specialize (H "/tmp/clamav/scan/report" "final.pdf: Eicar-Test-Signature" []
                sample_report_colon EmptyString eq_refl eq_refl).
  vm_compute in H. discriminate H.
Qed.

Example name_loses_inner_marker :
  virus_name "/tmp/clamav/scan/a.txt: A FOUND B FOUND" = "A B".
Proof. reflexivity. Qed.

(** C4. A file whose name holds a colon-space hides the signature.  The
    scanner reports an infected file on the line [path: signature FOUND];
    for the path [p: q] that line has two colon-spaces and the name is cut
    at the second: [run_scan] returns infected with [q] (trimmed), the end
    of the file name, whatever the signature is.  The comment in the code
    reads [Parse "filename: virus-name FOUND"]. *)
Theorem signature_hidden_by_file_name {W} (sys : Sys W)
  p q signature rest stdout stderr w w1 :
  let path := (p ++ ": " ++ q)%string in
  sys_run_command sys (clamscan_command path) w = (w1, inr (1%Z, stdout, stderr)) ->
  split stdout LF = (path ++ ": " ++ signature ++ " FOUND")%string :: rest ->
  contains p ": " = false ->
  contains q ": " = false ->
  contains q " FOUND" = false ->
  result_of (run_scan sys path w) = Ok (Infected, Some (strip q)).
Proof.
  intros path Hrun Hsplit Hp Hq Hfound.
  rewrite (run_scan_result _ _ _ _ _ _ _ Hrun).
  unfold scan_outcome, virus_name. cbn [Z.eqb Pos.eqb]. rewrite Hsplit.
  cbn [virus_name_of_lines].
  assert (Hline : (path ++ ": " ++ signature ++ " FOUND")%string
                  = (p ++ ": " ++ (q ++ ": " ++ signature) ++ " FOUND")%string).
  { unfold path. now rewrite !append_assoc. }
  rewrite Hline at 1. rewrite report_line_selected.
  assert (Hpieces : split (path ++ ": " ++ signature ++ " FOUND") ": "
                    = p :: q :: split (signature ++ " FOUND") ": ").
  { unfold path. rewrite !append_assoc.
    rewrite (split_first_colon_space p _ Hp).
    now rewrite (split_first_colon_space q _ Hq). }
  rewrite Hpieces. cbn [nth_error].
  now rewrite (replace_absent q " FOUND" EmptyString Hfound).
Qed.

(** The scanner scripted to report an infected [report: final.pdf]: the
    name returned is [final.pdf], the signature is lost. *)
Lemma signature_hidden_by_file_name_witness :
  sys_run_command mem_sys (clamscan_command "/tmp/clamav/scan/report: final.pdf")
    sample_colon_world
  = (sample_colon_world, inr (1%Z, sample_report_colon, EmptyString))
  /\ split sample_report_colon LF
     = ["/tmp/clamav/scan/report: final.pdf: Eicar-Test-Signature FOUND"]
  /\ result_of (run_scan mem_sys "/tmp/clamav/scan/report: final.pdf" sample_colon_world)
     = Ok (Infected, Some "final.pdf").
Proof.
  split; [reflexivity|]. split; [reflexivity|].
  exact (signature_hidden_by_file_name mem_sys "/tmp/clamav/scan/report" "final.pdf"
           "Eicar-Test-Signature" [] sample_report_colon EmptyString
           sample_colon_world sample_colon_world
           eq_refl eq_refl eq_refl eq_refl eq_refl).
Defined.

(** X21. What [run_scan] makes of the scanner's answer.  Exit status 0
    gives clean; exit status 1 gives infected with the name taken from the
    first report line that ends in the marker and holds a colon-space: the
    second piece of the line split at colon-space, every marker removed,
    blanks trimmed.  On a line [p: name FOUND] where [p] holds no
    colon-space, [name] followed by the marker holds none either and
    [name] holds no marker, this is [name], trimmed; it is ["Unknown"]
    when no line qualifies.  Any other exit status raises. *)
Theorem run_scan_verdict {W} (sys : Sys W) path w w1 exit_code stdout stderr :
  sys_run_command sys (clamscan_command path) w = (w1, inr (exit_code, stdout, stderr)) ->
  (exit_code = 0%Z -> result_of (run_scan sys path w) = Ok (Clean, None))
  /\ (exit_code = 1%Z ->
        result_of (run_scan sys path w) = Ok (Infected, Some (virus_name stdout))
        /\ (forall before line rest first piece others,
              split stdout LF = before ++ line :: rest ->
              Forall passed_over before ->
              endswith (strip line) " FOUND" = true ->
              split line ": " = first :: piece :: others ->
              virus_name stdout = strip (replace piece " FOUND" ""))
        /\ (forall before p name rest,
              split stdout LF = before ++ (p ++ ": " ++ name ++ " FOUND")%string :: rest ->
              Forall passed_over before ->
              contains p ": " = false ->
              contains (name ++ " FOUND") ": " = false ->
              contains name " FOUND" = false ->
              virus_name stdout = strip name)
        /\ (Forall passed_over (split stdout LF) -> virus_name stdout = "Unknown"))
  /\ (exit_code <> 0%Z -> exit_code <> 1%Z ->
        result_of (run_scan sys path w)
        = Raise (OtherError (scan_error_message exit_code stderr))).
Proof.
  intros Hrun. rewrite (run_scan_result _ _ _ _ _ _ _ Hrun).
  split; [|split].
  - intros ->. reflexivity.
  - intros ->. split; [reflexivity|]. split; [|split].
    + intros before line rest first piece others Hsplit Hskip Hend Hpieces.
      unfold virus_name. rewrite Hsplit, (virus_name_skips _ _ Hskip).
      cbn [virus_name_of_lines]. rewrite Hend, Hpieces. reflexivity.
    + intros before p name rest Hsplit Hskip Hp Hname Hfound.
      unfold virus_name. rewrite Hsplit, (virus_name_skips _ _ Hskip).
      now apply virus_name_of_report_line.
    + intros Hskip. now apply virus_name_unknown.
  - intros H0 H1. unfold scan_outcome.
    destruct (Z.eqb_spec exit_code 0); [contradiction|].
    destruct (Z.eqb_spec exit_code 1); [contradiction|]. reflexivity.
Qed.

(** The scanner scripted to report an infected [a.txt]. *)
Lemma run_scan_verdict_witness :
  sys_run_command mem_sys (clamscan_command "/tmp/clamav/scan/a.txt") sample_infected_world
  = (sample_infected_world, inr (1%Z, sample_report, EmptyString))
  /\ result_of (run_scan mem_sys "/tmp/clamav/scan/a.txt" sample_infected_world)
     = Ok (Infected, Some "Win.Test.EICAR_HDB-1")
  /\ virus_name sample_report = strip "Win.Test.EICAR_HDB-1".
Proof.
  assert (Hrun : sys_run_command mem_sys (clamscan_command "/tmp/clamav/scan/a.txt")
                   sample_infected_world
                 = (sample_infected_world, inr (1%Z, sample_report, EmptyString)))
    by reflexivity.
  pose proof (run_scan_verdict mem_sys _ _ _ _ _ _ Hrun) as [_ [H1 _]].
  destruct (H1 eq_refl) as [Hres [_ [Hname _]]].
  split; [exact Hrun|]. split; [exact Hres|].
  apply (Hname [] "/tmp/clamav/scan/a.txt" "Win.Test.EICAR_HDB-1"
           [EmptyString; "----------- SCAN SUMMARY -----------"; "Infected files: 1"; EmptyString]);
    try reflexivity.
  constructor.
Defined.

(** ** Runs of the monad *)

Section Runs.

Context {W : Type}.
Variable sys : Sys W.
Variable env : Env.

Lemma bind_run {A B} (m : M W A) (f : A -> M W B) w :
  bind m f w =
  match result_of (m w) with
  | Ok a =>
      let r := f a (world_of (m w)) in
      (world_of r, trace_of (m w) ++ trace_of r, result_of r)
  | Raise e => (world_of (m w), trace_of (m w), Raise e)
  end.
Proof.
  unfold bind, result_of, world_of, trace_of.
  destruct (m w) as [[w1 t1] [a|e]]; simpl; [|reflexivity].
  destruct (f a w1) as [[w2 t2] r]; reflexivity.
Qed.

Lemma catch_run {A} (m : M W A) (h : exn -> M W A) w :
  catch m h w =
  match result_of (m w) with
  | Ok a => m w
  | Raise e =>
      let r := h e (world_of (m w)) in
      (world_of r, trace_of (m w) ++ trace_of r, result_of r)
  end.
Proof.
  unfold catch, result_of, world_of, trace_of.
  destruct (m w) as [[w1 t1] [a|e]]; simpl; [reflexivity|].
  destruct (h e w1) as [[w2 t2] r]; reflexivity.
Qed.

Lemma existsb_app_false {A} (f : A -> bool) (a b : list A) :
  existsb f (a ++ b) = false -> existsb f a = false /\ existsb f b = false.
Proof. rewrite existsb_app. apply orb_false_iff. Qed.

Lemma copies_app a b : copies (a ++ b) = copies a ++ copies b.
Proof.
  induction a as [|ev a IH]; simpl; [reflexivity|].
  destruct ev; simpl; now rewrite ?IH.
Qed.

Lemma deletes_app a b : deletes (a ++ b) = deletes a ++ deletes b.
Proof.
  induction a as [|ev a IH]; simpl; [reflexivity|].
  destruct ev; simpl; now rewrite ?IH.
Qed.

(** *** [update_tags] *)

(** C10. When reading the tag set fails with a storage error, whatever its
    code, [update_tags] goes on from an empty tag set and writes back the
    new scan tags alone: what it writes holds no tag outside the scan tag
    keys, so the write replaces whatever other tags the object had.  The
    failure is only logged, and only for codes other than
    [NoSuchTaggingSet]. *)
Theorem update_tags_read_failure bucket key status detail w w1 code msg :
  sys_get_object_tagging sys bucket key w = (w1, inl (ClientError code msg)) ->
  let added := additional_tags env status detail in
  let written := sys_put_object_tagging sys bucket key added w1 in
  update_tags sys env bucket key status detail w =
    (fst written,
     EvGetTags bucket key (inl (ClientError code msg))
       :: read_log key (inl (ClientError code msg))
       ++ [EvPutTags bucket key added (snd written)],
     of_option (snd written))
  /\ (forall k v, In (k, v) added -> In k scan_tag_keys).
Proof.
  intros Hget added written. split.
  - unfold update_tags, bind, catch, get_object_tagging, put_object_tagging, print, ret.
    rewrite Hget. cbn [of_sum read_log].
    destruct (String.eqb code "NoSuchTaggingSet"); cbn [app];
      change (merge_tags env [] status detail) with added;
      unfold written; destruct (sys_put_object_tagging sys bucket key added w1);
      reflexivity.
  - intros k v Hin. unfold added in Hin. rewrite additional_tags_cases in Hin.
    apply in_app_iff in Hin as [Hin|Hin].
    + destruct Hin as [H|[H|[]]]; inversion H; subst; cbn; tauto.
    + destruct status, detail as [d|]; try contradiction;
        destruct (String.eqb d EmptyString); try contradiction;
        destruct Hin as [H|[]]; inversion H; subst; cbn; tauto.
Qed.

(** *** [move_and_tag_files] *)

(** The test of the router on the code of a storage error, against the
    line to be logged. *)
Lemma not_found_code_log key code msg :
  (if not_found_code code then LogAlreadyProcessed key
   else LogFatal key (ClientError code msg))
  = move_log key (ClientError code msg).
Proof.
  unfold not_found_code, move_log.
  destruct (String.eqb code "404"), (String.eqb code "NoSuchKey"); reflexivity.
Qed.

(** With the variable set the router is the loop over the map; without it
    the lookup raises before anything is moved. *)
Lemma move_and_tag_files_set dest m w landing :
  LANDING_BUCKET_NAME env = Some landing ->
  move_and_tag_files sys env dest m w = for_each m (move_one sys env dest landing) w.
Proof.
  intros H. unfold move_and_tag_files, environ_landing_bucket_name. rewrite H.
  unfold bind, ret.
  destruct (for_each m (move_one sys env dest landing) w) as [[w1 t1] r]. reflexivity.
Qed.

Lemma move_and_tag_files_unset dest m w :
  LANDING_BUCKET_NAME env = None ->
  move_and_tag_files sys env dest m w
  = (w, [EvKeyError "LANDING_BUCKET_NAME"], Raise (key_error "LANDING_BUCKET_NAME")).
Proof.
  intros H. unfold move_and_tag_files, environ_landing_bucket_name. now rewrite H.
Qed.

Lemma move_one_routed dest landing entry w :
  existsb raises_other (trace_of (move_one sys env dest landing entry w)) = false ->
  result_of (move_one sys env dest landing entry w) = Ok tt
  /\ key_routed env dest landing entry (trace_of (move_one sys env dest landing entry w)).
Proof.
  destruct entry as [key [status detail]].
  unfold move_one, update_tags, catch, bind, copy_object, delete_object,
    get_object_tagging, put_object_tagging, print, ret, raise, trace_of, result_of.
  destruct (sys_copy_object sys dest (Some landing) key w)
    as [w1 [[code msg|msg]|]]; cbn -[merge_tags].
  - intros _.
    pose proof (routed_copy_failed env dest landing key status detail
                  (ClientError code msg) eq_refl) as R.
    rewrite <- not_found_code_log in R.
    destruct (not_found_code code); cbn; (split; [reflexivity | exact R]).
  - discriminate.
  - destruct (sys_delete_object sys (Some landing) key w1)
      as [w2 [[code msg|msg]|]]; cbn -[merge_tags].
    + intros _.
      pose proof (routed_delete_failed env dest landing key status detail
                    (ClientError code msg) eq_refl) as R.
      rewrite <- not_found_code_log in R.
      destruct (not_found_code code); cbn; (split; [reflexivity | exact R]).
    + discriminate.
    + destruct (sys_get_object_tagging sys dest key w2) as [w3 read].
      assert (Hshape :
        forall (written : option exn),
          other_error_sum read = false ->
          other_error written = false ->
          key_routed env dest landing (key, (status, detail))
            ([EvPrint (LogMoving key dest status);
              EvCopy dest (Some landing) key None;
              EvDelete (Some landing) key None;
              EvGetTags dest key read] ++ read_log key read ++
             [EvPutTags dest key (merge_tags env (tags_read read) status detail) written]
             ++ failure_log key written))
        by (intros; now apply routed_tagged).
      destruct read as [[code msg|msg]|[ts|]]; cbn -[merge_tags] in *;
        try discriminate;
        try (destruct (String.eqb code "NoSuchTaggingSet") eqn:Ecode; cbn -[merge_tags] in * );
        match goal with
        | |- context [sys_put_object_tagging sys ?b ?k ?t ?w0] =>
            destruct (sys_put_object_tagging sys b k t w0) as [w4 [[code' msg'|msg']|]]
        end; cbn -[merge_tags];
        try (rewrite ?orb_true_r; discriminate);
        intros _;
        match goal with
        | |- context [EvPutTags _ _ _ ?wr] =>
            pose proof (Hshape wr eq_refl eq_refl) as R
        end;
        unfold failure_log in R; try rewrite <- not_found_code_log in R;
        try (destruct (not_found_code code')); cbn -[merge_tags];
        (split; [reflexivity | exact R]).
Qed.

Ltac destruct_calls :=
  repeat match goal with
    | |- context [sys_copy_object ?s ?a ?b ?c ?w] =>
        destruct (sys_copy_object s a b c w) as [? [[? ?|?]|]]; cbn -[merge_tags]
    | |- context [sys_delete_object ?s ?a ?b ?w] =>
        destruct (sys_delete_object s a b w) as [? [[? ?|?]|]]; cbn -[merge_tags]
    | |- context [sys_get_object_tagging ?s ?a ?b ?w] =>
        destruct (sys_get_object_tagging s a b w) as [? [[? ?|?]|[?|]]]; cbn -[merge_tags]
    | |- context [sys_put_object_tagging ?s ?a ?b ?t ?w] =>
        destruct (sys_put_object_tagging s a b t w) as [? [[? ?|?]|]]; cbn -[merge_tags]
    | |- context [if ?b then _ else _] => destruct b; cbn -[merge_tags]
    end.

Ltac unfold_calls :=
  unfold update_tags, catch, bind, copy_object, delete_object,
    get_object_tagging, put_object_tagging, print, ret, raise,
    trace_of, result_of, world_of.

(** The router attempts exactly one copy per entry it reaches, from the
    landing bucket to the destination. *)
Lemma move_one_copies dest landing key v w :
  copies (trace_of (move_one sys env dest landing (key, v) w))
  = [(dest, Some landing, key)].
Proof.
  destruct v as [status detail]. unfold move_one. unfold_calls.
  destruct_calls; reflexivity.
Qed.

Lemma for_each_cons {A} (x : A) l (body : A -> M W unit) w :
  for_each (x :: l) body w =
  match result_of (body x w) with
  | Ok _ =>
      let r := for_each l body (world_of (body x w)) in
      (world_of r, trace_of (body x w) ++ trace_of r, result_of r)
  | Raise e => (world_of (body x w), trace_of (body x w), Raise e)
  end.
Proof. exact (bind_run (body x) (fun _ => for_each l body) w). Qed.

Lemma move_and_tag_files_copies dest m w :
  let run := move_and_tag_files sys env dest m w in
  exists n,
    copies (trace_of run)
    = map (fun key => (dest, LANDING_BUCKET_NAME env, key)) (firstn n (keys m))
    /\ (result_of run = Ok tt -> firstn n (keys m) = keys m).
Proof.
  cbn zeta. destruct (LANDING_BUCKET_NAME env) as [landing|] eqn:Hl.
  - rewrite (move_and_tag_files_set dest m w landing Hl). revert w.
    induction m as [|[key v] m IH]; intros w.
    + exists 0. split; reflexivity.
    + rewrite for_each_cons.
      destruct (result_of (move_one sys env dest landing (key, v) w)) eqn:E.
      * destruct (IH (world_of (move_one sys env dest landing (key, v) w)))
          as [n [Hc Hok]].
        exists (S n). cbn [trace_of result_of fst snd] in *. split.
        -- rewrite copies_app, move_one_copies, Hc. reflexivity.
        -- intros Hr. cbn. f_equal. now apply Hok.
      * exists 1. cbn [trace_of result_of fst snd]. split.
        -- rewrite move_one_copies. reflexivity.
        -- discriminate.
  - rewrite (move_and_tag_files_unset dest m w Hl).
    exists 0. split; [reflexivity | discriminate].
Qed.

Lemma for_each_move_one_returns dest landing m w :
  existsb raises_other (trace_of (for_each m (move_one sys env dest landing) w)) = false ->
  result_of (for_each m (move_one sys env dest landing) w) = Ok tt.
Proof.
  revert w.
  induction m as [|entry m IH]; intros w; [reflexivity|].
  rewrite for_each_cons.
  destruct (result_of (move_one sys env dest landing entry w)) as [[]|e] eqn:E;
    cbn [trace_of result_of fst snd]; intros Hno.
  - apply existsb_app_false in Hno as [_ H2]. now apply IH.
  - destruct (move_one_routed dest landing entry w Hno) as [Hok _]. congruence.
Qed.

Lemma move_and_tag_files_returns dest m w :
  existsb raises_other (trace_of (move_and_tag_files sys env dest m w)) = false ->
  result_of (move_and_tag_files sys env dest m w) = Ok tt.
Proof.
  destruct (LANDING_BUCKET_NAME env) as [landing|] eqn:Hl.
  - rewrite (move_and_tag_files_set dest m w landing Hl).
    apply for_each_move_one_returns.
  - rewrite (move_and_tag_files_unset dest m w Hl). discriminate.
Qed.


(** *** Folder placeholders *)

(** A loop whose body never raises runs to its end; what it leaves in the
    trace is the concatenation of what each iteration leaves. *)
Lemma for_each_total {A X} (proj : list Ev -> list X) (g : A -> list X)
  (body : A -> M W unit) l :
  (forall a b, proj (a ++ b) = proj a ++ proj b) ->
  proj [] = [] ->
  (forall x w, result_of (body x w) = Ok tt /\ proj (trace_of (body x w)) = g x) ->
  forall w,
    result_of (for_each l body w) = Ok tt
    /\ proj (trace_of (for_each l body w)) = flat_map g l.
Proof.
  intros Happ Hnil Hbody.
  induction l as [|x l IH]; intros w.
  - split; [reflexivity | exact Hnil].
  - rewrite for_each_cons. destruct (Hbody x w) as [Hr Hp]. rewrite Hr.
    cbn [trace_of result_of fst snd flat_map].
    destruct (IH (world_of (body x w))) as [Hok Hps].
    split; [exact Hok|]. now rewrite Happ, Hp, Hps.
Qed.

Lemma flat_map_single {A B} (f : A -> B) l : flat_map (fun x => [f x]) l = map f l.
Proof. induction l as [|x l IH]; cbn; [reflexivity | now rewrite IH]. Qed.

Lemma flat_map_none {A B} (l : list A) : flat_map (fun _ => @nil B) l = [].
Proof. induction l as [|x l IH]; cbn; [reflexivity | exact IH]. Qed.

Lemma quarantine_folders_run line folders w :
  let run := quarantine_folders sys env line folders w in
  result_of run = Ok tt
  /\ copies (trace_of run)
     = map (fun key => (QUARANTINE_BUCKET_NAME env, LANDING_BUCKET_NAME env, key)) folders.
Proof.
  cbn zeta. unfold quarantine_folders.
  rewrite <- flat_map_single.
  apply (for_each_total copies); [apply copies_app | reflexivity |].
  intros key w0. unfold_calls. destruct_calls; split; reflexivity.
Qed.

Lemma delete_folders_run folders w :
  let run := delete_folders sys env folders w in
  result_of run = Ok tt
  /\ copies (trace_of run) = []
  /\ deletes (trace_of run) = map (fun key => (LANDING_BUCKET_NAME env, key)) folders.
Proof.
  cbn zeta. unfold delete_folders. split; [|split].
  - apply (for_each_total copies (fun _ => [])); [apply copies_app | reflexivity |].
    intros key w0. unfold_calls. destruct_calls; split; reflexivity.
  - rewrite <- (flat_map_none folders).
    apply (for_each_total copies (fun _ => [])); [apply copies_app | reflexivity |].
    intros key w0. unfold_calls. destruct_calls; split; reflexivity.
  - rewrite <- flat_map_single.
    apply (for_each_total deletes); [apply deletes_app | reflexivity |].
    intros key w0. unfold_calls. destruct_calls; split; reflexivity.
Qed.

End Runs.

(** ** The scan loop *)

Section ScanLoop.

Context {W : Type}.
Variable sys : Sys W.
Variable env : Env.

Lemma for_fold_cons {A S} (x : A) l (s : S) (body : A -> S -> M W S) w :
  for_fold (x :: l) s body w =
  match result_of (body x s w) with
  | Ok s' =>
      let r := for_fold l s' body (world_of (body x s w)) in
      (world_of r, trace_of (body x s w) ++ trace_of r, result_of r)
  | Raise e => (world_of (body x s w), trace_of (body x s w), Raise e)
  end.
Proof. exact (bind_run (body x s) (fun s' => for_fold l s' body) w). Qed.

(** One iteration never raises: the key gets the verdict of its own body,
    or the error made of the exception that body raised. *)
Lemma scan_step_run key m flag w :
  result_of (scan_step sys env key (m, flag) w)
  = Ok (set m key (key_verdict sys env key w),
        flag || flags_batch (fst (key_verdict sys env key w)))
  /\ world_of (scan_step sys env key (m, flag) w) = after_key sys env key w.
Proof.
  unfold after_key, key_verdict, scan_step.
  rewrite !catch_run, !bind_run.
  destruct (scan_file sys env key w) as [[w1 t1] [v|e]];
    cbn [result_of world_of trace_of fst snd ret print bind flags_batch].
  - split; reflexivity.
  - rewrite orb_true_r. split; reflexivity.
Qed.

Lemma keys_key_verdicts ks w : keys (key_verdicts sys env ks w) = ks.
Proof.
  revert w. induction ks as [|k ks IH]; intros w; cbn; [reflexivity|].
  f_equal. apply IH.
Qed.

Lemma scan_fold_run ks m flag w :
  NoDup ks ->
  (forall k, In k ks -> ~ In k (keys m)) ->
  result_of (for_fold ks (m, flag) (scan_step sys env) w)
  = Ok (m ++ key_verdicts sys env ks w,
        flag || existsb bad_verdict (key_verdicts sys env ks w))
  /\ world_of (for_fold ks (m, flag) (scan_step sys env) w) = after_keys sys env ks w.
Proof.
  revert m flag w. induction ks as [|k ks IH]; intros m flag w Hnd Hfresh.
  - cbn. rewrite app_nil_r, orb_false_r. split; reflexivity.
  - inversion Hnd as [|? ? Hnotin Hnd']; subst.
    rewrite for_fold_cons.
    destruct (scan_step_run k m flag w) as [Hr Hw]. rewrite Hr, Hw.
    cbn [result_of world_of trace_of fst snd].
    rewrite keys_set_fresh by (apply Hfresh; now left).
    destruct (IH (m ++ [(k, key_verdict sys env k w)])
                 (flag || flags_batch (fst (key_verdict sys env k w)))
                 (after_key sys env k w) Hnd') as [Hr' Hw'].
    { intros k' Hin. unfold keys. rewrite map_app, in_app_iff. cbn.
      intros [H|[H|[]]].
      - apply (Hfresh k'); [now right | exact H].
      - subst k'. contradiction. }
    rewrite Hr', Hw'. cbn [key_verdicts after_keys existsb].
    unfold bad_verdict at 2. cbn [fst snd].
    rewrite <- app_assoc, orb_assoc. split; reflexivity.
Qed.

Lemma scan_loop_run files w :
  NoDup (keys files) ->
  result_of (scan_loop sys env files w)
  = Ok (key_verdicts sys env (keys files) w,
        existsb bad_verdict (key_verdicts sys env (keys files) w))
  /\ world_of (scan_loop sys env files w) = after_keys sys env (keys files) w.
Proof.
  intros Hnd. unfold scan_loop.
  destruct (scan_fold_run (keys files) [] false w Hnd) as [Hr Hw].
  - intros k _ [].
  - split; [exact Hr | exact Hw].
Qed.

(** What the body of one key does when the download or the scan fails. *)
Lemma key_verdict_download_failed key w w1 e :
  endswith key "_commit.json" = false ->
  sys_download_file sys (LANDING_BUCKET_NAME env) key (local_file_path key) w
  = (w1, Some e) ->
  key_verdict sys env key w = (Error, Some (str_exn e)).
Proof.
  intros Hc Hd. unfold key_verdict, scan_file. rewrite Hc.
  unfold bind, print, download_file, result_of. rewrite Hd. reflexivity.
Qed.

Lemma key_verdict_scan_failed key w w1 w2 r :
  endswith key "_commit.json" = false ->
  sys_download_file sys (LANDING_BUCKET_NAME env) key (local_file_path key) w
  = (w1, None) ->
  sys_run_command sys (clamscan_command (local_file_path key)) w1 = (w2, r) ->
  match r with
  | inr (exit_code, _, _) => ((exit_code =? 0) || (exit_code =? 1))%Z = false
  | inl _ => True
  end ->
  key_verdict sys env key w
  = (Error,
     Some (match r with
           | inl e => str_exn e
           | inr (exit_code, _, stderr) => scan_error_message exit_code stderr
           end)).
Proof.
  intros Hc Hd Hr Hfail. unfold key_verdict, scan_file. rewrite Hc.
  unfold run_scan, bind, print, download_file, run_command, result_of, ret, raise.
  rewrite Hd. cbn -[clamscan_command local_file_path scan_outcome].
  rewrite Hr. cbn -[scan_outcome].
  destruct r as [e|[[exit_code stdout] stderr]]; cbn -[scan_outcome]; [reflexivity|].
  apply orb_false_iff in Hfail as [H0 H1].
  unfold scan_outcome. rewrite H0, H1.
  destruct (String.eqb stderr EmptyString); reflexivity.
Qed.

(** C2. The scan loop never raises.  It leaves exactly one entry per key of
    the file map, in order, and the entry of a key is decided by that key's
    own body alone: an exception raised by its download or by its scan
    (the scanner call itself, or an exit status other than 0 and 1) becomes
    the [Error] verdict carrying the exception message, and the loop moves
    on to the next key. *)
Theorem scan_loop_isolates_failures files w :
  NoDup (keys files) ->
  let m := key_verdicts sys env (keys files) w in
  result_of (scan_loop sys env files w) = Ok (m, existsb bad_verdict m)
  /\ keys m = keys files
  /\ NoDup (keys m)
  /\ (forall key wk e,
        result_of (scan_file sys env key wk) = Raise e ->
        key_verdict sys env key wk = (Error, Some (str_exn e)))
  /\ (forall key wk w1 e,
        endswith key "_commit.json" = false ->
        sys_download_file sys (LANDING_BUCKET_NAME env) key (local_file_path key) wk
        = (w1, Some e) ->
        key_verdict sys env key wk = (Error, Some (str_exn e)))
  /\ (forall key wk w1 w2 e,
        endswith key "_commit.json" = false ->
        sys_download_file sys (LANDING_BUCKET_NAME env) key (local_file_path key) wk
        = (w1, None) ->
        sys_run_command sys (clamscan_command (local_file_path key)) w1 = (w2, inl e) ->
        key_verdict sys env key wk = (Error, Some (str_exn e)))
  /\ (forall key wk w1 w2 exit_code stdout stderr,
        endswith key "_commit.json" = false ->
        sys_download_file sys (LANDING_BUCKET_NAME env) key (local_file_path key) wk
        = (w1, None) ->
        sys_run_command sys (clamscan_command (local_file_path key)) w1
        = (w2, inr (exit_code, stdout, stderr)) ->
        exit_code <> 0%Z -> exit_code <> 1%Z ->
        key_verdict sys env key wk
        = (Error, Some (scan_error_message exit_code stderr))).
Proof.
  intros Hnd m. split; [|split; [|split; [|split; [|split; [|split]]]]].
  - apply (scan_loop_run files w Hnd).
  - apply keys_key_verdicts.
  - unfold m. now rewrite keys_key_verdicts.
  - intros key wk e H. unfold key_verdict. now rewrite H.
  - intros key wk w1 e. apply key_verdict_download_failed.
  - intros key wk w1 w2 e Hc Hd Hr.
    exact (key_verdict_scan_failed key wk w1 w2 (inl e) Hc Hd Hr I).
  - intros key wk w1 w2 exit_code stdout stderr Hc Hd Hr H0 H1.
    refine (key_verdict_scan_failed key wk w1 w2 _ Hc Hd Hr _). cbn.
    destruct (Z.eqb_spec exit_code 0); [contradiction|].
    destruct (Z.eqb_spec exit_code 1); [contradiction|]. reflexivity.
Qed.

End ScanLoop.

(** ** The listing *)

Section Listing.

Lemma In_keys_set {V} (d : dict V) k v k' :
  In k' (keys (set d k v)) <-> In k' (keys d) \/ k' = k.
Proof.
  rewrite keys_set. destruct (mem k d) eqn:E.
  - apply mem_In in E. split; [tauto|]. intros [H| ->]; assumption.
  - rewrite in_app_iff. cbn. intuition auto.
Qed.

Lemma collect_object_ok st obj : listing_ok st -> listing_ok (collect_object st obj).
Proof.
  destruct st as [files folders], obj as [key size].
  intros (Hnd & Hfiles & Hfolders). unfold collect_object.
  destruct (endswith key "/") eqn:E; cbn [negb fst snd]; repeat split; cbn [fst snd].
  - exact Hnd.
  - exact Hfiles.
  - intros k Hin. apply in_app_iff in Hin as [Hin|[<-|[]]]; [now apply Hfolders | exact E].
  - now apply NoDup_keys_set.
  - intros k Hin. apply In_keys_set in Hin as [Hin| ->]; [now apply Hfiles | exact E].
  - exact Hfolders.
Qed.

Lemma collect_pages_ok pages : listing_ok (collect_pages pages).
Proof.
  unfold collect_pages.
  assert (H : forall st, listing_ok st -> listing_ok (fold_left collect_page pages st)).
  { induction pages as [|page pages IH]; intros st Hst; [exact Hst|].
    cbn [fold_left]. apply IH. destruct page as [contents|]; [|exact Hst].
    cbn [collect_page]. revert st Hst.
    induction contents as [|obj contents IHc]; intros st Hst; [exact Hst|].
    cbn [fold_left]. apply IHc. now apply collect_object_ok. }
  apply H. repeat split; cbn; try constructor; intros k [].
Qed.

End Listing.

(** ** Size sweep and routing *)

Section Routing.

Context {W : Type}.
Variable sys : Sys W.
Variable env : Env.

Lemma keys_swept files (m : dict Verdict) :
  (forall k, In k (keys files) -> In k (keys m)) -> keys (swept files m) = keys m.
Proof.
  unfold swept. revert m.
  induction files as [|[k size] files IH]; intros m Hin; [reflexivity|].
  cbn [fold_left fst]. destruct (oversize (k, size)).
  - rewrite IH.
    + apply keys_set_present. apply Hin. now left.
    + intros k' Hk'. apply In_keys_set. left. apply Hin. now right.
  - apply IH. intros k' Hk'. apply Hin. now right.
Qed.

Lemma get_swept_other files (m : dict Verdict) k :
  ~ In k (keys files) -> get (swept files m) k = get m k.
Proof.
  unfold swept. revert m.
  induction files as [|[k0 size] files IH]; intros m Hnotin; [reflexivity|].
  cbn [fold_left fst]. rewrite IH by (intros H; apply Hnotin; now right).
  destruct (oversize (k0, size)); [|reflexivity].
  apply get_set_other. intros ->. apply Hnotin. now left.
Qed.

(** The sweep looks at every listed file, whatever its key. *)
Lemma get_swept files (m : dict Verdict) k size :
  NoDup (keys files) -> In (k, size) files ->
  get (swept files m) k = if oversize (k, size) then Some oversize_verdict else get m k.
Proof.
  revert m. induction files as [|[k0 s0] files IH]; intros m Hnd Hin; [contradiction|].
  inversion Hnd as [|? ? Hnotin Hnd']; subst.
  destruct Hin as [Heq|Hin].
  - inversion Heq; subst k0 s0. unfold swept. cbn [fold_left fst].
    fold (swept files (if oversize (k, size) then set m k oversize_verdict else m)).
    rewrite get_swept_other by exact Hnotin.
    destruct (oversize (k, size)); [apply get_set_same | reflexivity].
  - unfold swept. cbn [fold_left fst].
    fold (swept files (if oversize (k0, s0) then set m k0 oversize_verdict else m)).
    rewrite (IH _ Hnd' Hin).
    destruct (oversize (k, size)); [reflexivity|].
    destruct (oversize (k0, s0)); [|reflexivity].
    apply get_set_other. intros ->. apply Hnotin.
    apply (in_map fst) in Hin. exact Hin.
Qed.

Lemma sweep_step_run k size m flag (w : W) :
  sweep_step (k, size) (m, flag) w
  = (w,
     if oversize (k, size) then [EvPrint (LogOversize k size)] else [],
     Ok (if oversize (k, size) then (set m k oversize_verdict, true) else (m, flag))).
Proof.
  unfold sweep_step, oversize. cbn [snd].
  destruct (size >? FIVE_GB)%Z; reflexivity.
Qed.

Lemma sweep_fold_run files m flag (w : W) :
  let run := for_fold files (m, flag) sweep_step w in
  result_of run = Ok (swept files m, flag || existsb oversize files)
  /\ world_of run = w
  /\ copies (trace_of run) = []
  /\ deletes (trace_of run) = [].
Proof.
  cbn zeta. revert m flag.
  induction files as [|[k size] files IH]; intros m flag.
  - cbn. rewrite orb_false_r. repeat split.
  - rewrite for_fold_cons, sweep_step_run. unfold swept.
    cbn [fold_left fst snd existsb result_of world_of trace_of].
    destruct (oversize (k, size)).
    + destruct (IH (set m k oversize_verdict) true) as (Hr & Hw & Hc & Hd).
      split; [|split; [exact Hw|split]].
      * rewrite Hr. now rewrite orb_true_r.
      * rewrite copies_app, Hc. reflexivity.
      * rewrite deletes_app, Hd. reflexivity.
    + destruct (IH m flag) as (Hr & Hw & Hc & Hd).
      split; [|split; [exact Hw|split]].
      * exact Hr.
      * rewrite copies_app, Hc. reflexivity.
      * rewrite deletes_app, Hd. reflexivity.
Qed.

Lemma size_sweep_run files m flag (w : W) :
  let run := size_sweep files (m, flag) w in
  result_of run
  = Ok (if flag then m else swept files m, flag || existsb oversize files)
  /\ world_of run = w
  /\ copies (trace_of run) = []
  /\ deletes (trace_of run) = [].
Proof.
  cbn zeta. unfold size_sweep. cbn [snd]. destruct flag.
  - repeat split.
  - apply sweep_fold_run.
Qed.

Lemma print_run l (w : W) : print l w = (w, [EvPrint l], Ok tt).
Proof. reflexivity. Qed.

Lemma In_map_firstn {A B} (f : A -> B) n l y :
  In y (map f (firstn n l)) -> exists x, In x l /\ y = f x.
Proof.
  intros H. apply in_map_iff in H as [x [<- Hin]].
  exists x. split; [|reflexivity].
  rewrite <- (firstn_skipn n l). apply in_app_iff. now left.
Qed.

(** Where the routing step sends things: every copy it attempts goes from
    the landing bucket to the one destination of the decision; when it
    returns, each entry of the map has had its copy, folder placeholders
    are copied only on quarantine and are deleted from the landing bucket
    otherwise. *)
Lemma route_batch_run folders m q w :
  let run := route_batch sys env folders (m, q) w in
  let to_dest := fun key => (destination env q, LANDING_BUCKET_NAME env, key) in
  (forall c, In c (copies (trace_of run)) ->
             exists key, In key (keys m ++ folders) /\ c = to_dest key)
  /\ (result_of run = Ok tt ->
      copies (trace_of run) = map to_dest (keys m ++ if q then folders else [])
      /\ (q = false ->
          forall key, In key folders ->
                      In (LANDING_BUCKET_NAME env, key) (deletes (trace_of run)))).
Proof.
  cbn zeta. unfold route_batch.
  destruct q; cbn [destination];
    rewrite bind_run, print_run;
    cbn [result_of world_of trace_of fst snd];
    rewrite bind_run;
    match goal with
    | |- context [move_and_tag_files sys env ?d m w] =>
        destruct (move_and_tag_files_copies sys env d m w) as [n [Hc Hok]];
        destruct (result_of (move_and_tag_files sys env d m w)) as [[]|e] eqn:E
    end;
    cbn [result_of world_of trace_of fst snd app copies deletes].
  - match goal with
    | |- context [quarantine_folders sys env ?l folders ?w1] =>
        destruct (quarantine_folders_run sys env l folders w1) as [Hqr Hqc]
    end.
    rewrite copies_app, Hc, Hqc, (Hok eq_refl), <- map_app. split.
    + intros c Hin. apply in_map_iff in Hin as [key [<- Hin]]. now exists key.
    + intros _. split; [reflexivity | discriminate].
  - rewrite Hc. split; [|discriminate].
    intros c Hin. apply In_map_firstn in Hin as [key [Hin ->]].
    exists key. split; [|reflexivity]. apply in_app_iff. now left.
  - match goal with
    | |- context [delete_folders sys env folders ?w1] =>
        destruct (delete_folders_run sys env folders w1) as (Hdr & Hdc & Hdd)
    end.
    rewrite copies_app, deletes_app, Hc, Hdc, Hdd, (Hok eq_refl), !app_nil_r. split.
    + intros c Hin. apply in_map_iff in Hin as [key [<- Hin]].
      exists key. split; [|reflexivity]. apply in_app_iff. now left.
    + intros _. split; [reflexivity|]. intros _ key Hin.
      apply in_app_iff. right.
      apply in_map_iff. now exists key.
  - rewrite Hc. split; [|discriminate].
    intros c Hin. apply In_map_firstn in Hin as [key [Hin ->]].
    exists key. split; [|reflexivity]. apply in_app_iff. now left.
Qed.

Lemma route_batch_returns folders m q w :
  existsb raises_other (trace_of (route_batch sys env folders (m, q) w)) = false ->
  result_of (route_batch sys env folders (m, q) w) = Ok tt.
Proof.
  unfold route_batch.
  destruct q; rewrite bind_run, print_run;
    cbn [result_of world_of trace_of fst snd];
    rewrite bind_run;
    match goal with
    | |- context [move_and_tag_files sys env ?d m w] =>
        pose proof (move_and_tag_files_returns sys env d m w) as Hrouter;
        destruct (result_of (move_and_tag_files sys env d m w)) as [[]|e]
    end;
    cbn [result_of world_of trace_of fst snd app existsb raises_other orb]; intros Hno.
  - apply quarantine_folders_run.
  - specialize (Hrouter Hno). discriminate Hrouter.
  - apply delete_folders_run.
  - specialize (Hrouter Hno). discriminate Hrouter.
Qed.

Lemma existsb_bad_verdict (m : dict Verdict) :
  existsb bad_verdict m = true <->
  exists key v, In (key, v) m /\ (fst v = Infected \/ fst v = Error).
Proof.
  rewrite existsb_exists. unfold bad_verdict. split.
  - intros [[key v] [Hin Hb]]. exists key, v. split; [exact Hin|].
    cbn in Hb. destruct (fst v); [discriminate | now left | now right].
  - intros [key [v [Hin Hb]]]. exists (key, v). split; [exact Hin|].
    cbn. destruct Hb as [-> | ->]; reflexivity.
Qed.

Lemma existsb_oversize (files : dict Z) :
  existsb oversize files = true <->
  exists key size, In (key, size) files /\ (FIVE_GB < size)%Z.
Proof.
  rewrite existsb_exists. unfold oversize. split.
  - intros [[key size] [Hin Hb]]. exists key, size. split; [exact Hin|].
    cbn in Hb. now apply Z.gtb_lt.
  - intros [key [size [Hin Hb]]]. exists (key, size). split; [exact Hin|].
    cbn. now apply Z.gtb_lt.
Qed.

(** C1, amended. For the batch listed in [pages] and scanned from [w0]
    (the scan loop leaves the map [m] and the world [w]):
    the flag after the size sweep is set exactly when some verdict is
    infected or error or some file is above 5 GiB; every copy the routing
    step attempts, even in a run cut short, goes from the landing bucket to
    the single destination that the flag selects; the step returns unless a
    call raises something other than a storage error, and when it returns,
    every file key, the commit marker included, has had its copy to that
    destination; folder placeholders are copied there as well on
    quarantine, and on a processed batch they are deleted from the landing
    bucket and copied nowhere. *)
Theorem decision_applied_uniformly pages w0 :
  let files := fst (collect_pages pages) in
  let folders := snd (collect_pages pages) in
  let m := key_verdicts sys env (keys files) w0 in
  let w := after_keys sys env (keys files) w0 in
  let quarantine := existsb bad_verdict m || existsb oversize files in
  let run := decide_and_route sys env files folders (m, existsb bad_verdict m) w in
  let to_dest := fun key => (destination env quarantine, LANDING_BUCKET_NAME env, key) in
  result_of (scan_loop sys env files w0) = Ok (m, existsb bad_verdict m)
  /\ world_of (scan_loop sys env files w0) = w
  /\ (exists m', result_of (size_sweep files (m, existsb bad_verdict m) w)
                 = Ok (m', quarantine)
                 /\ keys m' = keys files)
  /\ (quarantine = true <->
      (exists key v, In (key, v) m /\ (fst v = Infected \/ fst v = Error))
      \/ (exists key size, In (key, size) files /\ (FIVE_GB < size)%Z))
  /\ (forall c, In c (copies (trace_of run)) -> exists key, c = to_dest key)
  /\ (existsb raises_other (trace_of run) = false -> result_of run = Ok tt)
  /\ (result_of run = Ok tt ->
      copies (trace_of run)
      = map to_dest (keys files ++ if quarantine then folders else [])
      /\ (quarantine = false ->
          forall key, In key folders ->
            In (LANDING_BUCKET_NAME env, key) (deletes (trace_of run))
            /\ forall dst src, ~ In (dst, src, key) (copies (trace_of run)))).
Proof.
  intros files folders m w quarantine run to_dest.
  destruct (collect_pages_ok pages) as (Hnd & Hfiles & Hfolders).
  fold files in Hnd, Hfiles. fold folders in Hfolders.
  assert (Hkm : keys m = keys files) by apply keys_key_verdicts.
  destruct (size_sweep_run files m (existsb bad_verdict m) w) as (Hr & Hw & Hc & Hd).
  assert (Hkm' : keys (if existsb bad_verdict m then m else swept files m) = keys files).
  { destruct (existsb bad_verdict m); [exact Hkm|].
    rewrite keys_swept; [exact Hkm|]. intros k Hk. now rewrite Hkm. }
  destruct (route_batch_run folders
              (if existsb bad_verdict m then m else swept files m) quarantine w)
    as [Hall Hdone].
  assert (Hrun : run = (world_of (route_batch sys env folders
                                    (if existsb bad_verdict m then m else swept files m,
                                     quarantine) w),
                        trace_of (size_sweep files (m, existsb bad_verdict m) w)
                        ++ trace_of (route_batch sys env folders
                                       (if existsb bad_verdict m then m else swept files m,
                                        quarantine) w),
                        result_of (route_batch sys env folders
                                     (if existsb bad_verdict m then m else swept files m,
                                      quarantine) w))).
  { unfold run, decide_and_route. rewrite bind_run, Hr, Hw. reflexivity. }
  split; [apply (scan_loop_run sys env files w0 Hnd)|].
  split; [apply (scan_loop_run sys env files w0 Hnd)|].
  split; [eexists; split; [exact Hr | exact Hkm']|].
  split.
  { unfold quarantine. rewrite orb_true_iff, existsb_bad_verdict, existsb_oversize.
    reflexivity. }
  rewrite Hrun. cbn [trace_of result_of fst snd]. rewrite copies_app, deletes_app, Hc, Hd.
  cbn [app]. split; [|split].
  - intros c Hin. destruct (Hall c Hin) as [key [_ ->]]. now exists key.
  - intros Hno. apply existsb_app_false in Hno as [_ Hno].
    now apply route_batch_returns.
  - intros Hok. destruct (Hdone Hok) as [Hcopies Hdel]. rewrite Hkm' in Hcopies.
    split; [exact Hcopies|].
    intros Hq key Hin. split; [now apply Hdel|].
    intros dst src Hcopy. rewrite Hcopies, Hq, app_nil_r in Hcopy.
    apply in_map_iff in Hcopy as [key' [Heq Hin']].
    inversion Heq; subst key'.
    pose proof (Hfiles key Hin') as Hfile. pose proof (Hfolders key Hin) as Hfolder.
    congruence.
Qed.

(** C5, amended. A key that ends in the commit suffix is recorded clean
    without any call (no download, no scan).  The size sweep makes no
    exception for it: when the sweep runs, each listed file above 5 GiB,
    commit marker or not, is set to the size-limit error and the flag is
    raised, and each file within the limit keeps its verdict; when the flag
    is already set the sweep leaves the map as it is. *)
Theorem commit_marker_clean_but_swept files m (w : W) :
  NoDup (keys files) ->
  (forall key wk, endswith key "_commit.json" = true ->
                  scan_file sys env key wk = (wk, [], Ok (Clean, None)))
  /\ (exists m', result_of (size_sweep files (m, false) w)
                 = Ok (m', existsb oversize files)
                 /\ forall key size, In (key, size) files ->
                      get m' key = if (size >? FIVE_GB)%Z then Some oversize_verdict
                                   else get m key)
  /\ result_of (size_sweep files (m, true) w) = Ok (m, true).
Proof.
  intros Hnd. split; [|split].
  - intros key wk Hc. unfold scan_file. now rewrite Hc.
  - exists (swept files m). split.
    + apply (size_sweep_run files m false w).
    + intros key size Hin. apply (get_swept files m key size Hnd Hin).
  - reflexivity.
Qed.

End Routing.

(** ** Runs in the in-memory world *)

(** C1, as worded, fails on a clean batch with a folder placeholder: the
    placeholder is deleted from the landing bucket, not copied to the
    processed bucket. *)
Lemma clean_folder_not_copied : ~ every_member_copied_to_destination.
Proof.
  intros H.
  specialize (H MemWorld mem_sys mem_env [Some sample_clean_listing] sample_clean_world
                eq_refl "b/sub/").
  cbn zeta in H.
  assert (Hin : In "b/sub/"
                  (keys (fst (collect_pages [Some sample_clean_listing]))
                   ++ snd (collect_pages [Some sample_clean_listing])))
    by (vm_compute; tauto).
  specialize (H Hin). vm_compute in H.
  destruct H as [H|[H|[]]]; discriminate H.
Qed.

(** The clean batch: both files are copied to the processed bucket and the
    folder placeholder is deleted from the landing bucket. *)
Lemma decision_applied_uniformly_witness :
  let files := fst (collect_pages [Some sample_clean_listing]) in
  let folders := snd (collect_pages [Some sample_clean_listing]) in
  let m := key_verdicts mem_sys mem_env (keys files) sample_clean_world in
  let w := after_keys mem_sys mem_env (keys files) sample_clean_world in
  let run := decide_and_route mem_sys mem_env files folders (m, existsb bad_verdict m) w in
  result_of run = Ok tt
  /\ copies (trace_of run)
     = [(Some "processed", Some "landing", "b/a.txt");
        (Some "processed", Some "landing", "b/_commit.json")]
  /\ In (Some "landing", "b/sub/") (deletes (trace_of run)).
Proof.
  cbn zeta.
  destruct (decision_applied_uniformly mem_sys mem_env [Some sample_clean_listing]
              sample_clean_world) as (_ & _ & _ & _ & _ & _ & H).
  destruct (H eq_refl) as [Hcopies Hfolders].
  split; [reflexivity|]. split; [exact Hcopies|].
  destruct (Hfolders eq_refl "b/sub/") as [Hdeleted _]; [now left | exact Hdeleted].
Defined.

(** Outside the routing step: an exception that is not a storage error
    escapes the router, and the outer handler sends what is left of the
    batch to quarantine. *)
Example system_error_after_partial_move :
  let run := handler mem_sys mem_env (S3Event "b/_commit.json") sample_cut_world in
  statusCode_of (result_of run) = Some 500%Z
  /\ mw_copies (world_of run)
     = [("processed", "b/a.txt"); ("quarantine", "b/b.txt");
        ("quarantine", "b/_commit.json")].
Proof. split; reflexivity. Qed.

(** C5, as worded, fails on a commit marker above the limit. *)
Lemma big_marker_downgraded : ~ marker_exempt_from_sweep.
Proof.
  intros H.
  specialize (H unit sample_big_marker
                [("b/a.txt", (Clean, None)); ("b/_commit.json", (Clean, None))]
                [("b/a.txt", (Clean, None)); ("b/_commit.json", oversize_verdict)]
                false true tt "b/_commit.json" eq_refl eq_refl eq_refl).
  vm_compute in H. discriminate H.
Qed.

Lemma commit_marker_clean_but_swept_witness :
  NoDup (keys sample_big_marker)
  /\ scan_file mem_sys mem_env "b/_commit.json" sample_clean_world
     = (sample_clean_world, [], Ok (Clean, None))
  /\ exists m',
       result_of (size_sweep sample_big_marker
                    ([("b/a.txt", (Clean, None)); ("b/_commit.json", (Clean, None))], false)
                    sample_clean_world)
       = Ok (m', true)
       /\ get m' "b/_commit.json" = Some oversize_verdict
       /\ get m' "b/a.txt" = Some (Clean, None).
Proof.
  assert (Hnd : NoDup (keys sample_big_marker)).
  { repeat (constructor; [simpl; intuition discriminate|]). constructor. }
  destruct (commit_marker_clean_but_swept mem_sys mem_env sample_big_marker
              [("b/a.txt", (Clean, None)); ("b/_commit.json", (Clean, None))]
              sample_clean_world Hnd) as (Hscan & [m' [Hr Hget]] & _).
  split; [exact Hnd|]. split; [apply Hscan; reflexivity|].
  exists m'. split; [exact Hr|]. split.
  - apply (Hget "b/_commit.json" (FIVE_GB + 1)%Z). right. now left.
  - apply (Hget "b/a.txt" 10%Z). now left.
Defined.


(** The download of the first key fails, the second key is infected, the
    marker is clean: three entries, one each. *)
Lemma scan_loop_isolates_failures_witness :
  NoDup (keys sample_gone_files)
  /\ result_of (scan_loop mem_sys mem_env sample_gone_files sample_infected_world)
     = Ok ([("2024/05/batchA/gone.txt", (Error, Some (str_exn not_found_404)));
            ("2024/05/batchA/a.txt", (Infected, Some "Win.Test.EICAR_HDB-1"));
            ("2024/05/batchA/_commit.json", (Clean, None))],
           true).
Proof.
  assert (Hnd : NoDup (keys sample_gone_files)).
  { repeat (constructor; [simpl; intuition discriminate|]). constructor. }
  split; [exact Hnd|].
  exact (proj1 (scan_loop_isolates_failures mem_sys mem_env sample_gone_files
                  sample_infected_world Hnd)).
Defined.

(** Reading the tags is denied: the scan tags alone are written. *)
Lemma update_tags_read_failure_witness :
  sys_get_object_tagging mem_sys (Some "processed") "b/a.txt" sample_denied_world
  = (sample_denied_world, inl access_denied)
  /\ trace_of (update_tags mem_sys mem_env (Some "processed") "b/a.txt" Clean None
                 sample_denied_world)
     = [EvGetTags (Some "processed") "b/a.txt" (inl access_denied);
        EvPrint (LogGetTagsFailed "b/a.txt" access_denied);
        EvPutTags (Some "processed") "b/a.txt"
          [("scan-result", "clean"); ("scan-time", scan_time mem_env)] None].
Proof.
  assert (H : sys_get_object_tagging mem_sys (Some "processed") "b/a.txt" sample_denied_world
              = (sample_denied_world, inl access_denied)) by reflexivity.
  split; [exact H|].
  rewrite (proj1 (update_tags_read_failure mem_sys mem_env (Some "processed") "b/a.txt"
                    Clean None sample_denied_world sample_denied_world _ _ H)).
  reflexivity.
Defined.

(** The same object in the in-memory world: the owner's tag is gone after
    the denied read, and kept when the read succeeds. *)
Example owner_tag_lost_on_denied_read :
  mw_tags (world_of (update_tags mem_sys mem_env (Some "processed") "b/a.txt" Clean None
                       sample_denied_world))
  = [("processed", "b/a.txt",
      [("scan-result", "clean"); ("scan-time", scan_time mem_env)])].
Proof. reflexivity. Qed.

Example owner_tag_kept_on_successful_read :
  mw_tags (world_of (update_tags mem_sys mem_env (Some "processed") "b/a.txt" Clean None
                       (with_tags [("processed", "b/a.txt", [("owner", "etl")])]
                          sample_clean_world)))
  = [("processed", "b/a.txt",
      [("owner", "etl"); ("scan-result", "clean"); ("scan-time", scan_time mem_env)])].
Proof. reflexivity. Qed.

(** C6 at its failing input: the listing holds the commit marker and a
    folder placeholder, no data file, and the definitions archive cannot be
    downloaded.  The file map is not empty (it holds the marker), so the
    empty-batch branch is not taken; the handler goes on to download the
    definitions, fails, answers 500 and copies marker and placeholder to
    the quarantine bucket. *)
Theorem marker_only_batch_quarantined :
  let run := handler mem_sys mem_env (S3Event "b/_commit.json") sample_marker_only_world in
  collect_pages (fst (snd (mem_list_objects (Some "landing") "b/" sample_marker_only_world)))
  = ([("b/_commit.json", 2%Z)], ["b/sub/"])
  /\ statusCode_of (result_of run) = Some 500%Z
  /\ copies (trace_of run)
     = [(Some "quarantine", Some "landing", "b/_commit.json");
        (Some "quarantine", Some "landing", "b/sub/")]
  /\ In (EvPutTags (Some "quarantine") "b/_commit.json"
           [("scan-result", "error"); ("scan-time", scan_time mem_env);
            ("scan-error", str_exn not_found_404)] None)
        (trace_of run).
Proof.
  cbn zeta. split; [reflexivity|]. split; [reflexivity|]. split; [reflexivity|].
  vm_compute. tauto.
Qed.

(** The same batch with a marker above 5 GiB and the definitions in place
    is quarantined by the size sweep. *)
Example oversize_marker_only_batch_quarantined :
  copies (trace_of (handler mem_sys mem_env (S3Event "b/_commit.json")
                      (mem_world [("b/_commit.json", (FIVE_GB + 1)%Z)] [] true)))
  = [(Some "quarantine", Some "landing", "b/_commit.json")].
Proof. reflexivity. Qed.

(** With the definitions in place and a small marker, the same batch ends
    processed, through the scan path. *)
Example marker_only_batch_processed :
  let run := handler mem_sys mem_env (S3Event "b/_commit.json")
               (mem_world [("b/sub/", 0%Z); ("b/_commit.json", 2%Z)] [] true) in
  statusCode_of (result_of run) = Some 200%Z
  /\ copies (trace_of run) = [(Some "processed", Some "landing", "b/_commit.json")]
  /\ In (Some "landing", "b/sub/") (deletes (trace_of run))
  /\ In (EvDownload (Some "definitions") "clamav.tar.gz" "/tmp/clamav/clamav.tar.gz" None)
        (trace_of run).
Proof.
  cbn zeta. split; [reflexivity|]. split; [reflexivity|].
  split; vm_compute; tauto.
Qed.

Section Branches.

Context {W : Type}.
Variable sys : Sys W.
Variable env : Env.

(** The empty-batch branch, which is entered only when the file map holds
    no key at all: the trigger key is the one entry moved, to the processed
    bucket, and each folder placeholder is deleted, none copied. *)
Lemma empty_file_map_branch trigger prefix folders w :
  let run := process_batch sys env trigger prefix [] folders w in
  (forall c, In c (copies (trace_of run)) ->
             c = (PROCESSED_BUCKET_NAME env, LANDING_BUCKET_NAME env, trigger))
  /\ (forall r, result_of run = Ok r ->
        r = response 200 "Empty batch processed successfully"
        /\ copies (trace_of run)
           = [(PROCESSED_BUCKET_NAME env, LANDING_BUCKET_NAME env, trigger)]
        /\ forall key, In key folders ->
             In (LANDING_BUCKET_NAME env, key) (deletes (trace_of run))).
Proof.
  cbn zeta. unfold process_batch.
  rewrite bind_run, print_run. cbn [result_of world_of trace_of fst snd].
  rewrite bind_run.
  destruct (move_and_tag_files_copies sys env (PROCESSED_BUCKET_NAME env)
              (set [] trigger (Clean, None)) w) as [n [Hc Hok]].
  destruct (result_of (move_and_tag_files sys env (PROCESSED_BUCKET_NAME env)
                         (set [] trigger (Clean, None)) w)) as [[]|e] eqn:E;
    cbn [result_of world_of trace_of fst snd app copies deletes].
  - rewrite bind_run.
    match goal with
    | |- context [delete_folders sys env folders ?w1] =>
        destruct (delete_folders_run sys env folders w1) as (Hdr & Hdc & Hdd)
    end.
    rewrite Hdr. cbn [result_of world_of trace_of fst snd ret].
    rewrite !copies_app, !deletes_app, Hc, Hdc, Hdd, (Hok eq_refl).
    cbn [keys set map fst app copies]. split.
    + intros c [<-|[]]. reflexivity.
    + intros r [= <-]. split; [reflexivity|]. split; [reflexivity|].
      intros key Hin. apply in_app_iff. right. apply in_app_iff. left.
      apply in_map_iff. now exists key.
  - rewrite Hc. split; [|discriminate].
    intros c Hin. apply In_map_firstn in Hin as [key [Hin ->]].
    destruct Hin as [<-|[]]. reflexivity.
Qed.

(** After a download, the scratch file is removed exactly when the scanner
    returns a verdict. *)
Lemma scratch_file_removal key m flag w w1 w2 exit_code stdout stderr :
  endswith key "_commit.json" = false ->
  sys_download_file sys (LANDING_BUCKET_NAME env) key (local_file_path key) w
  = (w1, None) ->
  sys_run_command sys (clamscan_command (local_file_path key)) w1
  = (w2, inr (exit_code, stdout, stderr)) ->
  let run := scan_step sys env key (m, flag) w in
  downloads (trace_of run) = [local_file_path key]
  /\ removals (trace_of run)
     = if (exit_code =? 0)%Z || (exit_code =? 1)%Z then [local_file_path key] else [].
Proof.
  intros Hc Hd Hr. cbn zeta. unfold scan_step, scan_file. rewrite Hc.
  unfold run_scan, os_remove, catch, bind, print, download_file, run_command,
    trace_of, ret, raise.
  rewrite Hd. cbn -[clamscan_command local_file_path scan_outcome].
  rewrite Hr. cbn -[clamscan_command local_file_path scan_outcome].
  unfold scan_outcome.
  destruct (String.eqb stderr EmptyString);
    cbn -[clamscan_command local_file_path];
    destruct (exit_code =? 0)%Z; cbn -[clamscan_command local_file_path];
    try destruct (exit_code =? 1)%Z; cbn -[clamscan_command local_file_path];
    try destruct (sys_remove sys (local_file_path key) w2) as [w3 [e|]];
    split; reflexivity.
Qed.

End Branches.

(** C9 at its failing input: the scanner exits with status 2 on [a.txt].
    The exception skips the removal, so the downloaded copy is still in the
    scratch directory when the handler returns. *)
Theorem scratch_file_left_after_scan_error :
  let run := handler mem_sys mem_env (S3Event "b/_commit.json") sample_scan_error_world in
  statusCode_of (result_of run) = Some 200%Z
  /\ In "/tmp/clamav/scan/a.txt" (downloads (trace_of run))
  /\ removals (trace_of run) = []
  /\ In "/tmp/clamav/scan/a.txt" (mw_scratch (world_of run)).
Proof.
  cbn zeta. split; [reflexivity|].
  split; [vm_compute; tauto|]. split; [reflexivity|].
  vm_compute. tauto.
Qed.

(** On a clean or infected file the scratch copy is removed. *)
Example scratch_file_removed_after_verdict :
  let run := handler mem_sys mem_env (S3Event "2024/05/batchA/_commit.json")
               sample_infected_world in
  removals (trace_of run) = ["/tmp/clamav/scan/a.txt"; "/tmp/clamav/scan/b.txt"]
  /\ mw_scratch (world_of run) = ["/tmp/clamav/clamav.tar.gz"].
Proof. split; reflexivity. Qed.

(** * Further properties of the handler *)

(** ** The sanitised error detail *)

Lemma take_length_min n s : String.length (take n s) = Nat.min n (String.length s).
Proof.
  revert s. induction n as [|n IH]; intros [|c s]; simpl; try reflexivity.
  now rewrite IH.
Qed.

Lemma replace_char_length c d s :
  String.length (replace s (String c EmptyString) (String d EmptyString))
  = String.length s.
Proof.
  unfold replace. induction s as [|x s IH]; simpl; [reflexivity|].
  rewrite andb_true_r. destruct (Ascii.eqb c x); simpl; now rewrite IH.
Qed.

Lemma replace_char_absent c new s :
  has_char c s = false -> replace s (String c EmptyString) new = s.
Proof.
  unfold replace. induction s as [|x s IH]; simpl; [reflexivity|].
  rewrite andb_true_r. intros H. apply orb_false_iff in H as [H1 H2].
  rewrite H1. now rewrite IH.
Qed.

Lemma take_all n s : String.length s <= n -> take n s = s.
Proof.
  revert s. induction n as [|n IH]; intros [|c s]; simpl; intros H;
    try reflexivity; try lia.
  rewrite IH by lia. reflexivity.
Qed.

(** X1. The sanitised detail has the length of the detail cut at 250:
    line breaks are replaced position by position, nothing is dropped
    before the cut.  A detail without line breaks and within 250
    characters is written unchanged. *)
Theorem safe_error_length_and_identity detail :
  String.length (safe_error detail) = Nat.min 250 (String.length detail)
  /\ (has_char (ascii_of_nat 10) detail = false ->
      has_char (ascii_of_nat 13) detail = false ->
      String.length detail <= 250 ->
      safe_error detail = detail).
Proof.
  unfold safe_error. split.
  - rewrite take_length_min. unfold LF, CR. now rewrite !replace_char_length.
  - intros Hlf Hcr Hlen. unfold LF, CR.
    rewrite (replace_char_absent _ _ detail Hlf).
    rewrite (replace_char_absent _ _ detail Hcr).
    now apply take_all.
Qed.

Lemma safe_error_length_and_identity_witness :
  has_char (ascii_of_nat 10) "ClamAV scan error. Exit code: 2. STDERR: " = false
  /\ has_char (ascii_of_nat 13) "ClamAV scan error. Exit code: 2. STDERR: " = false
  /\ String.length "ClamAV scan error. Exit code: 2. STDERR: " <= 250
  /\ safe_error "ClamAV scan error. Exit code: 2. STDERR: "
     = "ClamAV scan error. Exit code: 2. STDERR: ".
Proof.
  assert (H1 : has_char (ascii_of_nat 10) "ClamAV scan error. Exit code: 2. STDERR: " = false)
    by reflexivity.
  assert (H2 : has_char (ascii_of_nat 13) "ClamAV scan error. Exit code: 2. STDERR: " = false)
    by reflexivity.
  assert (H3 : String.length "ClamAV scan error. Exit code: 2. STDERR: " <= 250)
    by (vm_compute; lia).
  split; [exact H1|]. split; [exact H2|]. split; [exact H3|].
  exact (proj2 (safe_error_length_and_identity _) H1 H2 H3).
Defined.

(** ** Scan tags in the merged set *)

Lemma filter_key_kept env tags status detail key :
  mem key (additional_tags env status detail) = true ->
  filter (has_key key) (merge_tags env tags status detail)
  = filter (has_key key) (additional_tags env status detail).
Proof.
  intros Hmem. unfold merge_tags. rewrite filter_app.
  rewrite (filter_none (has_key key)); [reflexivity|].
  intros [k v] Hin. apply filter_In in Hin as [_ Hf].
  unfold has_key. cbn [fst] in *.
  destruct (String.eqb_spec k key) as [->|]; [|reflexivity].
  rewrite Hmem in Hf. discriminate Hf.
Qed.

(** X2. Whatever tags the object carried, repeated keys included, the set
    written back holds [scan-result] exactly once, with the status, and
    [scan-time] exactly once, with the process-wide scan time. *)
Theorem scan_result_and_time_written_once env tags status detail :
  filter (has_key "scan-result") (merge_tags env tags status detail)
  = [("scan-result", status_str status)]
  /\ filter (has_key "scan-time") (merge_tags env tags status detail)
     = [("scan-time", scan_time env)].
Proof.
  split.
  - rewrite filter_key_kept.
    + rewrite additional_tags_cases.
      destruct status, detail as [d|]; try reflexivity;
        destruct (String.eqb d EmptyString); reflexivity.
    + rewrite additional_tags_cases.
      destruct status, detail as [d|]; try reflexivity;
        destruct (String.eqb d EmptyString); reflexivity.
  - rewrite filter_key_kept.
    + rewrite additional_tags_cases.
      destruct status, detail as [d|]; try reflexivity;
        destruct (String.eqb d EmptyString); reflexivity.
    + rewrite additional_tags_cases.
      destruct status, detail as [d|]; try reflexivity;
        destruct (String.eqb d EmptyString); reflexivity.
Qed.

(** X3. A [virus-name] or [scan-error] tag left by an earlier scan is
    removed only by a new tag of the same key: [virus-name] goes only when
    the new verdict is infected with a non-empty name, [scan-error] only
    when it is an error with a non-empty detail.  In particular both
    survive a clean verdict. *)
Theorem stale_detail_tags_survive env tags status detail v :
  (In ("virus-name", v) tags ->
   status_eqb status Infected && truthy detail = false ->
   In ("virus-name", v) (merge_tags env tags status detail))
  /\ (In ("scan-error", v) tags ->
      status_eqb status Error && truthy detail = false ->
      In ("scan-error", v) (merge_tags env tags status detail))
  /\ (status_eqb status Infected && truthy detail = true ->
      forall d, detail = Some d ->
      filter (has_key "virus-name") (merge_tags env tags status detail)
      = [("virus-name", d)]).
Proof.
  split; [|split].
  - intros Hin Hno. apply merge_tags_In. left. split; [exact Hin|].
    rewrite additional_tags_cases.
    destruct status, detail as [d|]; try reflexivity;
      cbn in Hno; destruct (String.eqb d EmptyString); try reflexivity; discriminate.
  - intros Hin Hno. apply merge_tags_In. left. split; [exact Hin|].
    rewrite additional_tags_cases.
    destruct status, detail as [d|]; try reflexivity;
      cbn in Hno; destruct (String.eqb d EmptyString); try reflexivity; discriminate.
  - intros Hyes d ->. destruct status; try discriminate Hyes.
    cbn in Hyes. rewrite filter_key_kept; rewrite additional_tags_cases;
      destruct (String.eqb d EmptyString); try discriminate Hyes; reflexivity.
Qed.

Lemma stale_detail_tags_survive_witness :
  In ("virus-name", "Win.Test.EICAR_HDB-1")
    [("scan-result", "infected"); ("virus-name", "Win.Test.EICAR_HDB-1")]
  /\ In ("virus-name", "Win.Test.EICAR_HDB-1")
       (merge_tags mem_env
          [("scan-result", "infected"); ("virus-name", "Win.Test.EICAR_HDB-1")]
          Clean None)
  /\ filter (has_key "virus-name")
       (merge_tags mem_env [("virus-name", "Old.Name")] Infected (Some "Win.Test.EICAR_HDB-1"))
     = [("virus-name", "Win.Test.EICAR_HDB-1")].
Proof.
  assert (H : In ("virus-name", "Win.Test.EICAR_HDB-1")
                [("scan-result", "infected"); ("virus-name", "Win.Test.EICAR_HDB-1")])
    by (right; now left).
  split; [exact H|]. split.
  - exact (proj1 (stale_detail_tags_survive mem_env _ Clean None _) H eq_refl).
  - exact (proj2 (proj2 (stale_detail_tags_survive mem_env [("virus-name", "Old.Name")]
                           Infected (Some "Win.Test.EICAR_HDB-1") EmptyString))
             eq_refl _ eq_refl).
Defined.

(** ** Keys, prefixes and scratch paths *)

Lemma startswith_refl s : startswith s s = true.
Proof. induction s as [|c s IH]; cbn; [reflexivity|]. now rewrite Ascii.eqb_refl. Qed.

Lemma startswith_trans a b c :
  startswith a b = true -> startswith b c = true -> startswith a c = true.
Proof.
  revert a b. induction c as [|x c IH]; intros a b Hab Hbc; [reflexivity|].
  destruct b as [|y b]; [discriminate Hbc|].
  destruct a as [|z a]; [discriminate Hab|].
  cbn in *. apply andb_true_iff in Hab as [H1 H2].
  apply andb_true_iff in Hbc as [H3 H4].
  apply Ascii.eqb_eq in H1, H3. subst.
  rewrite Ascii.eqb_refl. cbn. now apply (IH a b).
Qed.

Lemma head_splits key : (head_upto_slash key ++ basename key)%string = key.
Proof.
  induction key as [|c s IH]; [reflexivity|]. cbn [head_upto_slash basename].
  destruct (has_char "/" s).
  - cbn. now rewrite IH.
  - destruct (Ascii.eqb_spec c "/"); reflexivity.
Qed.

Lemma startswith_append a b : startswith (a ++ b) a = true.
Proof. induction a as [|c a IH]; cbn; [reflexivity|]. now rewrite Ascii.eqb_refl. Qed.

Lemma head_is_prefix key : startswith key (head_upto_slash key) = true.
Proof. rewrite <- (head_splits key) at 1. apply startswith_append. Qed.

Lemma basename_slash_free key : has_char "/" (basename key) = false.
Proof.
  induction key as [|c s IH]; [reflexivity|]. cbn [basename].
  destruct (has_char "/" s) eqn:E; [exact IH|].
  destruct (Ascii.eqb c "/") eqn:Ec; [exact E|].
  cbn [has_char]. now rewrite Ascii.eqb_sym, Ec, E.
Qed.

Lemma endswith_cons c s suf :
  s <> EmptyString -> suf = "/" ->
  endswith (String c s) suf = endswith s suf.
Proof.
  intros Hs ->. cbn [endswith].
  destruct s as [|d s]; [contradiction|].
  destruct (String.eqb_spec (String c (String d s)) "/") as [H|_]; [discriminate H|].
  reflexivity.
Qed.

Lemma basename_nonempty key :
  key <> EmptyString -> endswith key "/" = false -> basename key <> EmptyString.
Proof.
  induction key as [|c s IH]; intros Hne Hend; [contradiction|].
  cbn [basename]. destruct (has_char "/" s) eqn:E.
  - assert (Hs : s <> EmptyString) by (intros ->; discriminate E).
    apply IH; [exact Hs|]. now rewrite <- (endswith_cons c s "/" Hs eq_refl).
  - destruct (Ascii.eqb_spec c "/") as [->|Hc]; [|discriminate].
    destruct s; [discriminate Hend | discriminate].
Qed.

(** X4. A key is the concatenation of its head (up to the last slash) and
    its base name; the base name holds no slash, and for a listed file (a
    non-empty key that does not end in a slash) it is not empty.  So the
    scratch path of a file is a file directly under [/tmp/clamav/scan/],
    and two keys share it exactly when their base names are equal. *)
Theorem scratch_path_is_flat key :
  (head_upto_slash key ++ basename key)%string = key
  /\ local_file_path key = ("/tmp/clamav/scan/" ++ basename key)%string
  /\ has_char "/" (basename key) = false
  /\ (key <> EmptyString -> endswith key "/" = false -> basename key <> EmptyString)
  /\ (forall key', local_file_path key = local_file_path key'
                   <-> basename key = basename key').
Proof.
  split; [apply head_splits|]. split; [reflexivity|].
  split; [apply basename_slash_free|]. split; [apply basename_nonempty|].
  intros key'. unfold local_file_path. split.
  - intros H. cbn in H. now inversion H.
  - intros ->. reflexivity.
Qed.

Lemma scratch_path_is_flat_witness :
  "2024/05/batchA/a.txt" <> EmptyString
  /\ endswith "2024/05/batchA/a.txt" "/" = false
  /\ basename "2024/05/batchA/a.txt" <> EmptyString
  /\ local_file_path "2024/05/batchA/a.txt" = local_file_path "other/a.txt".
Proof.
  destruct (scratch_path_is_flat "2024/05/batchA/a.txt") as (_ & _ & _ & Hne & Hsame).
  assert (H1 : "2024/05/batchA/a.txt" <> EmptyString) by discriminate.
  assert (H2 : endswith "2024/05/batchA/a.txt" "/" = false) by reflexivity.
  split; [exact H1|]. split; [exact H2|]. split; [exact (Hne H1 H2)|].
  apply Hsame. reflexivity.
Defined.

Lemma rstrip_slash_empty h : rstrip_slash h = EmptyString -> all_slashes h = true.
Proof.
  induction h as [|c h IH]; [reflexivity|]. cbn [rstrip_slash all_slashes].
  destruct (rstrip_slash h) eqn:E; [|discriminate].
  destruct (Ascii.eqb c "/"); [|discriminate]. intros _. now apply IH.
Qed.

Lemma rstrip_slash_prefix h :
  endswith h "/" = true -> startswith h (rstrip_slash h ++ "/") = true.
Proof.
  induction h as [|c h IH]; intros Hend; [discriminate Hend|].
  cbn [rstrip_slash]. destruct (rstrip_slash h) as [|d r] eqn:E.
  - pose proof (rstrip_slash_empty h E) as Hall.
    destruct (Ascii.eqb_spec c "/") as [->|Hc]; [reflexivity|].
    destruct h as [|x h].
    + cbn in Hend. destruct (Ascii.eqb_spec c "/"); [contradiction | discriminate Hend].
    + cbn in Hall. apply andb_true_iff in Hall as [Hx _].
      apply Ascii.eqb_eq in Hx. subst x. cbn. now rewrite Ascii.eqb_refl.
  - assert (Hh : h <> EmptyString) by (intros ->; discriminate E).
    rewrite (endswith_cons c h "/" Hh eq_refl) in Hend.
    cbn. rewrite Ascii.eqb_refl. cbn. exact (IH Hend).
Qed.

Lemma head_nonempty s : has_char "/" s = true -> head_upto_slash s <> EmptyString.
Proof.
  destruct s as [|d s]; [discriminate|]. cbn [head_upto_slash has_char].
  destruct (has_char "/" s); [discriminate|].
  rewrite orb_false_r, Ascii.eqb_sym. intros ->. discriminate.
Qed.

Lemma head_ends_in_slash key :
  head_upto_slash key = EmptyString \/ endswith (head_upto_slash key) "/" = true.
Proof.
  induction key as [|c s IH]; [now left|]. cbn [head_upto_slash].
  destruct (has_char "/" s) eqn:E.
  - right. destruct IH as [H0|H1].
    + exfalso. exact (head_nonempty s E H0).
    + destruct (head_upto_slash s) eqn:Eh; [discriminate H1|].
      rewrite endswith_cons; [exact H1 | discriminate | reflexivity].
  - destruct (Ascii.eqb_spec c "/") as [->|]; [right; reflexivity | now left].
Qed.

Lemma endswith_append_slash s : endswith (s ++ "/") "/" = true.
Proof. apply endswith_append. Qed.

(** X5. The batch prefix is empty or ends in a slash; it is empty when
    the trigger key holds no slash, so that a marker at the top level makes
    the whole landing bucket its batch.  When the key does not start with
    a slash the prefix is a prefix of the key: the marker is among the
    objects its own batch lists. *)
Theorem batch_prefix_covers_trigger key :
  (batch_prefix key = EmptyString \/ endswith (batch_prefix key) "/" = true)
  /\ (has_char "/" key = false -> batch_prefix key = EmptyString)
  /\ (startswith key "/" = false -> startswith key (batch_prefix key) = true).
Proof.
  unfold batch_prefix, dirname. split; [|split].
  - match goal with |- context [String.eqb ?d EmptyString] =>
      destruct (String.eqb d EmptyString) end;
      [now left | right; apply endswith_append_slash].
  - intros Hno.
    assert (Hh : head_upto_slash key = EmptyString).
    { destruct key as [|c s]; [reflexivity|]. cbn [head_upto_slash].
      cbn [has_char] in Hno. apply orb_false_iff in Hno as [Hc Hs].
      rewrite Hs. rewrite Ascii.eqb_sym, Hc. reflexivity. }
    rewrite Hh. reflexivity.
  - intros Hstart. pose proof (head_is_prefix key) as Hpre.
    destruct (head_upto_slash key) as [|x h] eqn:Eh; [reflexivity|].
    assert (Hx : Ascii.eqb x "/" = false).
    { destruct key as [|c s]; [discriminate Hpre|].
      cbn [startswith] in Hpre, Hstart. apply andb_true_iff in Hpre as [Hxc _].
      apply Ascii.eqb_eq in Hxc. subst c. rewrite andb_true_r in Hstart.
      now rewrite Ascii.eqb_sym. }
    cbn [String.eqb negb andb all_slashes]. rewrite Hx. cbn [andb negb].
    destruct (String.eqb_spec (rstrip_slash (String x h)) EmptyString) as [He|_].
    + apply rstrip_slash_empty in He. cbn in He. rewrite Hx in He. discriminate He.
    + apply (startswith_trans key (String x h)); [exact Hpre|].
      apply rstrip_slash_prefix.
      destruct (head_ends_in_slash key) as [H0|H1]; rewrite Eh in *;
        [discriminate H0 | exact H1].
Qed.

Lemma batch_prefix_covers_trigger_witness :
  startswith "2024/05/batchA/_commit.json" "/" = false
  /\ batch_prefix "2024/05/batchA/_commit.json" = "2024/05/batchA/"
  /\ startswith "2024/05/batchA/_commit.json"
       (batch_prefix "2024/05/batchA/_commit.json") = true
  /\ batch_prefix "_commit.json" = EmptyString.
Proof.
  destruct (batch_prefix_covers_trigger "2024/05/batchA/_commit.json") as (_ & _ & H).
  destruct (batch_prefix_covers_trigger "_commit.json") as (_ & H0 & _).
  split; [reflexivity|]. split; [reflexivity|]. split; [exact (H eq_refl)|].
  exact (H0 eq_refl).
Defined.

(** A key that starts with a slash and has no other directory is outside
    its own batch prefix. *)
Example leading_slash_marker_not_covered :
  batch_prefix "/_commit.json" = "//"
  /\ startswith "/_commit.json" (batch_prefix "/_commit.json") = false.
Proof. split; reflexivity. Qed.

(** ** The listing as a partition *)

Lemma collect_pages_listed pages :
  collect_pages pages = fold_left collect_object (listed pages) ([], []).
Proof.
  unfold collect_pages, listed. generalize (@nil (string * Z), @nil string).
  induction pages as [|page pages IH]; intros st; [reflexivity|].
  cbn [fold_left flat_map]. rewrite fold_left_app, IH.
  destruct page; reflexivity.
Qed.

Lemma collect_folders objs files folders :
  snd (fold_left collect_object objs (files, folders))
  = folders ++ map fst (filter is_folder objs).
Proof.
  revert files folders. induction objs as [|[k size] objs IH]; intros files folders.
  - cbn. now rewrite app_nil_r.
  - cbn [fold_left collect_object filter].
    change (is_folder (k, size)) with (endswith k "/").
    destruct (endswith k "/"); cbn [negb]; rewrite IH; [|reflexivity].
    cbn [map fst]. now rewrite <- app_assoc.
Qed.

Lemma collect_files_keys objs files folders k :
  In k (keys (fst (fold_left collect_object objs (files, folders))))
  <-> In k (keys files)
      \/ In k (map fst (filter (fun obj => negb (is_folder obj)) objs)).
Proof.
  revert files folders. induction objs as [|[k0 size] objs IH]; intros files folders.
  - cbn. tauto.
  - cbn [fold_left collect_object filter].
    change (is_folder (k0, size)) with (endswith k0 "/").
    destruct (endswith k0 "/"); cbn [negb]; rewrite IH; [tauto|].
    rewrite In_keys_set. cbn [map fst In]. intuition congruence.
Qed.

Lemma collect_files_exact objs files folders :
  NoDup (keys files ++ map fst objs) ->
  fst (fold_left collect_object objs (files, folders))
  = files ++ filter (fun obj => negb (is_folder obj)) objs.
Proof.
  revert files folders. induction objs as [|[k size] objs IH]; intros files folders Hnd.
  - cbn. now rewrite app_nil_r.
  - cbn [fold_left collect_object filter]. cbn [fst map] in Hnd.
    change (is_folder (k, size)) with (endswith k "/").
    destruct (endswith k "/"); cbn [negb].
    + apply IH. now apply NoDup_remove_1 in Hnd.
    + rewrite keys_set_fresh.
      * rewrite IH; [now rewrite <- app_assoc|].
        unfold keys. rewrite map_app, <- app_assoc. exact Hnd.
      * apply NoDup_remove_2 in Hnd. intros Hin. apply Hnd.
        apply in_app_iff. now left.
Qed.

Lemma collect_files_get objs files folders k size :
  get (fst (fold_left collect_object objs (files, folders))) k = Some size ->
  get files k = Some size \/ In (k, size) objs.
Proof.
  revert files folders. induction objs as [|[k0 s0] objs IH]; intros files folders.
  - cbn. tauto.
  - cbn [fold_left collect_object]. destruct (endswith k0 "/"); cbn [negb]; intros H.
    + destruct (IH _ _ H) as [H1|H1]; [now left | right; now right].
    + destruct (IH _ _ H) as [H1|H1]; [|right; now right].
      destruct (String.eqb_spec k0 k) as [->|Hne].
      * rewrite get_set_same in H1. inversion H1. right. now left.
      * rewrite get_set_other in H1 by congruence. now left.
Qed.

(** X6. The listing loop splits what is listed in two, losing nothing and
    adding nothing: the folder keys are the listed keys that end in a
    slash, in listing order; the keys of the file map are the other listed
    keys, each size is a listed size of its key, and when no key is listed
    twice the file map is the listing without its folder keys, in order. *)
Theorem listing_is_partitioned pages :
  let files := fst (collect_pages pages) in
  let folders := snd (collect_pages pages) in
  let not_folder := fun obj => negb (is_folder obj) in
  folders = map fst (filter is_folder (listed pages))
  /\ (forall k, In k (keys files) <-> In k (map fst (filter not_folder (listed pages))))
  /\ (forall k size, get files k = Some size -> In (k, size) (listed pages))
  /\ (NoDup (map fst (listed pages)) -> files = filter not_folder (listed pages)).
Proof.
  cbn zeta. rewrite collect_pages_listed. split; [|split; [|split]].
  - apply collect_folders.
  - intros k. rewrite collect_files_keys. cbn. tauto.
  - intros k size H. apply collect_files_get in H as [H|H]; [discriminate H | exact H].
  - intros Hnd. now rewrite collect_files_exact.
Qed.

Lemma listing_is_partitioned_witness :
  NoDup (map fst (listed [Some [("b/a.txt", 10%Z); ("b/sub/", 0%Z)]; None;
                          Some [("b/_commit.json", 2%Z)]]))
  /\ fst (collect_pages [Some [("b/a.txt", 10%Z); ("b/sub/", 0%Z)]; None;
                         Some [("b/_commit.json", 2%Z)]])
     = [("b/a.txt", 10%Z); ("b/_commit.json", 2%Z)].
Proof.
  assert (H : NoDup (map fst (listed [Some [("b/a.txt", 10%Z); ("b/sub/", 0%Z)]; None;
                                      Some [("b/_commit.json", 2%Z)]]))).
  { repeat (constructor; [simpl; intuition discriminate|]). constructor. }
  split; [exact H|].
  exact (proj2 (proj2 (proj2 (listing_is_partitioned _))) H).
Defined.

(** ** The system-error path *)

Lemma error_results_fold ks acc e :
  NoDup (keys acc ++ ks) ->
  fold_left
    (fun (m : dict Verdict) key =>
       if mem key m then m else set m key (Error, Some (str_exn e))) ks acc
  = acc ++ map (fun key => (key, (Error, Some (str_exn e)))) ks.
Proof.
  revert acc. induction ks as [|k ks IH]; intros acc Hnd.
  - cbn. now rewrite app_nil_r.
  - cbn [fold_left map].
    assert (Hk : ~ In k (keys acc)).
    { apply NoDup_remove_2 in Hnd. intros Hin. apply Hnd. apply in_app_iff. now left. }
    rewrite (proj2 (mem_false_In k acc) Hk), keys_set_fresh by exact Hk.
    rewrite IH; [now rewrite <- app_assoc|].
    unfold keys. rewrite map_app, <- app_assoc. exact Hnd.
Qed.

Lemma error_results_map_spec files e :
  NoDup (keys files) ->
  error_results_map files e
  = map (fun key => (key, (Error, Some (str_exn e)))) (keys files).
Proof.
  intros Hnd. unfold error_results_map. now rewrite error_results_fold.
Qed.

(** ** Order of the calls in the router *)

Ltac split_calls :=
  repeat match goal with
    | |- context [sys_copy_object ?s ?a ?b ?c ?w] =>
        destruct (sys_copy_object s a b c w) as [? [[? ?|?]|]]; cbn -[merge_tags]
    | |- context [sys_delete_object ?s ?a ?b ?w] =>
        destruct (sys_delete_object s a b w) as [? [[? ?|?]|]]; cbn -[merge_tags]
    | |- context [sys_get_object_tagging ?s ?a ?b ?w] =>
        destruct (sys_get_object_tagging s a b w) as [? [[? ?|?]|[?|]]]; cbn -[merge_tags]
    | |- context [sys_put_object_tagging ?s ?a ?b ?t ?w] =>
        destruct (sys_put_object_tagging s a b t w) as [? [[? ?|?]|]]; cbn -[merge_tags]
    | |- context [if ?b then _ else _] => destruct b; cbn -[merge_tags]
    end.

Ltac open_calls :=
  unfold update_tags, catch, bind, copy_object, delete_object,
    get_object_tagging, put_object_tagging, print, ret, raise,
    trace_of, result_of, world_of.

Lemma copied_ok_app a b : copied_ok (a ++ b) = copied_ok a ++ copied_ok b.
Proof.
  induction a as [|ev a IH]; simpl; [reflexivity|].
  destruct ev as [| | | | |? ? ? [?|]| | | | |]; simpl; now rewrite ?IH.
Qed.

Lemma deleted_ok_app a b : deleted_ok (a ++ b) = deleted_ok a ++ deleted_ok b.
Proof.
  induction a as [|ev a IH]; simpl; [reflexivity|].
  destruct ev as [| | | | | |? ? [?|]| | | |]; simpl; now rewrite ?IH.
Qed.

Lemma tag_writes_app a b : tag_writes (a ++ b) = tag_writes a ++ tag_writes b.
Proof.
  induction a as [|ev a IH]; simpl; [reflexivity|].
  destruct ev; simpl; now rewrite ?IH.
Qed.

Lemma merge_has_scan_result env tags status detail :
  In ("scan-result", status_str status) (merge_tags env tags status detail).
Proof.
  apply merge_tags_In. right. rewrite additional_tags_cases.
  apply in_app_iff. left. now left.
Qed.

Section RouterOrder.

Context {W : Type}.
Variable sys : Sys W.
Variable env : Env.

(** A property of traces that holds of the empty trace, of every
    iteration, and of concatenations, holds of the whole loop, whether it
    runs to its end or is cut by an exception. *)
Lemma for_each_trace {A} (P : list Ev -> Prop) (body : A -> M W unit) l :
  P [] ->
  (forall a b, P a -> P b -> P (a ++ b)) ->
  (forall x, In x l -> forall w, P (trace_of (body x w))) ->
  forall w, P (trace_of (for_each l body w)).
Proof.
  intros Hnil Happ. induction l as [|x l IH]; intros Hbody w; [exact Hnil|].
  rewrite for_each_cons.
  destruct (result_of (body x w)); cbn [trace_of fst snd].
  - apply Happ; [apply Hbody; now left|].
    apply IH. intros y Hy. apply Hbody. now right.
  - apply Hbody. now left.
Qed.

(** The same for the router, whose loop comes after the lookup of the
    landing bucket variable. *)
Lemma move_and_tag_files_trace (P : list Ev -> Prop) dest m w :
  P [] ->
  P [EvKeyError "LANDING_BUCKET_NAME"] ->
  (forall a b, P a -> P b -> P (a ++ b)) ->
  (forall landing, LANDING_BUCKET_NAME env = Some landing ->
     forall entry, In entry m ->
     forall w0, P (trace_of (move_one sys env dest landing entry w0))) ->
  P (trace_of (move_and_tag_files sys env dest m w)).
Proof.
  intros Hnil Hkey Happ Hbody.
  destruct (LANDING_BUCKET_NAME env) as [landing|] eqn:Hl.
  - rewrite (move_and_tag_files_set sys env dest m w landing Hl).
    apply for_each_trace; [exact Hnil | exact Happ | exact (Hbody landing eq_refl)].
  - rewrite (move_and_tag_files_unset sys env dest m w Hl). exact Hkey.
Qed.

Lemma deletes_follow_copies_app a b :
  deletes_follow_copies env a -> deletes_follow_copies env b ->
  deletes_follow_copies env (a ++ b).
Proof.
  unfold deletes_follow_copies. intros Ha Hb.
  now rewrite deletes_app, copied_ok_app, map_app, Ha, Hb.
Qed.

Lemma move_one_deletes dest landing entry w :
  LANDING_BUCKET_NAME env = Some landing ->
  deletes_follow_copies env (trace_of (move_one sys env dest landing entry w)).
Proof.
  intros Hl. destruct entry as [key [status detail]].
  unfold deletes_follow_copies, move_one. rewrite Hl. open_calls.
  split_calls; reflexivity.
Qed.

(** X8. Whatever the storage answers, the router and the folder move
    issue a delete in the landing bucket for exactly the keys whose copy
    has just succeeded, in the same order: no object is deleted from the
    landing bucket unless it was copied, and none is copied without its
    delete being issued. *)
Theorem deletes_only_after_copy dest m line folders w :
  deletes (trace_of (move_and_tag_files sys env dest m w))
  = map (fun key => (LANDING_BUCKET_NAME env, key))
      (copied_ok (trace_of (move_and_tag_files sys env dest m w)))
  /\ deletes (trace_of (quarantine_folders sys env line folders w))
     = map (fun key => (LANDING_BUCKET_NAME env, key))
         (copied_ok (trace_of (quarantine_folders sys env line folders w))).
Proof.
  split.
  - apply (move_and_tag_files_trace (deletes_follow_copies env));
      [reflexivity | reflexivity | apply deletes_follow_copies_app |].
    intros landing Hl entry _ w0. now apply move_one_deletes.
  - unfold quarantine_folders.
    apply (for_each_trace (deletes_follow_copies env));
      [reflexivity | apply deletes_follow_copies_app |].
    intros key _ w0. unfold deletes_follow_copies. open_calls.
    split_calls; reflexivity.
Qed.

Lemma tagged_after_move_app dest m a b :
  tagged_after_move env dest m a -> tagged_after_move env dest m b ->
  tagged_after_move env dest m (a ++ b).
Proof.
  unfold tagged_after_move. intros Ha Hb bucket key tags Hin.
  rewrite tag_writes_app in Hin. rewrite copied_ok_app, deleted_ok_app, !in_app_iff.
  apply in_app_iff in Hin as [Hin|Hin];
    [destruct (Ha _ _ _ Hin) as (H1 & H2 & H3 & H4)
    | destruct (Hb _ _ _ Hin) as (H1 & H2 & H3 & H4)]; auto.
Qed.

Lemma move_one_tagged dest landing m entry w :
  LANDING_BUCKET_NAME env = Some landing ->
  In entry m ->
  tagged_after_move env dest m (trace_of (move_one sys env dest landing entry w)).
Proof.
  destruct entry as [key [status detail]]. intros Hl Hm.
  unfold tagged_after_move, move_one. rewrite Hl. open_calls.
  split_calls; intros bucket k tags Hin; cbn -[merge_tags] in Hin;
    try contradiction;
    destruct Hin as [Hin|[]]; inversion Hin; subst;
    (split; [reflexivity|]); (split; [now left|]); (split; [now left|]);
    exists status, detail; (split; [exact Hm|]); apply merge_has_scan_result.
Qed.

Lemma move_and_tag_files_tagged dest m w :
  tagged_after_move env dest m (trace_of (move_and_tag_files sys env dest m w)).
Proof.
  apply (move_and_tag_files_trace (tagged_after_move env dest m));
    [intros ? ? ? [] | intros ? ? ? [] | apply tagged_after_move_app |].
  intros landing Hl entry Hentry w0. now apply move_one_tagged.
Qed.

Lemma quarantine_folders_no_tags line folders w :
  tag_writes (trace_of (quarantine_folders sys env line folders w)) = [].
Proof.
  unfold quarantine_folders.
  apply (for_each_trace (fun t => tag_writes t = [])); [reflexivity | |].
  - intros a b Ha Hb. now rewrite tag_writes_app, Ha, Hb.
  - intros key _ w0. open_calls. split_calls; reflexivity.
Qed.

(** X9. The router writes tags only on the destination bucket, only for
    an entry of its map whose copy and delete have both succeeded, and
    every tag set it writes carries the [scan-result] of that entry; when
    the keys of the map are distinct this is the status recorded for the
    key.  No tag is written in the landing bucket or on an object that was
    not moved. *)
Theorem tags_only_after_move dest m w bucket key tags :
  In (bucket, key, tags) (tag_writes (trace_of (move_and_tag_files sys env dest m w))) ->
  bucket = dest
  /\ In key (copied_ok (trace_of (move_and_tag_files sys env dest m w)))
  /\ In (LANDING_BUCKET_NAME env, key)
       (deleted_ok (trace_of (move_and_tag_files sys env dest m w)))
  /\ exists status detail,
       In (key, (status, detail)) m
       /\ In ("scan-result", status_str status) tags
       /\ (NoDup (keys m) -> get m key = Some (status, detail)).
Proof.
  intros Hin.
  destruct (move_and_tag_files_tagged dest m w _ _ _ Hin)
    as (H1 & H2 & H3 & status & detail & H4 & H5).
  repeat (split; [assumption|]).
  exists status, detail. split; [exact H4|]. split; [exact H5|].
  intros Hnd. clear -Hnd H4. induction m as [|[k v] m IH]; [contradiction|].
  inversion Hnd as [|? ? Hnotin Hnd']; subst. cbn [get].
  destruct H4 as [Heq|Hin].
  - inversion Heq; subst. now rewrite String.eqb_refl.
  - destruct (String.eqb_spec k key) as [->|_]; [|now apply IH].
    exfalso. apply Hnotin. apply (in_map fst) in Hin. exact Hin.
Qed.

End RouterOrder.

Lemma tags_only_after_move_witness :
  In (Some "quarantine", "2024/05/batchA/a.txt",
      [("scan-result", "infected"); ("scan-time", scan_time mem_env);
       ("virus-name", "Win.Test.EICAR_HDB-1")])
     (tag_writes (trace_of (move_and_tag_files mem_sys mem_env (Some "quarantine")
                              sample_rerun_map sample_infected_world)))
  /\ In "2024/05/batchA/a.txt"
       (copied_ok (trace_of (move_and_tag_files mem_sys mem_env (Some "quarantine")
                               sample_rerun_map sample_infected_world)))
  /\ tag_writes (trace_of (move_and_tag_files mem_sys mem_env (Some "quarantine")
                             sample_rerun_map sample_infected_world))
     = [(Some "quarantine", "2024/05/batchA/a.txt",
         [("scan-result", "infected"); ("scan-time", scan_time mem_env);
          ("virus-name", "Win.Test.EICAR_HDB-1")])].
Proof.
  assert (H : In (Some "quarantine", "2024/05/batchA/a.txt",
                  [("scan-result", "infected"); ("scan-time", scan_time mem_env);
                   ("virus-name", "Win.Test.EICAR_HDB-1")])
                (tag_writes (trace_of (move_and_tag_files mem_sys mem_env (Some "quarantine")
                                         sample_rerun_map sample_infected_world))))
    by (now left).
  split; [exact H|].
  split; [exact (proj1 (proj2 (tags_only_after_move mem_sys mem_env _ _ _ _ _ _ H)))|].
  reflexivity.
Defined.

Section SystemError.

Context {W : Type}.
Variable sys : Sys W.
Variable env : Env.

Lemma known_error_map trigger files e :
  NoDup (keys files) ->
  match error_results_map files e with
  | [] => set (error_results_map files e) trigger (Error, Some (str_exn e))
  | _ :: _ => error_results_map files e
  end
  = map (fun key => (key, (Error, Some (str_exn e))))
      (match files with [] => [trigger] | _ :: _ => keys files end).
Proof.
  intros Hnd. rewrite (error_results_map_spec files e Hnd).
  destruct files as [|[k size] files]; reflexivity.
Qed.

Lemma keys_error_map (ks : list string) (v : Verdict) :
  keys (map (fun key => (key, v)) ks) = ks.
Proof. unfold keys. rewrite map_map. cbn. apply map_id. Qed.

(** X7. The system-error path sends everything it knows to quarantine
    and nowhere else: every copy it issues goes from the landing bucket to
    the quarantine bucket, for a key of the file map (the trigger key alone
    when the map is empty) or a folder key; every tag set it writes is on
    the quarantine bucket and carries [scan-result = error]; and when it
    returns, all those copies have been issued, in order, and the answer is
    500 with the message of the exception. *)
Theorem system_error_quarantines_all trigger files folders e w :
  NoDup (keys files) ->
  let run := system_error sys env trigger files folders e w in
  let known := match files with [] => [trigger] | _ :: _ => keys files end in
  let to_quarantine :=
    fun key => (QUARANTINE_BUCKET_NAME env, LANDING_BUCKET_NAME env, key) in
  (forall c, In c (copies (trace_of run)) ->
             exists key, In key (known ++ folders) /\ c = to_quarantine key)
  /\ (forall bucket key tags, In (bucket, key, tags) (tag_writes (trace_of run)) ->
        bucket = QUARANTINE_BUCKET_NAME env /\ In ("scan-result", "error") tags)
  /\ (forall r, result_of run = Ok r ->
        r = response 500 ("An error occurred: " ++ str_exn e)
        /\ copies (trace_of run) = map to_quarantine (known ++ folders)).
Proof.
  intros Hnd run known to_quarantine. unfold run, system_error, system_error_from.
  cbv beta iota zeta.
  rewrite (known_error_map trigger files e Hnd). fold known.
  set (m := map (fun key => (key, (Error, Some (str_exn e)))) known).
  rewrite bind_run, print_run. cbn [result_of world_of trace_of fst snd].
  rewrite bind_run, print_run. cbn [result_of world_of trace_of fst snd].
  rewrite bind_run.
  destruct (move_and_tag_files_copies sys env (QUARANTINE_BUCKET_NAME env) m w)
    as [n [Hc Hok]].
  pose proof (move_and_tag_files_tagged sys env (QUARANTINE_BUCKET_NAME env) m w) as Htag.
  assert (Hkeys : @keys Verdict m = known) by apply keys_error_map.
  rewrite Hkeys in Hc, Hok.
  assert (Htags : forall bucket key tags,
             In (bucket, key, tags)
               (tag_writes (trace_of (move_and_tag_files sys env
                                        (QUARANTINE_BUCKET_NAME env) m w))) ->
             bucket = QUARANTINE_BUCKET_NAME env /\ In ("scan-result", "error") tags).
  { intros bucket key tags Hin.
    destruct (Htag _ _ _ Hin) as (H1 & _ & _ & status & detail & H4 & H5).
    split; [exact H1|]. unfold m in H4.
    apply in_map_iff in H4 as [k [Heq _]]. inversion Heq; subst. exact H5. }
  destruct (result_of (move_and_tag_files sys env (QUARANTINE_BUCKET_NAME env) m w))
    as [[]|e'] eqn:E;
    cbn [result_of world_of trace_of fst snd app copies tag_writes].
  - rewrite bind_run.
    match goal with
    | |- context [quarantine_folders sys env ?l folders ?w1] =>
        destruct (quarantine_folders_run sys env l folders w1) as [Hqr Hqc];
        pose proof (quarantine_folders_no_tags sys env l folders w1) as Hqt
    end.
    rewrite Hqr. cbn [result_of world_of trace_of fst snd ret].
    rewrite !copies_app, !tag_writes_app, Hc, Hqc, Hqt, (Hok eq_refl).
    cbn [copies tag_writes]. rewrite !app_nil_r, <- map_app.
    split; [|split].
    + intros c Hin. apply in_map_iff in Hin as [key [<- Hin]]. now exists key.
    + exact Htags.
    + intros r [= <-]. split; reflexivity.
  - rewrite Hc. split; [|split].
    + intros c Hin. apply In_map_firstn in Hin as [key [Hin ->]].
      exists key. split; [|reflexivity]. apply in_app_iff. now left.
    + exact Htags.
    + discriminate.
Qed.

End SystemError.

Lemma system_error_quarantines_all_witness :
  NoDup (keys sample_clean_listing)
  /\ copies (trace_of (system_error mem_sys mem_env "b/_commit.json"
                         [("b/a.txt", 10%Z); ("b/_commit.json", 2%Z)] ["b/sub/"]
                         bucket_not_set sample_clean_world))
     = [(Some "quarantine", Some "landing", "b/a.txt");
        (Some "quarantine", Some "landing", "b/_commit.json");
        (Some "quarantine", Some "landing", "b/sub/")].
Proof.
  assert (H : NoDup (keys sample_clean_listing)).
  { repeat (constructor; [simpl; intuition discriminate|]). constructor. }
  split; [exact H|].
  assert (H' : NoDup (keys [("b/a.txt", 10%Z); ("b/_commit.json", 2%Z)])).
  { repeat (constructor; [simpl; intuition discriminate|]). constructor. }
  destruct (system_error_quarantines_all mem_sys mem_env "b/_commit.json"
              [("b/a.txt", 10%Z); ("b/_commit.json", 2%Z)] ["b/sub/"]
              bucket_not_set sample_clean_world H') as (_ & _ & Hret).
  exact (proj2 (Hret _ eq_refl)).
Defined.

(** ** Downloading the definitions *)

Section Definitions.

Context {W : Type}.
Variable sys : Sys W.
Variable env : Env.

(** X10. Without a definitions bucket ([CLAMAV_DEFINITON_BUCKET_NAME]
    unset or empty) [definition_download] never returns normally, downloads
    nothing and runs no command: the directory is created and the missing
    variable is reported as an exception. *)
Theorem definition_download_needs_bucket w :
  CLAMAV_DEFINITON_BUCKET_NAME env = None
  \/ CLAMAV_DEFINITON_BUCKET_NAME env = Some EmptyString ->
  let run := definition_download sys env w in
  download_attempts (trace_of run) = []
  /\ commands (trace_of run) = []
  /\ (exists e, result_of run = Raise e)
  /\ (snd (sys_makedirs sys "/tmp/clamav/database" w) = None ->
      result_of run = Raise bucket_not_set).
Proof.
  intros Hb. cbn zeta. unfold definition_download, bind, makedirs, raise,
    trace_of, result_of.
  destruct (sys_makedirs sys "/tmp/clamav/database" w) as [w1 [e|]]; cbn.
  - repeat split; [now exists e | discriminate].
  - destruct Hb as [-> | ->]; cbn; repeat split; now exists bucket_not_set.
Qed.

(** X11. [definition_download] does not look at the exit status of the
    extraction: once the archive is downloaded and the [tar] command has
    returned, with whatever status, the function returns normally. *)
Theorem definition_download_ignores_tar_status w w1 w2 w3 bucket code out err :
  CLAMAV_DEFINITON_BUCKET_NAME env = Some bucket ->
  bucket <> EmptyString ->
  sys_makedirs sys "/tmp/clamav/database" w = (w1, None) ->
  sys_download_file sys (Some bucket) "clamav.tar.gz" "/tmp/clamav/clamav.tar.gz" w1
  = (w2, None) ->
  sys_run_command sys
    "tar --extract --gzip --verbose --file=/tmp/clamav/clamav.tar.gz -C /tmp/clamav/database"
    w2 = (w3, inr (code, out, err)) ->
  result_of (definition_download sys env w) = Ok tt
  /\ world_of (definition_download sys env w) = w3.
Proof.
  intros Hb Hne Hm Hd Hr.
  unfold definition_download, bind, makedirs, download_file, run_command, print,
    result_of, world_of.
  rewrite Hm, Hb. cbn. apply String.eqb_neq in Hne. rewrite Hne.
  rewrite Hd. cbn. rewrite Hr. split; reflexivity.
Qed.

End Definitions.

Lemma definition_download_needs_bucket_witness :
  (CLAMAV_DEFINITON_BUCKET_NAME unset_env = None
   \/ CLAMAV_DEFINITON_BUCKET_NAME unset_env = Some EmptyString)
  /\ result_of (definition_download mem_sys unset_env sample_clean_world)
     = Raise bucket_not_set.
Proof.
  assert (H : CLAMAV_DEFINITON_BUCKET_NAME unset_env = None
              \/ CLAMAV_DEFINITON_BUCKET_NAME unset_env = Some EmptyString)
    by (now left).
  split; [exact H|].
  exact (proj2 (proj2 (proj2 (definition_download_needs_bucket mem_sys unset_env
                                sample_clean_world H))) eq_refl).
Defined.

Lemma definition_download_ignores_tar_status_witness :
  sys_run_command failing_tar_sys
    "tar --extract --gzip --verbose --file=/tmp/clamav/clamav.tar.gz -C /tmp/clamav/database"
    (with_scratch ["/tmp/clamav/clamav.tar.gz"] sample_clean_world)
  = (with_scratch ["/tmp/clamav/clamav.tar.gz"] sample_clean_world,
     inr (2%Z, EmptyString, "tar: Unexpected EOF in archive"))
  /\ result_of (definition_download failing_tar_sys mem_env sample_clean_world) = Ok tt.
Proof.
  split; [reflexivity|].
  refine (proj1 (definition_download_ignores_tar_status failing_tar_sys mem_env
                   sample_clean_world sample_clean_world
                   (with_scratch ["/tmp/clamav/clamav.tar.gz"] sample_clean_world)
                   (with_scratch ["/tmp/clamav/clamav.tar.gz"] sample_clean_world)
                   "definitions" 2%Z EmptyString "tar: Unexpected EOF in archive"
                   eq_refl _ eq_refl eq_refl eq_refl)).
  discriminate.
Defined.

(** ** What the scan loop downloads and scans *)

Lemma download_attempts_app a b :
  download_attempts (a ++ b) = download_attempts a ++ download_attempts b.
Proof.
  induction a as [|ev a IH]; simpl; [reflexivity|].
  destruct ev; simpl; now rewrite ?IH.
Qed.

Lemma listings_app a b : listings (a ++ b) = listings a ++ listings b.
Proof.
  induction a as [|ev a IH]; simpl; [reflexivity|].
  destruct ev; simpl; now rewrite ?IH.
Qed.

Lemma downloads_app a b : downloads (a ++ b) = downloads a ++ downloads b.
Proof.
  induction a as [|ev a IH]; simpl; [reflexivity|].
  destruct ev as [| | |? ? ? [?|]| | | | | | |]; simpl; now rewrite ?IH.
Qed.

Lemma commands_app a b : commands (a ++ b) = commands a ++ commands b.
Proof.
  induction a as [|ev a IH]; simpl; [reflexivity|].
  destruct ev; simpl; now rewrite ?IH.
Qed.

Ltac split_scan_calls :=
  repeat match goal with
    | |- context [sys_download_file ?s ?a ?b ?c ?w] =>
        destruct (sys_download_file s a b c w) as [? [?|]];
        cbn -[clamscan_command local_file_path]
    | |- context [sys_run_command ?s ?c ?w] =>
        destruct (sys_run_command s c w) as [? [?|[[? ?] ?]]];
        cbn -[clamscan_command local_file_path]
    | |- context [sys_remove ?s ?p ?w] =>
        destruct (sys_remove s p w) as [? [?|]];
        cbn -[clamscan_command local_file_path]
    | |- context [if ?b then _ else _] =>
        destruct b; cbn -[clamscan_command local_file_path]
    end.

Section ScanCalls.

Context {W : Type}.
Variable sys : Sys W.
Variable env : Env.

Lemma for_fold_trace {A S} (P : list Ev -> Prop) (body : A -> S -> M W S) l :
  P [] ->
  (forall a b, P a -> P b -> P (a ++ b)) ->
  (forall x s w, P (trace_of (body x s w))) ->
  forall s w, P (trace_of (for_fold l s body w)).
Proof.
  intros Hnil Happ Hbody. induction l as [|x l IH]; intros s w; [exact Hnil|].
  rewrite for_fold_cons.
  destruct (result_of (body x s w)); cbn [trace_of fst snd].
  - apply Happ; [apply Hbody | apply IH].
  - apply Hbody.
Qed.

Lemma for_fold_total {A S X} (proj : list Ev -> list X) (g : A -> list X)
  (body : A -> S -> M W S) l :
  (forall a b, proj (a ++ b) = proj a ++ proj b) ->
  proj [] = [] ->
  (forall x s w, (exists s', result_of (body x s w) = Ok s')
                 /\ proj (trace_of (body x s w)) = g x) ->
  forall s w, proj (trace_of (for_fold l s body w)) = flat_map g l.
Proof.
  intros Happ Hnil Hbody. induction l as [|x l IH]; intros s w; [exact Hnil|].
  rewrite for_fold_cons. destruct (Hbody x s w) as [[s' Hr] Hp]. rewrite Hr.
  cbn [trace_of fst snd flat_map]. now rewrite Happ, Hp, IH.
Qed.

Lemma scan_step_downloads key st w :
  download_attempts (trace_of (scan_step sys env key st w))
  = if is_marker key then []
    else [(LANDING_BUCKET_NAME env, key, local_file_path key)].
Proof.
  destruct st as [m flag]. unfold is_marker, scan_step, scan_file.
  destruct (endswith key "_commit.json"); [reflexivity|].
  unfold run_scan, os_remove, download_file, run_command, catch, bind, print, ret,
    raise, trace_of, scan_outcome.
  split_scan_calls; reflexivity.
Qed.

Lemma scan_step_commands key st w :
  commands (trace_of (scan_step sys env key st w))
  = map clamscan_command (downloads (trace_of (scan_step sys env key st w))).
Proof.
  destruct st as [m flag]. unfold scan_step, scan_file.
  destruct (endswith key "_commit.json"); [reflexivity|].
  unfold run_scan, os_remove, download_file, run_command, catch, bind, print, ret,
    raise, trace_of, scan_outcome.
  split_scan_calls; reflexivity.
Qed.

(** X12. The scan loop attempts exactly one download per file key that
    is not a commit marker, in the order of the file map and to the scratch
    path of the key, whatever happened to the keys before it; it never
    downloads a marker; and it runs the scanner exactly once for each
    download that succeeded, on the file just downloaded. *)
Theorem scan_loop_downloads_each_file_once files w :
  let t := trace_of (scan_loop sys env files w) in
  download_attempts t
  = map (fun key => (LANDING_BUCKET_NAME env, key, local_file_path key))
      (filter (fun key => negb (is_marker key)) (keys files))
  /\ commands t = map clamscan_command (downloads t).
Proof.
  cbn zeta. unfold scan_loop. split.
  - rewrite (for_fold_total download_attempts
               (fun key => if is_marker key then []
                           else [(LANDING_BUCKET_NAME env, key, local_file_path key)])).
    + induction (keys files) as [|k ks IH]; [reflexivity|].
      cbn [flat_map filter]. destruct (is_marker k); cbn [negb app map]; now rewrite IH.
    + apply download_attempts_app.
    + reflexivity.
    + intros key [m flag] w0. split; [|apply scan_step_downloads].
      eexists. apply (scan_step_run sys env key m flag w0).
  - apply (for_fold_trace
             (fun t => commands t = map clamscan_command (downloads t))).
    + reflexivity.
    + intros a b Ha Hb. now rewrite commands_app, downloads_app, map_app, Ha, Hb.
    + intros key st w0. apply scan_step_commands.
Qed.

(** *** Triggers that start no batch *)

(** The end of the handler of system errors when no folder was listed. *)
Lemma system_error_tail dest m line (resp : Response) w :
  let r := move_and_tag_files sys env dest m w in
  bind (move_and_tag_files sys env dest m)
    (fun _ => bind (quarantine_folders sys env line []) (fun _ => ret resp)) w
  = (world_of r, trace_of r,
     match result_of r with
     | Ok _ => Ok resp
     | Raise e' => Raise e'
     end).
Proof.
  cbn zeta. rewrite bind_run.
  destruct (move_and_tag_files sys env dest m w) as [[w1 t1] [[]|e']];
    cbn; rewrite ?app_nil_r; reflexivity.
Qed.

(** The run on an event from which no batch can be read: the handler of
    system errors, with an empty file map and no folder. *)
Lemma handler_broken_run e trigger_key w :
  let m := match trigger_key with
           | Some key => [(key, (Error, Some (str_exn e)))]
           | None => []
           end in
  let r := move_and_tag_files sys env (QUARANTINE_BUCKET_NAME env) m w in
  handler sys env (BrokenEvent e trigger_key) w
  = (world_of r,
     EvPrint LogScanMode :: EvPrint (LogSystemError e)
       :: EvPrint LogQuarantineSystemError :: trace_of r,
     match result_of r with
     | Ok _ => Ok (response 500 ("An error occurred: " ++ str_exn e))
     | Raise e' => Raise e'
     end).
Proof.
  cbn zeta. unfold handler, system_error_from.
  rewrite bind_run, print_run. cbn [result_of world_of trace_of fst snd].
  rewrite catch_run. cbn [raise result_of world_of trace_of fst snd app].
  rewrite bind_run, print_run. cbn [result_of world_of trace_of fst snd].
  rewrite bind_run, print_run. cbn [result_of world_of trace_of fst snd].
  rewrite system_error_tail.
  destruct trigger_key; reflexivity.
Qed.

Lemma move_and_tag_files_starts_nothing dest m w :
  let t := trace_of (move_and_tag_files sys env dest m w) in
  listings t = [] /\ download_attempts t = [] /\ commands t = [].
Proof.
  cbn zeta.
  apply (move_and_tag_files_trace sys env
           (fun t => listings t = [] /\ download_attempts t = [] /\ commands t = []));
    [repeat split | repeat split | |].
  - intros a b (Ha1 & Ha2 & Ha3) (Hb1 & Hb2 & Hb3).
    now rewrite listings_app, download_attempts_app, commands_app,
      Ha1, Ha2, Ha3, Hb1, Hb2, Hb3.
  - intros landing _ [key [status detail]] _ w0. unfold move_one. open_calls.
    split_calls; repeat split.
Qed.

(** X13. An event that the shape test rejects, or whose key is a string
    that does not end in the commit suffix, is answered 200 without a
    single call to the outside: nothing is listed, downloaded, moved or
    tagged and the world is left as it was.  For a commit trigger the first
    call is the listing of the landing bucket under the batch prefix of the
    key.  An event on which the shape test itself raises, or whose key is
    not a string, goes to the handler of system errors: nothing is listed,
    downloaded or scanned; when no key is recovered from the event and the
    landing bucket variable is set, the answer is 500 with the message of
    the exception, again without a single call; and when that variable is
    unset the [KeyError] of the router leaves the handler. *)
Theorem only_commit_triggers_reach_storage event w :
  let run := handler sys env event w in
  match event with
  | S3Event key =>
      if is_marker key
      then exists pages failure rest,
             trace_of run
             = EvPrint LogScanMode
               :: EvList (LANDING_BUCKET_NAME env) (batch_prefix key) pages failure
               :: rest
      else filter is_call (trace_of run) = []
           /\ world_of run = w
           /\ result_of run = Ok (response 200 "Trigger ignored.")
  | MalformedEvent =>
      filter is_call (trace_of run) = []
      /\ world_of run = w
      /\ result_of run = Ok (response 200 "Event ignored, invalid structure.")
  | BrokenEvent e trigger_key =>
      listings (trace_of run) = []
      /\ download_attempts (trace_of run) = []
      /\ commands (trace_of run) = []
      /\ (trigger_key = None ->
          LANDING_BUCKET_NAME env <> None ->
          filter is_call (trace_of run) = []
          /\ world_of run = w
          /\ result_of run = Ok (response 500 ("An error occurred: " ++ str_exn e)))
      /\ (LANDING_BUCKET_NAME env = None ->
          filter is_call (trace_of run) = []
          /\ result_of run = Raise (key_error "LANDING_BUCKET_NAME"))
  end.
Proof.
  cbn zeta. destruct event as [|key|e trigger_key]; [repeat split| |].
  - unfold is_marker, handler. rewrite bind_run, print_run.
    cbn [result_of world_of trace_of fst snd].
    destruct (endswith key "_commit.json"); cbn [negb]; [|repeat split].
    rewrite bind_run. unfold list_batch at 1 2 3.
    destruct (sys_list_objects sys (LANDING_BUCKET_NAME env) (batch_prefix key) w)
      as [w1 [pages failure]].
    cbn [result_of world_of trace_of fst snd app]. eauto.
  - rewrite handler_broken_run. cbn zeta.
    cbn [result_of world_of trace_of fst snd listings download_attempts commands].
    match goal with
    | |- context [move_and_tag_files sys env ?d ?m w] =>
        destruct (move_and_tag_files_starts_nothing d m w) as (H1 & H2 & H3)
    end.
    split; [exact H1|]. split; [exact H2|]. split; [exact H3|]. split.
    + intros -> Hset.
      destruct (LANDING_BUCKET_NAME env) as [landing|] eqn:Hl; [|contradiction].
      rewrite (move_and_tag_files_set sys env _ _ _ landing Hl).
      repeat split.
    + intros Hl. rewrite (move_and_tag_files_unset sys env _ _ _ Hl).
      split; reflexivity.
Qed.

End ScanCalls.

(** The event [{"Records": [None]}]: answered 500, nothing called. *)
Lemma only_commit_triggers_reach_storage_witness :
  LANDING_BUCKET_NAME mem_env <> None
  /\ filter is_call
       (trace_of (handler mem_sys mem_env (BrokenEvent none_not_iterable None)
                    sample_clean_world)) = []
  /\ result_of (handler mem_sys mem_env (BrokenEvent none_not_iterable None)
                  sample_clean_world)
     = Ok (response 500 "An error occurred: argument of type 'NoneType' is not iterable").
Proof.
  assert (Hset : LANDING_BUCKET_NAME mem_env <> None) by discriminate.
  split; [exact Hset|].
  destruct (only_commit_triggers_reach_storage mem_sys mem_env
              (BrokenEvent none_not_iterable None) sample_clean_world)
    as (_ & _ & _ & H & _).
  destruct (H eq_refl Hset) as (Hcalls & _ & Hres).
  split; [exact Hcalls | exact Hres].
Defined.

(** ** Tagging again, and when the handler answers *)

Lemma merge_tags_twice env tags status detail :
  merge_tags env (merge_tags env tags status detail) status detail
  = merge_tags env tags status detail.
Proof.
  unfold merge_tags. rewrite filter_app, filter_twice.
  rewrite (filter_none _ (additional_tags env status detail)); [now rewrite app_nil_r|].
  intros [k v] Hin. cbn [fst]. apply negb_false_iff, mem_In.
  apply (in_map fst) in Hin. exact Hin.
Qed.

Section Answers.

Context {W : Type}.
Variable sys : Sys W.
Variable env : Env.

(** X14. Tagging an object a second time with the same verdict, when the
    read returns the tag set written the first time, writes that same tag
    set again: a repeated invocation changes nothing on an object that is
    already tagged. *)
Theorem update_tags_again_writes_same bucket key status detail tags w w1 :
  sys_get_object_tagging sys bucket key w
  = (w1, inr (Some (merge_tags env tags status detail))) ->
  tag_writes (trace_of (update_tags sys env bucket key status detail w))
  = [(bucket, key, merge_tags env tags status detail)].
Proof.
  intros Hget.
  unfold update_tags, catch, bind, get_object_tagging, put_object_tagging, ret, trace_of.
  rewrite Hget. cbn -[merge_tags]. rewrite merge_tags_twice.
  destruct (sys_put_object_tagging sys bucket key
              (merge_tags env tags status detail) w1) as [w2 r].
  reflexivity.
Qed.

Lemma bind_Ok_inv {A B} (m : M W A) (f : A -> M W B) w b :
  result_of (bind m f w) = Ok b ->
  exists a, result_of (m w) = Ok a /\ result_of (f a (world_of (m w))) = Ok b.
Proof.
  rewrite bind_run. destruct (result_of (m w)) as [a|e]; cbn; [|discriminate].
  intros H. now exists a.
Qed.

Lemma process_batch_status trigger prefix files folders w r :
  result_of (process_batch sys env trigger prefix files folders w) = Ok r ->
  statusCode r = 200%Z.
Proof.
  unfold process_batch, decide_and_route. destruct files as [|f files]; intros H;
    repeat (apply bind_Ok_inv in H as [? [_ H]]);
    cbn in H; inversion H; reflexivity.
Qed.

Lemma move_one_raises dest landing entry w e :
  result_of (move_one sys env dest landing entry w) = Raise e ->
  existsb routing_raises_other (trace_of (move_one sys env dest landing entry w)) = true.
Proof.
  destruct entry as [key [status detail]].
  unfold move_one. open_calls.
  split_calls; intros H; try discriminate H; reflexivity.
Qed.

Lemma move_and_tag_files_raises dest m w e :
  result_of (move_and_tag_files sys env dest m w) = Raise e ->
  existsb routing_raises_other (trace_of (move_and_tag_files sys env dest m w)) = true.
Proof.
  destruct (LANDING_BUCKET_NAME env) as [landing|] eqn:Hl.
  - rewrite (move_and_tag_files_set sys env dest m w landing Hl). revert w.
    induction m as [|entry m IH]; intros w; [discriminate|].
    rewrite for_each_cons.
    destruct (result_of (move_one sys env dest landing entry w)) as [[]|e'] eqn:E;
      cbn [trace_of result_of fst snd]; intros H.
    + rewrite existsb_app. apply orb_true_iff. right. now apply IH.
    + now apply (move_one_raises dest landing entry w e').
  - rewrite (move_and_tag_files_unset sys env dest m w Hl). reflexivity.
Qed.

Lemma system_error_from_outcome trigger_key files folders e w :
  match result_of (system_error_from sys env trigger_key files folders e w) with
  | Ok r => statusCode r = 500%Z
  | Raise _ =>
      existsb routing_raises_other
        (trace_of (system_error_from sys env trigger_key files folders e w)) = true
  end.
Proof.
  unfold system_error_from.
  rewrite bind_run, print_run. cbn [result_of world_of trace_of fst snd].
  rewrite bind_run, print_run. cbn [result_of world_of trace_of fst snd].
  rewrite bind_run.
  match goal with
  | |- context [move_and_tag_files sys env ?d ?m w] =>
      pose proof (move_and_tag_files_raises d m w) as Hraise;
      destruct (result_of (move_and_tag_files sys env d m w)) as [[]|e'] eqn:E
  end; cbn [result_of world_of trace_of fst snd app existsb routing_raises_other orb].
  - rewrite bind_run.
    match goal with
    | |- context [quarantine_folders sys env ?l folders ?w1] =>
        destruct (quarantine_folders_run sys env l folders w1) as [Hqr _]
    end.
    rewrite Hqr. reflexivity.
  - now apply (Hraise e').
Qed.

Lemma system_error_outcome trigger files folders e w :
  match result_of (system_error sys env trigger files folders e w) with
  | Ok r => statusCode r = 500%Z
  | Raise _ =>
      existsb routing_raises_other
        (trace_of (system_error sys env trigger files folders e w)) = true
  end.
Proof. apply system_error_from_outcome. Qed.

(** X15. In scan mode the handler answers whenever the routing raises
    nothing but storage errors, that is, when the router finds the landing
    bucket variable in the environment and no copy, delete or tagging call
    raises something other than a storage error: it returns a response
    whose status is 200 or 500 and lets no exception out, whatever the
    event, the listing, the downloads, the scanner and the local file
    system do. *)
Theorem handler_answers event w :
  existsb routing_raises_other (trace_of (handler sys env event w)) = false ->
  exists r, result_of (handler sys env event w) = Ok r
            /\ (statusCode r = 200%Z \/ statusCode r = 500%Z).
Proof.
  destruct event as [|key|e trigger_key].
  { intros _. eexists. split; [reflexivity | now left]. }
  2:{ unfold handler. rewrite bind_run, print_run.
      cbn [result_of world_of trace_of fst snd].
      rewrite catch_run. cbn [raise result_of world_of trace_of fst snd app].
      cbn [existsb routing_raises_other orb].
      pose proof (system_error_from_outcome trigger_key [] [] e w) as Hout.
      destruct (result_of (system_error_from sys env trigger_key [] [] e w)) as [r|e'].
      - intros _. exists r. split; [reflexivity | now right].
      - rewrite Hout. discriminate. }
  unfold handler. rewrite bind_run, print_run.
  cbn [result_of world_of trace_of fst snd].
  destruct (endswith key "_commit.json"); cbn [negb].
  2:{ intros _. eexists. split; [reflexivity | now left]. }
  destruct (sys_list_objects sys (LANDING_BUCKET_NAME env) (batch_prefix key) w)
    as [w1 [pages failure]] eqn:Elist.
  assert (Hlist : list_batch sys env (batch_prefix key) w
                  = (w1, [EvList (LANDING_BUCKET_NAME env) (batch_prefix key) pages failure],
                     Ok (collect_pages pages, failure)))
    by (unfold list_batch; now rewrite Elist).
  rewrite bind_run, !Hlist.
  cbn [result_of world_of trace_of fst snd app].
  destruct (collect_pages pages) as [files folders].
  rewrite catch_run.
  match goal with
  | |- context [result_of (?body w1)] =>
      destruct (result_of (body w1)) as [r|e] eqn:E
  end.
  - intros _. exists r. split.
    + exact E.
    + left. destruct failure as [e|]; [discriminate E|].
      exact (process_batch_status _ _ _ _ _ _ E).
  - cbn [result_of world_of trace_of fst snd existsb routing_raises_other orb].
    match goal with
    | |- context [system_error sys env key files folders e ?w2] =>
        pose proof (system_error_outcome key files folders e w2) as Hout;
        destruct (result_of (system_error sys env key files folders e w2)) as [r|e']
    end.
    + intros _. exists r. split; [reflexivity | now right].
    + rewrite existsb_app, Hout, orb_true_r. discriminate.
Qed.

End Answers.

Lemma update_tags_again_writes_same_witness :
  sys_get_object_tagging mem_sys (Some "processed") "b/a.txt"
    (with_tags [("processed", "b/a.txt", merge_tags mem_env [("owner", "etl")] Clean None)]
       sample_clean_world)
  = (with_tags [("processed", "b/a.txt", merge_tags mem_env [("owner", "etl")] Clean None)]
       sample_clean_world,
     inr (Some (merge_tags mem_env [("owner", "etl")] Clean None)))
  /\ tag_writes
       (trace_of (update_tags mem_sys mem_env (Some "processed") "b/a.txt" Clean None
                    (with_tags
                       [("processed", "b/a.txt",
                         merge_tags mem_env [("owner", "etl")] Clean None)]
                       sample_clean_world)))
     = [(Some "processed", "b/a.txt",
         [("owner", "etl"); ("scan-result", "clean"); ("scan-time", scan_time mem_env)])].
Proof.
  split; [reflexivity|].
  exact (update_tags_again_writes_same mem_sys mem_env (Some "processed") "b/a.txt" Clean None
           [("owner", "etl")]
           (with_tags
              [("processed", "b/a.txt", merge_tags mem_env [("owner", "etl")] Clean None)]
              sample_clean_world)
           (with_tags
              [("processed", "b/a.txt", merge_tags mem_env [("owner", "etl")] Clean None)]
              sample_clean_world)
           eq_refl).
Defined.

Lemma handler_answers_witness :
  existsb routing_raises_other
    (trace_of (handler mem_sys mem_env (S3Event "b/_commit.json")
                 sample_marker_only_world)) = false
  /\ exists r, result_of (handler mem_sys mem_env (S3Event "b/_commit.json")
                            sample_marker_only_world) = Ok r
               /\ (statusCode r = 200%Z \/ statusCode r = 500%Z).
Proof.
  assert (H : existsb routing_raises_other
                (trace_of (handler mem_sys mem_env (S3Event "b/_commit.json")
                             sample_marker_only_world)) = false) by reflexivity.
  split; [exact H|].
  exact (handler_answers mem_sys mem_env _ _ H).
Defined.

(** ** Definition-upload mode and the dispatch on the mode *)

Section UploadMode.

Context {W : Type}.
Variable sys : Sys W.
Variable sys_upload_file : string -> string -> string -> W -> W * option exn.
Variable env : Env.
Variable menv : ModeEnv.

Ltac open_upload :=
  unfold definition_upload, definition_upload_body, tcatch, tbind, lift, makedirs,
    run_command, tprint, tret, traise, upload_file, top_trace_of, top_result_of, top_world_of.

(** X16. When [freshclam] exits with a status other than 0,
    [definition_upload] raises the failure with that status; it has run
    [id] and [freshclam] only: nothing is archived and nothing is
    uploaded, so a failed update never replaces the definitions in the
    bucket. *)
Theorem failed_update_uploads_nothing w w1 w2 w3 id_code id_out id_err code out err :
  sys_makedirs sys "/tmp/clamav/database" w = (w1, None) ->
  sys_run_command sys "id --user" w1 = (w2, inr (id_code, id_out, id_err)) ->
  sys_run_command sys (freshclam_command (strip id_out) (clamav_config menv)) w2
  = (w3, inr (code, out, err)) ->
  code <> 0%Z ->
  let run := definition_upload sys sys_upload_file env menv w in
  top_result_of run = Raise (freshclam_failed code)
  /\ uploads (top_trace_of run) = []
  /\ top_commands (top_trace_of run)
     = ["id --user"; freshclam_command (strip id_out) (clamav_config menv)]
  /\ top_world_of run = w3.
Proof.
  intros Hm Hid Hf Hcode. cbn zeta. open_upload.
  rewrite Hm. cbn -[freshclam_command strip clamav_config tar_create]. rewrite Hid.
  cbn -[freshclam_command strip clamav_config tar_create]. rewrite Hf.
  cbn -[freshclam_command strip].
  apply Z.eqb_neq in Hcode. rewrite Hcode.
  destruct (String.eqb err EmptyString); cbn -[freshclam_command strip];
    repeat split.
Qed.

(** X17. When [freshclam] exits with status 0, the archive is made
    before the bucket variable is looked at, and the exit status of [tar]
    is not: with the variable unset or empty [definition_upload] raises
    after having archived, with it set the archive is uploaded once, as
    [clamav.tar.gz], whatever [tar] returned, and the result is that of
    the upload. *)
Theorem update_archives_then_uploads
  w w1 w2 w3 w4 id_code id_out id_err out err tar_code tar_out tar_err :
  sys_makedirs sys "/tmp/clamav/database" w = (w1, None) ->
  sys_run_command sys "id --user" w1 = (w2, inr (id_code, id_out, id_err)) ->
  sys_run_command sys (freshclam_command (strip id_out) (clamav_config menv)) w2
  = (w3, inr (0%Z, out, err)) ->
  sys_run_command sys tar_create w3 = (w4, inr (tar_code, tar_out, tar_err)) ->
  let run := definition_upload sys sys_upload_file env menv w in
  top_commands (top_trace_of run)
  = ["id --user"; freshclam_command (strip id_out) (clamav_config menv); tar_create]
  /\ match CLAMAV_DEFINITON_BUCKET_NAME env with
     | Some bucket =>
         if String.eqb bucket EmptyString
         then uploads (top_trace_of run) = [] /\ top_result_of run = Raise bucket_not_set
         else uploads (top_trace_of run)
              = [("/tmp/clamav/clamav.tar.gz", bucket, "clamav.tar.gz")]
              /\ top_result_of run
                 = of_option
                     (snd (sys_upload_file "/tmp/clamav/clamav.tar.gz" bucket
                             "clamav.tar.gz" w4))
     | None => uploads (top_trace_of run) = [] /\ top_result_of run = Raise bucket_not_set
     end.
Proof.
  intros Hm Hid Hf Ht. cbn zeta. open_upload.
  rewrite Hm. cbn -[freshclam_command strip clamav_config tar_create]. rewrite Hid.
  cbn -[freshclam_command strip clamav_config tar_create]. rewrite Hf.
  cbn -[freshclam_command strip clamav_config tar_create].
  destruct (String.eqb err EmptyString); cbn -[freshclam_command strip tar_create];
    rewrite Ht; cbn -[freshclam_command strip tar_create];
    (destruct (CLAMAV_DEFINITON_BUCKET_NAME env) as [bucket|];
     [destruct (String.eqb bucket EmptyString)|]);
    cbn -[freshclam_command strip tar_create];
    try (destruct (sys_upload_file "/tmp/clamav/clamav.tar.gz" bucket
                     "clamav.tar.gz" w4) as [w5 [[? ?|?]|]]);
    cbn -[freshclam_command strip tar_create]; repeat split.
Qed.

Lemma scan_mode_run event w :
  let run := tbind (tprint (LogReceivedEvent event))
               (fun _ => lift (handler sys env event)) w in
  top_result_of run = result_of (handler sys env event w)
  /\ top_world_of run = world_of (handler sys env event w)
  /\ top_trace_of run
     = TopPrint (LogReceivedEvent event)
       :: map InScan (trace_of (handler sys env event w)).
Proof.
  cbn zeta. unfold tbind, tprint, lift, top_result_of, top_world_of, top_trace_of,
    result_of, world_of, trace_of.
  destruct (handler sys env event w) as [[w1 t1] r]. cbn. repeat split.
Qed.

(** X18. The dispatch on [MODE].  In definition-upload mode the handler
    lets no exception out and never enters the scan path: it answers 200
    when [definition_upload] returns and 500 with the message of the
    exception otherwise.  With [MODE] unset or equal to [scan] the run is
    that of the scan path: same result, same calls.  Any other value, the
    empty string included, is answered 400 without a single call and
    leaves the world as it was. *)
Theorem handler_by_mode_dispatch event w :
  let run := handler_by_mode sys sys_upload_file env menv event w in
  let scan := handler sys env event w in
  let scan_mode :=
    top_result_of run = result_of scan
    /\ top_world_of run = world_of scan
    /\ top_trace_of run = TopPrint (LogReceivedEvent event) :: map InScan (trace_of scan) in
  match MODE menv with
  | None => scan_mode
  | Some mode =>
      if String.eqb mode "definition-upload"
      then match top_result_of (definition_upload sys sys_upload_file env menv w) with
           | Ok _ => top_result_of run = Ok (response 200 "Definition upload successful.")
           | Raise e =>
               top_result_of run
               = Ok (response 500 ("Definition upload failed: " ++ str_exn e))
           end
      else if String.eqb mode "scan"
      then scan_mode
      else top_result_of run = Ok (response 400 ("Invalid MODE: " ++ mode))
           /\ top_world_of run = w
           /\ filter top_is_call (top_trace_of run) = []
  end.
Proof.
  cbn zeta. unfold handler_by_mode.
  destruct (MODE menv) as [mode|]; [|apply scan_mode_run].
  destruct (String.eqb mode "definition-upload");
    [|destruct (String.eqb mode "scan"); [apply scan_mode_run | repeat split]].
  unfold tcatch, tbind, tprint, tret, top_result_of. cbn.
  destruct (definition_upload sys sys_upload_file env menv w) as [[w1 t1] [[]|e]];
    reflexivity.
Qed.

End UploadMode.

Lemma failed_update_uploads_nothing_witness :
  sys_run_command (freshclam_sys 1)
    (freshclam_command (strip EmptyString) (clamav_config upload_menv)) sample_clean_world
  = (sample_clean_world, inr (1%Z, "ClamAV update process started", EmptyString))
  /\ top_result_of (definition_upload (freshclam_sys 1) mem_upload_file mem_env upload_menv
                  sample_clean_world)
     = Raise (freshclam_failed 1)
  /\ uploads (top_trace_of (definition_upload (freshclam_sys 1) mem_upload_file mem_env
                          upload_menv sample_clean_world)) = [].
Proof.
  split; [reflexivity|].
  destruct (failed_update_uploads_nothing (freshclam_sys 1) mem_upload_file mem_env
              upload_menv sample_clean_world sample_clean_world sample_clean_world
              sample_clean_world 0%Z EmptyString EmptyString 1%Z
              "ClamAV update process started" EmptyString
              eq_refl eq_refl eq_refl) as (H1 & H2 & _).
  - discriminate.
  - split; [exact H1 | exact H2].
Defined.

Lemma update_archives_then_uploads_witness :
  sys_run_command failing_tar_sys tar_create sample_clean_world
  = (sample_clean_world, inr (2%Z, EmptyString, "tar: Unexpected EOF in archive"))
  /\ uploads (top_trace_of (definition_upload failing_tar_sys mem_upload_file mem_env
                          upload_menv sample_clean_world))
     = [("/tmp/clamav/clamav.tar.gz", "definitions", "clamav.tar.gz")].
Proof.
  split; [reflexivity|].
  exact (proj1 (proj2 (update_archives_then_uploads failing_tar_sys mem_upload_file
                         mem_env upload_menv
                         sample_clean_world sample_clean_world sample_clean_world
                         sample_clean_world sample_clean_world
                         0%Z EmptyString EmptyString EmptyString EmptyString
                         2%Z EmptyString "tar: Unexpected EOF in archive"
                         eq_refl eq_refl eq_refl eq_refl))).
Defined.

(** ** What a 200 answer means *)

Lemma no_transfer_app (a b : list Ev) :
  (copies a = [] /\ download_attempts a = [] /\ commands a = []) ->
  (copies b = [] /\ download_attempts b = [] /\ commands b = []) ->
  copies (a ++ b) = [] /\ download_attempts (a ++ b) = [] /\ commands (a ++ b) = [].
Proof.
  intros (H1 & H2 & H3) (H4 & H5 & H6).
  now rewrite copies_app, download_attempts_app, commands_app, H1, H2, H3, H4, H5, H6.
Qed.

Section TwoHundred.

Context {W : Type}.
Variable sys : Sys W.
Variable env : Env.

(** The run of the handler on a commit trigger, after the listing. *)
Lemma handler_commit_run key w w1 pages failure :
  is_marker key = true ->
  sys_list_objects sys (LANDING_BUCKET_NAME env) (batch_prefix key) w
  = (w1, (pages, failure)) ->
  let inner :=
    catch
      match failure with
      | Some e => raise e
      | None => process_batch sys env key (batch_prefix key)
                  (fst (collect_pages pages)) (snd (collect_pages pages))
      end
      (system_error sys env key (fst (collect_pages pages)) (snd (collect_pages pages)))
      w1 in
  handler sys env (S3Event key) w
  = (world_of inner,
     EvPrint LogScanMode
       :: EvList (LANDING_BUCKET_NAME env) (batch_prefix key) pages failure
       :: trace_of inner,
     result_of inner).
Proof.
  intros Hkey Hlist. cbn zeta. unfold is_marker in Hkey. unfold handler.
  rewrite bind_run, print_run. cbn [result_of world_of trace_of fst snd].
  rewrite Hkey. cbn [negb].
  assert (Hl : list_batch sys env (batch_prefix key) w
               = (w1, [EvList (LANDING_BUCKET_NAME env) (batch_prefix key) pages failure],
                  Ok (collect_pages pages, failure)))
    by (unfold list_batch; now rewrite Hlist).
  rewrite bind_run, !Hl. cbn [result_of world_of trace_of fst snd app].
  destruct (collect_pages pages) as [files folders]. reflexivity.
Qed.

(** A 200 answer comes from the [try] body, never from the handler of
    system errors. *)
Lemma answer_200_is_normal (body : M W Response) trigger files folders w r :
  result_of (catch body (system_error sys env trigger files folders) w) = Ok r ->
  statusCode r = 200%Z ->
  catch body (system_error sys env trigger files folders) w = body w
  /\ result_of (body w) = Ok r.
Proof.
  rewrite catch_run. destruct (result_of (body w)) as [r'|e] eqn:E.
  - intros H _. split; [reflexivity|]. now rewrite <- H.
  - cbn [result_of snd]. intros H Hs.
    pose proof (system_error_outcome sys env trigger files folders e (world_of (body w)))
      as Hout.
    rewrite H in Hout. rewrite Hs in Hout. discriminate Hout.
Qed.

Lemma move_and_tag_files_no_transfer dest m w :
  download_attempts (trace_of (move_and_tag_files sys env dest m w)) = []
  /\ commands (trace_of (move_and_tag_files sys env dest m w)) = [].
Proof.
  destruct (move_and_tag_files_starts_nothing sys env dest m w) as (_ & H1 & H2).
  split; [exact H1 | exact H2].
Qed.

Lemma delete_folders_no_transfer folders w :
  download_attempts (trace_of (delete_folders sys env folders w)) = []
  /\ commands (trace_of (delete_folders sys env folders w)) = [].
Proof.
  unfold delete_folders.
  apply (for_each_trace (fun t => download_attempts t = [] /\ commands t = []));
    [split; reflexivity | |].
  - intros a b [Ha1 Ha2] [Hb1 Hb2].
    now rewrite download_attempts_app, commands_app, Ha1, Ha2, Hb1, Hb2.
  - intros key _ w0. open_calls. split_calls; split; reflexivity.
Qed.

(** X19. A commit trigger whose listing returns no file at all (the
    batch was already moved, as on a repeated notification), when it is
    answered 200: the answer is the empty-batch answer, the one copy
    issued is that of the trigger key, to the processed bucket, a delete
    is issued for every folder key listed, and nothing was downloaded and
    no command was run, the definitions included. *)
Theorem empty_listing_moves_trigger_only key w w1 pages r :
  is_marker key = true ->
  sys_list_objects sys (LANDING_BUCKET_NAME env) (batch_prefix key) w
  = (w1, (pages, None)) ->
  fst (collect_pages pages) = [] ->
  let run := handler sys env (S3Event key) w in
  result_of run = Ok r ->
  statusCode r = 200%Z ->
  r = response 200 "Empty batch processed successfully"
  /\ copies (trace_of run)
     = [(PROCESSED_BUCKET_NAME env, LANDING_BUCKET_NAME env, key)]
  /\ (forall folder, In folder (snd (collect_pages pages)) ->
        In (LANDING_BUCKET_NAME env, folder) (deletes (trace_of run)))
  /\ download_attempts (trace_of run) = []
  /\ commands (trace_of run) = [].
Proof.
  intros Hkey Hlist Hempty. cbn zeta.
  rewrite (handler_commit_run key w w1 pages None Hkey Hlist). cbn zeta.
  rewrite Hempty. cbn [result_of trace_of fst snd]. intros Hr Hs.
  destruct (answer_200_is_normal _ _ _ _ _ _ Hr Hs) as [Hcatch Hbody].
  rewrite Hcatch. cbn [copies deletes download_attempts commands].
  destruct (empty_file_map_branch sys env key (batch_prefix key)
              (snd (collect_pages pages)) w1) as [_ Hdone].
  destruct (Hdone r Hbody) as (Hresp & Hcopies & Hdel).
  split; [exact Hresp|]. split; [exact Hcopies|]. split; [exact Hdel|].
  clear -Hbody. revert Hbody. unfold process_batch.
  rewrite bind_run, print_run. cbn [result_of world_of trace_of fst snd].
  rewrite bind_run.
  match goal with
  | |- context [move_and_tag_files sys env ?d ?m w1] =>
      destruct (move_and_tag_files_no_transfer d m w1) as [Hm1 Hm2];
      destruct (result_of (move_and_tag_files sys env d m w1)) as [[]|e]
  end; cbn [result_of world_of trace_of fst snd]; [|discriminate].
  rewrite bind_run.
  match goal with
  | |- context [delete_folders sys env ?l ?w2] =>
      destruct (delete_folders_no_transfer l w2) as [Hd1 Hd2];
      destruct (result_of (delete_folders sys env l w2)) as [[]|e]
  end; cbn [result_of world_of trace_of fst snd ret]; [|discriminate].
  intros _.
  cbn [app download_attempts commands].
  rewrite !download_attempts_app, !commands_app, Hm1, Hm2, Hd1, Hd2.
  split; reflexivity.
Qed.

End TwoHundred.

Lemma empty_listing_moves_trigger_only_witness :
  is_marker "b/_commit.json" = true
  /\ fst (collect_pages [Some [("b/sub/", 0%Z)]]) = []
  /\ copies (trace_of (handler mem_sys mem_env (S3Event "b/_commit.json")
                         (mem_world [("b/sub/", 0%Z)] [] false)))
     = [(Some "processed", Some "landing", "b/_commit.json")]
  /\ In (Some "landing", "b/sub/")
       (deletes (trace_of (handler mem_sys mem_env (S3Event "b/_commit.json")
                             (mem_world [("b/sub/", 0%Z)] [] false)))).
Proof.
  split; [reflexivity|]. split; [reflexivity|].
  destruct (empty_listing_moves_trigger_only mem_sys mem_env "b/_commit.json"
              (mem_world [("b/sub/", 0%Z)] [] false)
              (mem_world [("b/sub/", 0%Z)] [] false)
              [Some [("b/sub/", 0%Z)]]
              (response 200 "Empty batch processed successfully")
              eq_refl eq_refl eq_refl eq_refl eq_refl) as (_ & Hc & Hd & _).
  split; [exact Hc|]. apply Hd. now left.
Defined.

Section BatchAnswer.

Context {W : Type}.
Variable sys : Sys W.
Variable env : Env.

Lemma makedirs_no_copies path w : copies (trace_of (makedirs sys path w)) = [].
Proof. unfold makedirs. now destruct (sys_makedirs sys path w) as [? [?|]]. Qed.

Lemma definition_download_no_copies w :
  copies (trace_of (definition_download sys env w)) = [].
Proof.
  unfold definition_download, bind, makedirs, download_file, run_command, print,
    raise, trace_of.
  destruct (sys_makedirs sys "/tmp/clamav/database" w) as [? [?|]];
    cbn -[String.eqb]; [reflexivity|].
  destruct (CLAMAV_DEFINITON_BUCKET_NAME env) as [bucket|]; [|reflexivity].
  destruct (String.eqb bucket EmptyString); [reflexivity|].
  split_scan_calls; reflexivity.
Qed.

Lemma scan_loop_no_copies files w :
  copies (trace_of (scan_loop sys env files w)) = [].
Proof.
  unfold scan_loop. apply (for_fold_trace (fun t => copies t = [])).
  - reflexivity.
  - intros a b Ha Hb. now rewrite copies_app, Ha, Hb.
  - intros key [m flag] w0. unfold scan_step, scan_file.
    destruct (endswith key "_commit.json"); [reflexivity|].
    unfold run_scan, os_remove, download_file, run_command, catch, bind, print, ret,
      raise, trace_of, scan_outcome.
    split_scan_calls; reflexivity.
Qed.

Lemma process_batch_nonempty key prefix files folders :
  files <> [] ->
  process_batch sys env key prefix files folders
  = bind (print (LogProcessingBatch prefix (keys files)))
      (fun _ => bind (makedirs sys "/tmp/clamav/scan")
      (fun _ => bind (definition_download sys env)
      (fun _ => bind (scan_loop sys env files)
      (fun st => bind (decide_and_route sys env files folders st)
      (fun _ => ret (response 200 "Batch processed successfully")))))).
Proof. destruct files; [congruence | reflexivity]. Qed.

(** X20. What the answer 200 says about a batch with at least one listed
    file: the answer is "Batch processed successfully" whether the batch
    went to the processed or to the quarantine bucket, and the copies of
    the whole run are exactly one copy per listed file key, the marker
    included, all to the one destination chosen from the verdicts of the
    scan loop and the sizes, followed on quarantine by one copy per folder
    key.  Nothing else in the run (scratch directory, definitions, scan
    loop) copies an object. *)
Theorem batch_answer_200 key w w1 pages r :
  let files := fst (collect_pages pages) in
  let folders := snd (collect_pages pages) in
  let w3 := world_of (definition_download sys env
                        (world_of (makedirs sys "/tmp/clamav/scan" w1))) in
  let m := key_verdicts sys env (keys files) w3 in
  let quarantine := existsb bad_verdict m || existsb oversize files in
  let to_dest := fun k => (destination env quarantine, LANDING_BUCKET_NAME env, k) in
  let run := handler sys env (S3Event key) w in
  is_marker key = true ->
  sys_list_objects sys (LANDING_BUCKET_NAME env) (batch_prefix key) w
  = (w1, (pages, None)) ->
  files <> [] ->
  result_of run = Ok r ->
  statusCode r = 200%Z ->
  r = response 200 "Batch processed successfully"
  /\ copies (trace_of run)
     = map to_dest (keys files ++ if quarantine then folders else []).
Proof.
  intros files folders w3 m quarantine to_dest run Hkey Hlist Hne.
  unfold run. rewrite (handler_commit_run sys env key w w1 pages None Hkey Hlist).
  cbn zeta. fold files folders. cbn [result_of trace_of fst snd]. intros Hr Hs.
  destruct (answer_200_is_normal sys env _ _ _ _ _ _ Hr Hs) as [Hcatch Hbody].
  rewrite Hcatch. cbn [copies]. clear Hr Hcatch Hs.
  destruct (collect_pages_ok pages) as (Hnd & _ & _). fold files in Hnd.
  revert Hbody. rewrite (process_batch_nonempty key (batch_prefix key) files folders Hne).
  rewrite bind_run, print_run. cbn [result_of world_of trace_of fst snd].
  rewrite bind_run.
  pose proof (makedirs_no_copies "/tmp/clamav/scan" w1) as Hc1.
  destruct (result_of (makedirs sys "/tmp/clamav/scan" w1)) as [[]|e1];
    cbn [result_of world_of trace_of fst snd]; [|discriminate].
  rewrite bind_run.
  pose proof (definition_download_no_copies
                (world_of (makedirs sys "/tmp/clamav/scan" w1))) as Hc2.
  fold w3.
  destruct (result_of (definition_download sys env
                         (world_of (makedirs sys "/tmp/clamav/scan" w1)))) as [[]|e2];
    cbn [result_of world_of trace_of fst snd]; [|discriminate].
  rewrite bind_run.
  destruct (scan_loop_run sys env files w3 Hnd) as [Hsr Hsw].
  pose proof (scan_loop_no_copies files w3) as Hc3.
  fold m in Hsr. rewrite Hsr, Hsw. cbn [result_of world_of trace_of fst snd].
  rewrite bind_run.
  set (w4 := after_keys sys env (keys files) w3).
  unfold decide_and_route. rewrite (bind_run (size_sweep files (m, existsb bad_verdict m))).
  destruct (size_sweep_run files m (existsb bad_verdict m) w4) as (Hzr & Hzw & Hzc & _).
  rewrite Hzr, Hzw. cbn [result_of world_of trace_of fst snd].
  fold quarantine.
  set (m' := if existsb bad_verdict m then m else swept files m).
  assert (Hkm : keys m = keys files) by apply keys_key_verdicts.
  assert (Hkm' : keys m' = keys files).
  { unfold m'. destruct (existsb bad_verdict m); [exact Hkm|].
    rewrite keys_swept; [exact Hkm|]. intros k Hk. now rewrite Hkm. }
  destruct (route_batch_run sys env folders m' quarantine w4) as [_ Hdone].
  destruct (result_of (route_batch sys env folders (m', quarantine) w4)) as [[]|e3];
    cbn [result_of world_of trace_of fst snd ret]; [|discriminate].
  destruct (Hdone eq_refl) as [Hcopies _].
  intros Hresp. split; [congruence|].
  cbn [app copies].
  rewrite !copies_app, Hc1, Hc2, Hc3, Hzc, Hcopies, Hkm'. cbn [app copies].
  now rewrite app_nil_r.
Qed.

End BatchAnswer.

Lemma batch_answer_200_witness :
  is_marker "b/_commit.json" = true
  /\ fst (collect_pages [Some sample_clean_listing]) <> []
  /\ copies (trace_of (handler mem_sys mem_env (S3Event "b/_commit.json")
                         sample_clean_world))
     = [(Some "processed", Some "landing", "b/a.txt");
        (Some "processed", Some "landing", "b/_commit.json")].
Proof.
  split; [reflexivity|]. split; [discriminate|].
  exact (proj2 (batch_answer_200 mem_sys mem_env "b/_commit.json"
                  sample_clean_world sample_clean_world [Some sample_clean_listing]
                  (response 200 "Batch processed successfully")
                  eq_refl eq_refl ltac:(discriminate) eq_refl eq_refl)).
Defined.

(** ** Without the landing bucket variable *)

Section UnsetLanding.

Context {W : Type}.
Variable sys : Sys W.
Variable env : Env.
Hypothesis landing_unset : LANDING_BUCKET_NAME env = None.

Lemma route_batch_unset folders st w :
  result_of (route_batch sys env folders st w) = Raise (key_error "LANDING_BUCKET_NAME")
  /\ copies (trace_of (route_batch sys env folders st w)) = [].
Proof.
  destruct st as [m flag]. unfold route_batch.
  destruct flag; rewrite bind_run, print_run;
    cbn [result_of world_of trace_of fst snd];
    rewrite bind_run, (move_and_tag_files_unset sys env _ _ _ landing_unset);
    split; reflexivity.
Qed.

Lemma system_error_unset trigger files folders e w :
  result_of (system_error sys env trigger files folders e w)
  = Raise (key_error "LANDING_BUCKET_NAME")
  /\ copies (trace_of (system_error sys env trigger files folders e w)) = [].
Proof.
  unfold system_error, system_error_from.
  rewrite bind_run, print_run. cbn [result_of world_of trace_of fst snd].
  rewrite bind_run, print_run. cbn [result_of world_of trace_of fst snd].
  rewrite bind_run, (move_and_tag_files_unset sys env _ _ _ landing_unset).
  split; reflexivity.
Qed.

Lemma process_batch_unset key prefix files folders w :
  (exists e, result_of (process_batch sys env key prefix files folders w) = Raise e)
  /\ copies (trace_of (process_batch sys env key prefix files folders w)) = [].
Proof.
  destruct files as [|f files].
  - unfold process_batch.
    rewrite bind_run, print_run. cbn [result_of world_of trace_of fst snd].
    rewrite bind_run, (move_and_tag_files_unset sys env _ _ _ landing_unset).
    split; [eexists|]; reflexivity.
  - rewrite (process_batch_nonempty sys env key prefix (f :: files) folders)
      by discriminate.
    rewrite bind_run, print_run. cbn [result_of world_of trace_of fst snd].
    rewrite bind_run.
    pose proof (makedirs_no_copies sys "/tmp/clamav/scan" w) as Hc1.
    destruct (result_of (makedirs sys "/tmp/clamav/scan" w)) as [[]|e1];
      cbn [result_of world_of trace_of fst snd app copies];
      [|split; [eexists; reflexivity | exact Hc1]].
    rewrite bind_run.
    match goal with
    | |- context [definition_download sys env ?w0] =>
        pose proof (definition_download_no_copies sys env w0) as Hc2;
        destruct (result_of (definition_download sys env w0)) as [[]|e2]
    end;
      cbn [result_of world_of trace_of fst snd];
      [|split; [eexists; reflexivity | now rewrite copies_app, Hc1, Hc2]].
    rewrite bind_run.
    match goal with
    | |- context [scan_loop sys env ?fs ?w0] =>
        pose proof (scan_loop_no_copies sys env fs w0) as Hc3;
        destruct (result_of (scan_loop sys env fs w0)) as [[m flag]|e3]
    end;
      cbn [result_of world_of trace_of fst snd];
      [|split; [eexists; reflexivity | now rewrite !copies_app, Hc1, Hc2, Hc3]].
    rewrite bind_run. unfold decide_and_route.
    rewrite (bind_run (size_sweep (f :: files) (m, flag))).
    match goal with
    | |- context [size_sweep ?fs ?st ?w0] =>
        destruct (size_sweep_run fs m flag w0) as (Hzr & _ & Hzc & _)
    end.
    rewrite Hzr. cbn [result_of world_of trace_of fst snd].
    match goal with
    | |- context [route_batch sys env folders ?st ?w0] =>
        destruct (route_batch_unset folders st w0) as [Hrr Hrc]
    end.
    rewrite Hrr. cbn [result_of world_of trace_of fst snd].
    split; [eexists; reflexivity|].
    now rewrite !copies_app, Hc1, Hc2, Hc3, Hzc, Hrc.
Qed.

(** X22. With [LANDING_BUCKET_NAME] unset, every commit trigger ends in
    the [KeyError] of the router's lookup, which leaves the handler: the
    body of the [try] cannot return, since each of its ways out goes
    through the router, and the handler of system errors calls the router
    again.  No response is returned and not a single copy is issued,
    whatever the storage calls do with the missing bucket name. *)
Theorem unset_landing_variable_escapes key w :
  is_marker key = true ->
  let run := handler sys env (S3Event key) w in
  result_of run = Raise (key_error "LANDING_BUCKET_NAME")
  /\ copies (trace_of run) = [].
Proof.
  intros Hkey. cbn zeta.
  destruct (sys_list_objects sys (LANDING_BUCKET_NAME env) (batch_prefix key) w)
    as [w1 [pages failure]] eqn:Hlist.
  rewrite (handler_commit_run sys env key w w1 pages failure Hkey Hlist).
  cbn zeta. cbn [result_of world_of trace_of fst snd copies].
  rewrite catch_run.
  assert (Hbody :
    (exists e,
       result_of (match failure with
                  | Some e => raise e
                  | None => process_batch sys env key (batch_prefix key)
                              (fst (collect_pages pages)) (snd (collect_pages pages))
                  end w1) = Raise e)
    /\ copies (trace_of (match failure with
                         | Some e => raise e
                         | None => process_batch sys env key (batch_prefix key)
                                     (fst (collect_pages pages))
                                     (snd (collect_pages pages))
                         end w1)) = []).
  { destruct failure as [e|]; [split; [eexists|]; reflexivity|].
    apply process_batch_unset. }
  destruct Hbody as [[e He] Hc]. rewrite He.
  cbn [result_of world_of trace_of fst snd].
  match goal with
  | |- context [system_error sys env key ?fs ?fo e ?w2] =>
      destruct (system_error_unset key fs fo e w2) as [Hsr Hsc]
  end.
  split; [exact Hsr|]. now rewrite copies_app, Hc, Hsc.
Qed.

End UnsetLanding.

Lemma unset_landing_variable_escapes_witness :
  LANDING_BUCKET_NAME no_landing_env = None
  /\ is_marker "b/_commit.json" = true
  /\ result_of (handler mem_sys no_landing_env (S3Event "b/_commit.json")
                  sample_clean_world)
     = Raise (key_error "LANDING_BUCKET_NAME").
Proof.
  split; [reflexivity|]. split; [reflexivity|].
  exact (proj1 (unset_landing_variable_escapes mem_sys no_landing_env eq_refl
                  "b/_commit.json" sample_clean_world eq_refl)).
Defined.
